(** * Agenda: recurring-event expansion and the notification scheduler

    A shallow embedding of the pieces of the Agenda application that
    carry its calendar logic:

    - [expandRecurringEvents] and [toYYYYMMDD] of
      [components/CalendarView.tsx], which turn event definitions into the
      occurrences of a viewing window;
    - the polling loop [checkEventsForNotifications] and the [message] and
      [notificationclick] listeners of the service worker [sw.js];
    - what surrounds them: the window of [displayedEvents], [getWeekDays],
      [isToday], the navigation and the grid of the month view in
      [components/CalendarView.tsx], and the edits, the history and the
      listener for the worker's messages in [App.tsx].

    They are written against the JavaScript [Date] object, so the file
    starts with the part of ECMAScript's Date semantics they rely on.

    Conventions of the embedding.
    - A JavaScript number is modelled by [option Z]: the integers, and [None]
      for NaN.  Fractions and infinities are outside the model; every number
      the code computes from integer inputs is an integer or NaN.
    - A [Date] object is its time value: [Some t] with [t] the milliseconds
      since the epoch, [None] for an invalid date.
    - Local time is UTC plus a constant offset [LocalTZA] supplied by the
      host; daylight-saving transitions are outside the model. *)

From Stdlib Require Import ZArith Lia List String Ascii Bool DecimalString Sorted.
Import ListNotations.

Local Open Scope Z_scope.

(* ================================================================== *)
(** ** ECMAScript dates *)
(* ================================================================== *)

Module ECMAScript.

(** The host decides the offset of local time from UTC, in milliseconds. *)
Class HostTimeZone := { LocalTZA : Z }.

(** JavaScript numbers, restricted to the integers and NaN. *)
Definition Number := option Z.

Definition NaN : Number := None.

(** [a + b] and [a - b] and [a * b]: NaN is absorbing. *)
Definition num_add (a b : Number) : Number :=
  match a, b with Some x, Some y => Some (x + y) | _, _ => None end.

Definition num_sub (a b : Number) : Number :=
  match a, b with Some x, Some y => Some (x - y) | _, _ => None end.

Definition num_mul (a b : Number) : Number :=
  match a, b with Some x, Some y => Some (x * y) | _, _ => None end.

(** The relational operators; every comparison with NaN is false. *)
Definition num_le (a b : Number) : bool :=
  match a, b with Some x, Some y => x <=? y | _, _ => false end.

Definition num_lt (a b : Number) : bool :=
  match a, b with Some x, Some y => x <? y | _, _ => false end.

Definition num_ge (a b : Number) : bool := num_le b a.

Definition isNaN (a : Number) : bool :=
  match a with Some _ => false | None => true end.

(** *** Day number and time within day *)

Definition msPerDay : Z := 86400000.
Definition msPerHour : Z := 3600000.
Definition msPerMinute : Z := 60000.
Definition msPerSecond : Z := 1000.
Definition HoursPerDay : Z := 24.
Definition MinutesPerHour : Z := 60.
Definition SecondsPerMinute : Z := 60.

Definition Day (t : Z) : Z := t / msPerDay.

Definition TimeWithinDay (t : Z) : Z := t mod msPerDay.

(** *** Years *)

Definition DaysInYear (y : Z) : Z :=
  if negb (y mod 4 =? 0) then 365
  else if negb (y mod 100 =? 0) then 366
  else if negb (y mod 400 =? 0) then 365
  else 366.

Definition DayFromYear (y : Z) : Z :=
  365 * (y - 1970) + (y - 1969) / 4 - (y - 1901) / 100 + (y - 1601) / 400.

Definition TimeFromYear (y : Z) : Z := msPerDay * DayFromYear y.

(** ECMAScript defines [YearFromTime t] as the largest [y] with
    [TimeFromYear y <= t].  It is computed here from the mean length of a
    Gregorian year, with one correction step in either direction;
    [YearFromTime_spec] and [YearFromTime_unique] show that the result is
    the year ECMAScript asks for. *)
Definition YearFromTime (t : Z) : Z :=
  let d := Day t in
  let y := 1970 + (d * 400) / 146097 in
  if d <? DayFromYear y then y - 1
  else if DayFromYear (y + 1) <=? d then y + 1
  else y.

Definition InLeapYear (t : Z) : Z :=
  if DaysInYear (YearFromTime t) =? 366 then 1 else 0.

(** *** Months and days of the month *)

Definition DayWithinYear (t : Z) : Z := Day t - DayFromYear (YearFromTime t).

Definition MonthFromTime (t : Z) : Z :=
  let d := DayWithinYear t in
  let leap := InLeapYear t in
  if d <? 31 then 0
  else if d <? 59 + leap then 1
  else if d <? 90 + leap then 2
  else if d <? 120 + leap then 3
  else if d <? 151 + leap then 4
  else if d <? 181 + leap then 5
  else if d <? 212 + leap then 6
  else if d <? 243 + leap then 7
  else if d <? 273 + leap then 8
  else if d <? 304 + leap then 9
  else if d <? 334 + leap then 10
  else 11.

Definition DateFromTime (t : Z) : Z :=
  let d := DayWithinYear t in
  let leap := InLeapYear t in
  match MonthFromTime t with
  | 0 => d + 1
  | 1 => d - 30
  | 2 => d - 58 - leap
  | 3 => d - 89 - leap
  | 4 => d - 119 - leap
  | 5 => d - 150 - leap
  | 6 => d - 180 - leap
  | 7 => d - 211 - leap
  | 8 => d - 242 - leap
  | 9 => d - 272 - leap
  | 10 => d - 303 - leap
  | _ => d - 333 - leap
  end.

(** *** Hours, minutes, seconds, milliseconds *)

Definition HourFromTime (t : Z) : Z := (t / msPerHour) mod HoursPerDay.
Definition MinFromTime (t : Z) : Z := (t / msPerMinute) mod MinutesPerHour.
Definition SecFromTime (t : Z) : Z := (t / msPerSecond) mod SecondsPerMinute.
Definition msFromTime (t : Z) : Z := t mod msPerSecond.

(** *** Building time values *)

Definition MakeTime (hour min sec ms : Z) : Z :=
  hour * msPerHour + min * msPerMinute + sec * msPerSecond + ms.

(** Number of days of the year [leap] that precede month [mn] (0-based). *)
Definition DayFromMonth (mn : Z) (leap : Z) : Z :=
  match mn with
  | 0 => 0
  | 1 => 31
  | 2 => 59 + leap
  | 3 => 90 + leap
  | 4 => 120 + leap
  | 5 => 151 + leap
  | 6 => 181 + leap
  | 7 => 212 + leap
  | 8 => 243 + leap
  | 9 => 273 + leap
  | 10 => 304 + leap
  | _ => 334 + leap
  end.

(** ECMAScript: with [ym = year + floor(month / 12)] and
    [mn = month modulo 12], find the first day [t] of month [mn] of year
    [ym] and return [Day t + date - 1].  Months beyond December and days
    beyond the end of the month therefore roll over. *)
Definition MakeDay (year month date : Z) : Z :=
  let ym := year + month / 12 in
  let mn := month mod 12 in
  let leap := if DaysInYear ym =? 366 then 1 else 0 in
  DayFromYear ym + DayFromMonth mn leap + date - 1.

Definition MakeDate (day time : Z) : Z := day * msPerDay + time.

Definition maxTime : Z := 8640000000000000.

Definition TimeClip (time : Z) : Number :=
  if Z.abs time <=? maxTime then Some time else NaN.

(** *** Local time *)

Section Host.
Context `{HostTimeZone}.

Definition LocalTime (t : Z) : Z := t + LocalTZA.
Definition UTC (t : Z) : Z := t - LocalTZA.

(** *** Date objects *)

Definition Date := Number.

Definition getTime (d : Date) : Number := d.

Definition getFullYear (d : Date) : Number :=
  option_map (fun t => YearFromTime (LocalTime t)) d.

Definition getMonth (d : Date) : Number :=
  option_map (fun t => MonthFromTime (LocalTime t)) d.

Definition getDate (d : Date) : Number :=
  option_map (fun t => DateFromTime (LocalTime t)) d.

Definition getHours (d : Date) : Number :=
  option_map (fun t => HourFromTime (LocalTime t)) d.

Definition getMinutes (d : Date) : Number :=
  option_map (fun t => MinFromTime (LocalTime t)) d.

(** The setters return the new time value, which is also stored in the
    object; callers rebind the date to the result. *)
Definition setDate (d : Date) (date : Number) : Date :=
  match d, date with
  | Some t0, Some dt =>
      let t := LocalTime t0 in
      TimeClip (UTC (MakeDate (MakeDay (YearFromTime t) (MonthFromTime t) dt)
                              (TimeWithinDay t)))
  | _, _ => NaN
  end.

Definition setMonth (d : Date) (month : Number) : Date :=
  match d, month with
  | Some t0, Some m =>
      let t := LocalTime t0 in
      TimeClip (UTC (MakeDate (MakeDay (YearFromTime t) m (DateFromTime t))
                              (TimeWithinDay t)))
  | _, _ => NaN
  end.

(** [setFullYear] on an invalid date starts from time value 0. *)
Definition setFullYear (d : Date) (year : Number) : Date :=
  match year with
  | Some y =>
      let t := match d with Some t0 => LocalTime t0 | None => 0 end in
      TimeClip (UTC (MakeDate (MakeDay y (MonthFromTime t) (DateFromTime t))
                              (TimeWithinDay t)))
  | None => NaN
  end.

Definition setHours (d : Date) (hour : Number) : Date :=
  match d, hour with
  | Some t0, Some h =>
      let t := LocalTime t0 in
      TimeClip (UTC (MakeDate (Day t)
                       (MakeTime h (MinFromTime t) (SecFromTime t) (msFromTime t))))
  | _, _ => NaN
  end.

(** [d.setHours(hour, min, sec, ms)] *)
Definition setHours4 (d : Date) (h m s ms : Z) : Date :=
  match d with
  | Some t0 =>
      let t := LocalTime t0 in
      TimeClip (UTC (MakeDate (Day t) (MakeTime h m s ms)))
  | None => NaN
  end.

Definition setMinutes (d : Date) (min : Number) : Date :=
  match d, min with
  | Some t0, Some m =>
      let t := LocalTime t0 in
      TimeClip (UTC (MakeDate (Day t)
                       (MakeTime (HourFromTime t) m (SecFromTime t) (msFromTime t))))
  | _, _ => NaN
  end.

(** [new Date(year, month, date)]: local midnight of that day. *)
Definition Date_ymd (year month date : Z) : Date :=
  let yr := if (0 <=? year) && (year <=? 99) then 1900 + year else year in
  TimeClip (UTC (MakeDate (MakeDay yr month date) (MakeTime 0 0 0 0))).

(** Comparison of two Date objects with [<=] and [>=] goes through their
    time values. *)
Definition Date_le (a b : Date) : bool := num_le (getTime a) (getTime b).
Definition Date_ge (a b : Date) : bool := num_ge (getTime a) (getTime b).

(** *** Numbers as text *)

(** [String(n)] and the interpolation of a number in a template literal:
    decimal digits, a leading minus sign, or "NaN". *)
Definition Number_toString (n : Number) : string :=
  match n with
  | Some z => NilZero.string_of_int (Z.to_int z)
  | None => "NaN"%string
  end.

Fixpoint repeatChar (n : nat) (c : ascii) : string :=
  match n with
  | O => EmptyString
  | S n' => String c (repeatChar n' c)
  end.

(** [s.padStart(targetLength, c)] for a one-character filler. *)
Definition padStart (s : string) (targetLength : nat) (c : ascii) : string :=
  (repeatChar (targetLength - String.length s) c ++ s)%string.

(** [s.replace(/^prefix/, '')] for a literal prefix. *)
Fixpoint removePrefix (prefix s : string) : option string :=
  match prefix, s with
  | EmptyString, _ => Some s
  | String p prefix', String c s' =>
      if Ascii.eqb p c then removePrefix prefix' s' else None
  | String _ _, EmptyString => None
  end.

Definition replacePrefix (prefix s : string) : string :=
  match removePrefix prefix s with
  | Some rest => rest
  | None => s
  end.

(** *** The date-time string format

    [YYYY-MM-DDTHH:mm:ss.sssZ] and its shorter forms: a date
    [YYYY], [YYYY-MM] or [YYYY-MM-DD] (the year also as a sign and six
    digits), optionally followed by [T] and a time [HH:mm], [HH:mm:ss] or
    [HH:mm:ss.sss], optionally followed by [Z] or an offset [+HH:mm] /
    [-HH:mm].  What a host does with any other text is up to the host,
    and engines do read more (a fraction of one digit, an offset without a
    colon, a date in words); in this model every other text is
    unparsable.  What is stated below of unparsable texts is therefore
    stated of the result of [Date_new], not of the shape of the text. *)

Definition digit (c : ascii) : option Z :=
  let n := Z.of_N (N_of_ascii c) in
  if (48 <=? n) && (n <=? 57) then Some (n - 48) else None.

(** Read exactly [n] decimal digits. *)
Fixpoint digits (n : nat) (acc : Z) (s : string) : option (Z * string) :=
  match n with
  | O => Some (acc, s)
  | S n' =>
      match s with
      | String c rest =>
          match digit c with
          | Some v => digits n' (10 * acc + v) rest
          | None => None
          end
      | EmptyString => None
      end
  end.

(** The character [c], then the rest. *)
Definition expect (c : ascii) (s : string) : option string :=
  match s with
  | String c' rest => if Ascii.eqb c' c then Some rest else None
  | EmptyString => None
  end.

(** Four digits, or a sign and six digits (but not [-000000]). *)
Definition parseYear (s : string) : option (Z * string) :=
  match s with
  | String c rest =>
      if Ascii.eqb c "+" then digits 6 0 rest
      else if Ascii.eqb c "-" then
        match digits 6 0 rest with
        | Some (y, rest') => if y =? 0 then None else Some (- y, rest')
        | None => None
        end
      else digits 4 0 s
  | EmptyString => None
  end.

(** An optional field: separator [sep] followed by exactly [n] digits. *)
Definition optField (sep : ascii) (n : nat) (s : string)
  : option (option Z * string) :=
  match s with
  | String c rest =>
      if Ascii.eqb c sep then
        match digits n 0 rest with
        | Some (v, rest') => Some (Some v, rest')
        | None => None
        end
      else Some (None, s)
  | EmptyString => Some (None, s)
  end.

(** The date part; absent month and day default to 1. *)
Definition parseDatePart (s : string) : option (Z * Z * Z * string) :=
  match parseYear s with
  | Some (y, s1) =>
      match optField "-" 2 s1 with
      | Some (None, s2) => Some (y, 1, 1, s2)
      | Some (Some mo, s2) =>
          match optField "-" 2 s2 with
          | Some (None, s3) => Some (y, mo, 1, s3)
          | Some (Some dd, s3) => Some (y, mo, dd, s3)
          | None => None
          end
      | None => None
      end
  | None => None
  end.

(** The time of day after the [T], in milliseconds. *)
Definition validTime (hh mi ss ms : Z) : bool :=
  (hh <=? 24) && (mi <=? 59) && (ss <=? 59)
  && (negb (hh =? 24) || ((mi =? 0) && (ss =? 0) && (ms =? 0))).

Definition parseTimePart (s : string) : option (Z * string) :=
  match digits 2 0 s with
  | Some (hh, s0) =>
      match expect ":" s0 with
      | Some s1 =>
          match digits 2 0 s1 with
          | Some (mi, s2) =>
              match optField ":" 2 s2 with
              | Some (None, s3) =>
                  if validTime hh mi 0 0
                  then Some (MakeTime hh mi 0 0, s3) else None
              | Some (Some ss, s3) =>
                  match optField "." 3 s3 with
                  | Some (ms, s4) =>
                      let ms := match ms with Some v => v | None => 0 end in
                      if validTime hh mi ss ms
                      then Some (MakeTime hh mi ss ms, s4) else None
                  | None => None
                  end
              | None => None
              end
          | None => None
          end
      | None => None
      end
  | None => None
  end.

(** The UTC offset, which ends the text: [None] when absent (local
    time). *)
Definition parseOffset (s : string) : option (option Z) :=
  match s with
  | EmptyString => Some None
  | String c rest =>
      if Ascii.eqb c "Z" then
        match rest with
        | EmptyString => Some (Some 0)
        | String _ _ => None
        end
      else if Ascii.eqb c "+" || Ascii.eqb c "-" then
        match digits 2 0 rest with
        | Some (hh, r0) =>
            match expect ":" r0 with
            | Some r1 =>
                match digits 2 0 r1 with
                | Some (mi, EmptyString) =>
                    if (hh <=? 23) && (mi <=? 59) then
                      let off := hh * msPerHour + mi * msPerMinute in
                      Some (Some (if Ascii.eqb c "-" then - off else off))
                    else None
                | _ => None
                end
            | None => None
            end
        | None => None
        end
      else None
  end.

(** The outcome of parsing: a time value and whether it is still local
    time ([true]) or already UTC ([false]).  A date alone is UTC; a date
    and a time without offset are local time. *)
Definition parseDateTime (s : string) : option (bool * Z) :=
  match parseDatePart s with
  | Some (y, mo, dd, rest) =>
      if (1 <=? mo) && (mo <=? 12) && (1 <=? dd) && (dd <=? 31) then
        let day := MakeDay y (mo - 1) dd in
        match rest with
        | EmptyString => Some (false, MakeDate day 0)
        | String c rest' =>
            if Ascii.eqb c "T" then
              match parseTimePart rest' with
              | Some (time, rest'') =>
                  match parseOffset rest'' with
                  | Some None => Some (true, MakeDate day time)
                  | Some (Some off) => Some (false, MakeDate day time - off)
                  | None => None
                  end
              | None => None
              end
            else None
        end
      else None
  | None => None
  end.

(** [new Date(text)] *)
Definition Date_new (s : string) : Date :=
  match parseDateTime s with
  | Some (true, t) => TimeClip (UTC t)
  | Some (false, t) => TimeClip t
  | None => NaN
  end.

End Host.

End ECMAScript.


(* ================================================================== *)
(** ** types.ts *)
(* ================================================================== *)

Module Types.

Inductive AlertUnit := minutes | hours | days | weeks | months | years.

Record AppEventAlert := {
  alert_id : string;
  value : Z;
  unit : AlertUnit
}.

Inductive Frequency := daily | weekly | monthly | yearly.

Record EventRepeat := {
  frequency : Frequency;
  interval : Z
}.

(** The optional fields of the interface ([alerts?], [isCompleted?], ...)
    are options: [None] is [undefined]. *)
Record AppEvent := {
  id : string;
  calendarId : string;
  title : string;
  date : string;
  startTime : string;
  description : string;
  alerts : option (list AppEventAlert);
  isCompleted : option bool;
  location : option string;
  isAllDay : option bool;
  repeat : option EventRepeat
}.

(** Truthiness of an optional boolean: [undefined] and [false] are falsy. *)
Definition truthy (b : option bool) : bool :=
  match b with Some true => true | _ => false end.

End Types.

(* ================================================================== *)
(** ** components/CalendarView.tsx *)
(* ================================================================== *)

Module CalendarView.
Import ECMAScript Types.

Section Host.
Context `{HostTimeZone}.

Definition toYYYYMMDD (date : Date) : string :=
  (Number_toString (getFullYear date) ++ "-"
   ++ padStart (Number_toString (num_add (getMonth date) (Some 1))) 2 "0" ++ "-"
   ++ padStart (Number_toString (getDate date)) 2 "0")%string.

(** The object pushed for one occurrence of a repeating event:
    [{...event, date: toYYYYMMDD(cursorDate), id: `${event.id}_${...}`}]. *)
Definition occurrence (event : AppEvent) (cursorDate : Date) : AppEvent :=
  {| id := (id event ++ "_" ++ toYYYYMMDD cursorDate)%string;
     calendarId := calendarId event;
     title := title event;
     date := toYYYYMMDD cursorDate;
     startTime := startTime event;
     description := description event;
     alerts := alerts event;
     isCompleted := isCompleted event;
     location := location event;
     isAllDay := isAllDay event;
     repeat := repeat event |}.

(** The [switch] that moves the cursor to the next occurrence. *)
Definition advance (repeatRule : EventRepeat) (cursorDate : Date) : Date :=
  match frequency repeatRule with
  | daily =>
      setDate cursorDate
        (num_add (getDate cursorDate) (Some (interval repeatRule)))
  | weekly =>
      setDate cursorDate
        (num_add (getDate cursorDate) (Some (interval repeatRule * 7)))
  | monthly =>
      setMonth cursorDate
        (num_add (getMonth cursorDate) (Some (interval repeatRule)))
  | yearly =>
      setFullYear cursorDate
        (num_add (getFullYear cursorDate) (Some (interval repeatRule)))
  end.

(** The [while (cursorDate <= viewEnd)] loop.  [allOccurrences] is the
    array the loop pushes to.  The loop of the source need not terminate
    (an interval of 0 never moves the cursor), so the model counts
    iterations: [None] means that [fuel] iterations were not enough. *)
Fixpoint expandLoop (fuel : nat) (event : AppEvent) (repeatRule : EventRepeat)
    (viewStart viewEnd cursorDate : Date) (allOccurrences : list AppEvent)
  : option (list AppEvent) :=
  if Date_le cursorDate viewEnd then
    match fuel with
    | O => None
    | S fuel' =>
        let allOccurrences' :=
          if Date_ge cursorDate viewStart
          then allOccurrences ++ [occurrence event cursorDate]
          else allOccurrences in
        expandLoop fuel' event repeatRule viewStart viewEnd
          (advance repeatRule cursorDate) allOccurrences'
    end
  else Some allOccurrences.

(** The body of [baseEvents.forEach]. *)
Definition expandEvent (fuel : nat) (viewStart viewEnd : Date)
    (allOccurrences : list AppEvent) (event : AppEvent)
  : option (list AppEvent) :=
  match repeat event with
  | None =>
      let eventDate := Date_new (date event ++ "T00:00:00") in
      if Date_ge eventDate viewStart && Date_le eventDate viewEnd
      then Some (allOccurrences ++ [event])
      else Some allOccurrences
  | Some repeatRule =>
      let cursorDate := Date_new (date event ++ "T00:00:00") in
      expandLoop fuel event repeatRule viewStart viewEnd cursorDate
        allOccurrences
  end.

Fixpoint forEachEvent (fuel : nat) (viewStart viewEnd : Date)
    (baseEvents : list AppEvent) (allOccurrences : list AppEvent)
  : option (list AppEvent) :=
  match baseEvents with
  | [] => Some allOccurrences
  | event :: rest =>
      match expandEvent fuel viewStart viewEnd allOccurrences event with
      | Some allOccurrences' =>
          forEachEvent fuel viewStart viewEnd rest allOccurrences'
      | None => None
      end
  end.

Definition expandRecurringEvents (fuel : nat) (baseEvents : list AppEvent)
    (viewStart viewEnd : Date) : option (list AppEvent) :=
  forEachEvent fuel viewStart viewEnd baseEvents [].

End Host.

End CalendarView.

(* ================================================================== *)
(** ** sw.js *)
(* ================================================================== *)

Module ServiceWorker.
Import ECMAScript Types.

(** The options object handed to [showNotification], with the title. *)
Record NotificationData := {
  eventId : string;
  snoozeCount : Z
}.

Record NotificationAction := {
  action : string;
  action_title : string
}.

Record Notification := {
  n_title : string;
  body : string;
  icon : string;
  tag : string;
  data : NotificationData;
  actions : list NotificationAction
}.

Definition unitLabels (u : AlertUnit) : string :=
  match u with
  | minutes => "minuto(s)"
  | hours => "hora(s)"
  | days => "dia(s)"
  | weeks => "semana(s)"
  | months => "mês(es)"
  | years => "ano(s)"
  end.

Section Host.
Context `{HostTimeZone}.

(** *** The due-alert scan *)

(** [notificationTime]: a copy of [eventTime] moved back by the alert's
    lead, through the setter that belongs to the alert's unit. *)
Definition notificationTimeOf (eventTime : Date) (alert : AppEventAlert) : Date :=
  let notificationTime := eventTime in
  match unit alert with
  | minutes =>
      setMinutes notificationTime
        (num_sub (getMinutes notificationTime) (Some (value alert)))
  | hours =>
      setHours notificationTime
        (num_sub (getHours notificationTime) (Some (value alert)))
  | days =>
      setDate notificationTime
        (num_sub (getDate notificationTime) (Some (value alert)))
  | weeks =>
      setDate notificationTime
        (num_sub (getDate notificationTime) (Some (value alert * 7)))
  | months =>
      setMonth notificationTime
        (num_sub (getMonth notificationTime) (Some (value alert)))
  | years =>
      setFullYear notificationTime
        (num_sub (getFullYear notificationTime) (Some (value alert)))
  end.

(** [timeDifference >= 0 && timeDifference < 60000] *)
Definition alertDue (nowTimestamp : Z) (eventTime : Date) (alert : AppEventAlert)
  : bool :=
  let timeDifference :=
    num_sub (Some nowTimestamp) (getTime (notificationTimeOf eventTime alert)) in
  num_ge timeDifference (Some 0) && num_lt timeDifference (Some 60000).

Definition alertBody (event : AppEvent) (alert : AppEventAlert) : string :=
  if value alert =? 0 then
    (title event ++ " está começando agora (" ++ startTime event ++ ").")%string
  else
    (title event ++ " em " ++ Number_toString (Some (value alert)) ++ " "
     ++ unitLabels (unit alert) ++ " (às " ++ startTime event ++ ").")%string.

(** The notification shown for a due alert. *)
Definition alertNotification (event : AppEvent) (alert : AppEventAlert)
  : Notification :=
  let notificationId := (id event ++ "-" ++ alert_id alert)%string in
  {| n_title := "Agenda: Lembrete";
     body := alertBody event alert;
     icon := "/agenda.ico";
     tag := notificationId;
     data := {| eventId := id event; snoozeCount := 0 |};
     actions :=
       [ {| action := "mark_as_read"; action_title := "Marcar como concluído" |};
         {| action := "snooze"; action_title := "Adiar (5 min)" |} ] |}.

(** The body of [event.alerts.forEach]: the notifications it shows. *)
Definition checkAlert (nowTimestamp : Z) (event : AppEvent) (eventTime : Date)
    (alert : AppEventAlert) : list Notification :=
  if alertDue nowTimestamp eventTime alert
  then [alertNotification event alert]
  else [].

(** The body of [scheduledEvents.forEach]: the notifications shown for one
    event, in order. *)
Definition checkEvent (nowTimestamp : Z) (event : AppEvent) : list Notification :=
  match alerts event with
  | None => []
  | Some eventAlerts =>
      if (List.length eventAlerts =? 0)%nat || truthy (isCompleted event) then []
      else
        let eventTime := Date_new (date event ++ "T" ++ startTime event) in
        if isNaN (getTime eventTime) then []
        else flat_map (checkAlert nowTimestamp event eventTime) eventAlerts
  end.

(** One pass over the whole list. *)
Definition checkEvents (nowTimestamp : Z) (events : list AppEvent)
  : list Notification :=
  flat_map (checkEvent nowTimestamp) events.

(** *** The worker and its host

    The worker's two globals, together with the part of the host it talks
    to: the table of pending timers, and the calls made to the host so
    far.  [passes] is a ghost field: it records, for every evaluation
    pass, the list that the pass scanned. *)

Inductive Callback :=
  | CheckEvents
  | ShowSnoozed (notification : Notification) (snoozeCount : Z).

Record Timer := {
  timer_id : nat;
  timer_delay : Z;
  timer_callback : Callback
}.

Record Client := {
  client_id : nat;
  focused : bool
}.

Inductive HostCall :=
  | ShowNotification (n : Notification)
  | CloseNotification (n : Notification)
  | PostMessage (client : Client) (type : string) (eventId : string)
  | Focus (client : Client)
  | OpenWindow (url : string).

Record Worker := {
  scheduledEvents : list AppEvent;
  notificationCheckTimeout : option nat;
  timers : list Timer;
  nextTimerId : nat;
  calls : list HostCall;
  passes : list (list AppEvent)
}.

(** The worker as the script leaves it after loading.  The host hands out
    positive timer handles. *)
Definition initialWorker : Worker :=
  {| scheduledEvents := [];
     notificationCheckTimeout := None;
     timers := [];
     nextTimerId := 1;
     calls := [];
     passes := [] |}.

Definition clearTimeout (handle : nat) (pending : list Timer) : list Timer :=
  filter (fun t => negb (timer_id t =? handle)%nat) pending.

(** [if (notificationCheckTimeout) clearTimeout(notificationCheckTimeout)]:
    [null] and the number 0 are falsy. *)
Definition checkEventsForNotifications (now : Z) (w : Worker) : Worker :=
  let pending :=
    match notificationCheckTimeout w with
    | Some (S handle') => clearTimeout (S handle') (timers w)
    | _ => timers w
    end in
  let nowTimestamp := now in
  let shown := checkEvents nowTimestamp (scheduledEvents w) in
  let handle := nextTimerId w in
  {| scheduledEvents := scheduledEvents w;
     notificationCheckTimeout := Some handle;
     timers := pending ++ [ {| timer_id := handle;
                               timer_delay := 60000;
                               timer_callback := CheckEvents |} ];
     nextTimerId := S handle;
     calls := calls w ++ map ShowNotification shown;
     passes := passes w ++ [scheduledEvents w] |}.

(** *** The listeners *)

Inductive MessageData :=
  | SYNC_EVENTS (events : option (list AppEvent))
  | OtherMessage.

Definition onMessage (now : Z) (msg : option MessageData) (w : Worker) : Worker :=
  match msg with
  | Some (SYNC_EVENTS events) =>
      let w' :=
        {| scheduledEvents := match events with Some l => l | None => [] end;
           notificationCheckTimeout := notificationCheckTimeout w;
           timers := timers w;
           nextTimerId := nextTimerId w;
           calls := calls w;
           passes := passes w |} in
      checkEventsForNotifications now w'
  | _ => w
  end.

(** The notification that the snooze timer shows when it fires. *)
Definition snoozedNotification (notification : Notification) (count : Z)
  : Notification :=
  let newBody :=
    ("(Adiado) " ++ replacePrefix "(Adiado) " (body notification))%string in
  {| n_title := n_title notification;
     body := newBody;
     icon := icon notification;
     tag := (tag notification ++ "-snooze-" ++ Number_toString (Some count))%string;
     data := {| eventId := eventId (data notification); snoozeCount := count |};
     actions := actions notification |}.

(** [data.snoozeCount || 0] *)
Definition orZero (n : Z) : Z := if n =? 0 then 0 else n.

(** The client picked by the default branch: the last focused one, else
    the first. *)
Definition pickClient (first : Client) (clientList : list Client) : Client :=
  fold_left (fun client c => if focused c then c else client) clientList first.

Definition onNotificationClick (act : string) (notification : Notification)
    (clientList : list Client) (w : Worker) : Worker :=
  let d := data notification in
  if String.eqb act "snooze" then
    let count := orZero (snoozeCount d) + 1 in
    let pending :=
      if count <=? 2 then
        timers w ++ [ {| timer_id := nextTimerId w;
                         timer_delay := 5 * 60 * 1000;
                         timer_callback := ShowSnoozed notification count |} ]
      else timers w in
    {| scheduledEvents := scheduledEvents w;
       notificationCheckTimeout := notificationCheckTimeout w;
       timers := pending;
       nextTimerId := if count <=? 2 then S (nextTimerId w) else nextTimerId w;
       calls := calls w ++ [CloseNotification notification];
       passes := passes w |}
  else
    let later :=
      if String.eqb act "mark_as_read" then
        match clientList with
        | first :: _ => [PostMessage first "MARK_EVENT_AS_COMPLETED" (eventId d)]
        | [] => []
        end
      else
        match clientList with
        | first :: _ => [Focus (pickClient first clientList)]
        | [] => [OpenWindow "/"]
        end in
    {| scheduledEvents := scheduledEvents w;
       notificationCheckTimeout := notificationCheckTimeout w;
       timers := timers w;
       nextTimerId := nextTimerId w;
       calls := calls w ++ [CloseNotification notification] ++ later;
       passes := passes w |}.

(** A pending timer fires: the host removes it from its table and runs
    the callback. *)
Definition runCallback (now : Z) (cb : Callback) (w : Worker) : Worker :=
  match cb with
  | CheckEvents => checkEventsForNotifications now w
  | ShowSnoozed notification count =>
      {| scheduledEvents := scheduledEvents w;
         notificationCheckTimeout := notificationCheckTimeout w;
         timers := timers w;
         nextTimerId := nextTimerId w;
         calls := calls w ++ [ShowNotification (snoozedNotification notification count)];
         passes := passes w |}
  end.

Definition onTimer (now : Z) (handle : nat) (w : Worker) : option Worker :=
  match find (fun t => (timer_id t =? handle)%nat) (timers w) with
  | Some t =>
      let w' :=
        {| scheduledEvents := scheduledEvents w;
           notificationCheckTimeout := notificationCheckTimeout w;
           timers := clearTimeout handle (timers w);
           nextTimerId := nextTimerId w;
           calls := calls w;
           passes := passes w |} in
      Some (runCallback now (timer_callback t) w')
  | None => None
  end.

(** What the host can do to the worker.  Every input carries the reading
    of the clock at that moment where the handler looks at it. *)
Inductive Input :=
  | Message (now : Z) (msg : option MessageData)
  | TimerFired (now : Z) (handle : nat)
  | NotificationClick (act : string) (notification : Notification)
      (clientList : list Client).

(** One turn of the event loop; [None] when the host is asked to fire a
    timer that is not pending. *)
Definition step (w : Worker) (i : Input) : option Worker :=
  match i with
  | Message now msg => Some (onMessage now msg w)
  | TimerFired now handle => onTimer now handle w
  | NotificationClick act notification clientList =>
      Some (onNotificationClick act notification clientList w)
  end.

Fixpoint run (w : Worker) (inputs : list Input) : option Worker :=
  match inputs with
  | [] => Some w
  | i :: rest =>
      match step w i with
      | Some w' => run w' rest
      | None => None
      end
  end.

Definition isCheckTimer (t : Timer) : bool :=
  match timer_callback t with CheckEvents => true | _ => false end.

(** The pending timers of the polling loop. *)
Definition pollingTimers (w : Worker) : list Timer :=
  filter isCheckTimer (timers w).

End Host.

End ServiceWorker.

(* ================================================================== *)
(** ** App.tsx: the application's side of the channel, and its history *)
(* ================================================================== *)

Module App.
Import Types.

Record Calendar := {
  cal_id : string;
  name : string;
  color : string;
  isVisible : bool
}.

(** [HistoryState] *)
Record HistoryState := {
  h_calendars : list Calendar;
  h_events : list AppEvent
}.

(** The four pieces of state that the handlers below read and set. *)
Record State := {
  calendars : list Calendar;
  events : list AppEvent;
  undoStack : list HistoryState;
  redoStack : list HistoryState
}.

(** [l.slice(-n)]: the last [n] elements, or all of them. *)
Definition sliceLast {A} (n : nat) (l : list A) : list A :=
  skipn (List.length l - n) l.

Definition saveStateToHistory (st : State) : State :=
  {| calendars := calendars st;
     events := events st;
     undoStack := sliceLast 20 (undoStack st)
                  ++ [ {| h_calendars := calendars st; h_events := events st |} ];
     redoStack := [] |}.

Definition setEvents (f : list AppEvent -> list AppEvent) (st : State) : State :=
  {| calendars := calendars st;
     events := f (events st);
     undoStack := undoStack st;
     redoStack := redoStack st |}.

Definition setCalendars (f : list Calendar -> list Calendar) (st : State)
  : State :=
  {| calendars := f (calendars st);
     events := events st;
     undoStack := undoStack st;
     redoStack := redoStack st |}.

Definition updateEvent (updatedEvent : AppEvent) (st : State) : State :=
  setEvents
    (map (fun event =>
            if String.eqb (id event) (id updatedEvent) then updatedEvent
            else event))
    (saveStateToHistory st).

Definition deleteEvent (eventId : string) (st : State) : State :=
  setEvents (filter (fun event => negb (String.eqb (id event) eventId)))
    (saveStateToHistory st).

Definition updateCalendar (updatedCalendar : Calendar) (st : State) : State :=
  setCalendars
    (map (fun cal =>
            if String.eqb (cal_id cal) (cal_id updatedCalendar)
            then updatedCalendar else cal))
    (saveStateToHistory st).

Definition deleteCalendar (calId : string) (st : State) : State :=
  setEvents
    (filter (fun event => negb (String.eqb (calendarId event) calId)))
    (setCalendars
       (filter (fun cal => negb (String.eqb (cal_id cal) calId)))
       (saveStateToHistory st)).

(** [{ ...eventToUpdate, isCompleted: true }] *)
Definition completed (event : AppEvent) : AppEvent :=
  {| id := id event;
     calendarId := calendarId event;
     title := title event;
     date := date event;
     startTime := startTime event;
     description := description event;
     alerts := alerts event;
     isCompleted := Some true;
     location := location event;
     isAllDay := isAllDay event;
     repeat := repeat event |}.

(** The listener for messages from the service worker:
    [MARK_EVENT_AS_COMPLETED] with an event id. *)
Definition handleMessage (eventId : string) (st : State) : State :=
  match find (fun e => String.eqb (id e) eventId) (events st) with
  | Some eventToUpdate => updateEvent (completed eventToUpdate) st
  | None => st
  end.

(** [undoStack[undoStack.length - 1]] is the head of the reversed stack,
    [slice(0, -1)] is [removelast]. *)
Definition handleUndo (st : State) : State :=
  match rev (undoStack st) with
  | [] => st
  | lastState :: _ =>
      {| calendars := h_calendars lastState;
         events := h_events lastState;
         undoStack := removelast (undoStack st);
         redoStack := redoStack st
                      ++ [ {| h_calendars := calendars st;
                              h_events := events st |} ] |}
  end.

Definition handleRedo (st : State) : State :=
  match rev (redoStack st) with
  | [] => st
  | nextState :: _ =>
      {| calendars := h_calendars nextState;
         events := h_events nextState;
         undoStack := undoStack st
                      ++ [ {| h_calendars := calendars st;
                              h_events := events st |} ];
         redoStack := removelast (redoStack st) |}
  end.

End App.

(* ================================================================== *)
(** ** CalendarView.tsx: days, weeks and the visible window *)
(* ================================================================== *)

Module Views.
Import ECMAScript Types CalendarView.

(** ECMAScript's [WeekDay]: 0 is Sunday. *)
Definition WeekDay (t : Z) : Z := (Day t + 4) mod 7.

Inductive CalendarViewMode := month | week | day.

Section Host.
Context `{HostTimeZone}.

Definition getDay (d : Date) : Number :=
  option_map (fun t => WeekDay (LocalTime t)) d.

(** [a === b] on numbers: NaN is not equal to itself. *)
Definition strictEquals (a b : Number) : bool :=
  match a, b with
  | Some x, Some y => x =? y
  | _, _ => false
  end.

Definition isToday (date today : Date) : bool :=
  strictEquals (getDate date) (getDate today)
  && strictEquals (getMonth date) (getMonth today)
  && strictEquals (getFullYear date) (getFullYear today).

Definition getWeekDays (date : Date) : list Date :=
  let startOfWeek := date in
  let startOfWeek :=
    setDate startOfWeek (num_sub (getDate date) (getDay date)) in
  map (fun i =>
         let day := startOfWeek in
         setDate day (num_add (getDate startOfWeek) (Some (Z.of_nat i))))
      (seq 0 7).

(** [new Date(year, month, date)] with computed arguments: a NaN among them
    gives an invalid date. *)
Definition newDate (year month date : Number) : Date :=
  match year, month, date with
  | Some y, Some m, Some d => Date_ymd y m d
  | _, _, _ => NaN
  end.

(** The window computed in [displayedEvents]. *)
Definition viewWindow (viewMode : CalendarViewMode) (currentDate : Date)
  : Date * Date :=
  let '(viewStart, viewEnd) :=
    match viewMode with
    | month =>
        let viewStart :=
          newDate (getFullYear currentDate) (getMonth currentDate) (Some 1) in
        let viewStart :=
          setDate viewStart (num_sub (getDate viewStart) (getDay viewStart)) in
        let viewEnd :=
          newDate (getFullYear currentDate)
                  (num_add (getMonth currentDate) (Some 1)) (Some 0) in
        let viewEnd :=
          setDate viewEnd
            (num_add (getDate viewEnd) (num_sub (Some 6) (getDay viewEnd))) in
        (viewStart, viewEnd)
    | week =>
        let week := getWeekDays currentDate in
        (nth 0 week NaN, nth 6 week NaN)
    | day => (currentDate, currentDate)
    end in
  (setHours4 viewStart 0 0 0 0, setHours4 viewEnd 23 59 59 999).

(** [visibleEvents]: the events of the calendars that are switched on. *)
Definition visibleEvents (calendars : list App.Calendar) (events : list AppEvent)
  : list AppEvent :=
  let visibleCalendarIds :=
    map App.cal_id (filter App.isVisible calendars) in
  filter (fun e => existsb (String.eqb (calendarId e)) visibleCalendarIds) events.

(** [displayedEvents] *)
Definition displayedEvents (fuel : nat) (calendars : list App.Calendar)
    (events : list AppEvent) (viewMode : CalendarViewMode) (currentDate : Date)
  : option (list AppEvent) :=
  let '(viewStart, viewEnd) := viewWindow viewMode currentDate in
  expandRecurringEvents fuel (visibleEvents calendars events) viewStart viewEnd.

(** The updaters of [handlePrev] and [handleNext]. *)
Definition handlePrev (viewMode : CalendarViewMode) (prev : Date) : Date :=
  let newDate := prev in
  match viewMode with
  | month => setMonth newDate (num_sub (getMonth newDate) (Some 1))
  | week => setDate newDate (num_sub (getDate newDate) (Some 7))
  | day => setDate newDate (num_sub (getDate newDate) (Some 1))
  end.

Definition handleNext (viewMode : CalendarViewMode) (prev : Date) : Date :=
  let newDate := prev in
  match viewMode with
  | month => setMonth newDate (num_add (getMonth newDate) (Some 1))
  | week => setDate newDate (num_add (getDate newDate) (Some 7))
  | day => setDate newDate (num_add (getDate newDate) (Some 1))
  end.

End Host.

End Views.


(* ================================================================== *)
(** ** CalendarView.tsx: the grid of the month view *)
(* ================================================================== *)

Module MonthView.
Import ECMAScript Types CalendarView.

(** One cell of the grid: [{ day, isCurrentMonth, dateStr }]. *)
Record GridCell := {
  day : Number;
  isCurrentMonth : bool;
  dateStr : string
}.

Section Host.
Context `{HostTimeZone}.

Section Grid.
Variables (year month firstDayOfMonth daysInMonth : Number).

(** The body of the inner loop, for row [i] and column [j]: it pushes one
    cell on [week] and may advance [currentDay]. *)
Definition pushCell (i j : Z) (week : list GridCell) (currentDay : Z)
  : list GridCell * Z :=
  if (i =? 0) && num_lt (Some j) firstDayOfMonth then
    let prevMonthDate := Views.newDate year month (Some 0) in
    let day :=
      num_add (num_add (num_sub (getDate prevMonthDate) firstDayOfMonth)
                       (Some j))
              (Some 1) in
    (week ++ [ {| day := day;
                  isCurrentMonth := false;
                  dateStr :=
                    toYYYYMMDD (Views.newDate year (num_sub month (Some 1)) day) |} ],
     currentDay)
  else if num_lt daysInMonth (Some currentDay) then
    let day := num_sub (Some currentDay) daysInMonth in
    (week ++ [ {| day := day;
                  isCurrentMonth := false;
                  dateStr :=
                    toYYYYMMDD (Views.newDate year (num_add month (Some 1)) day) |} ],
     currentDay + 1)
  else
    let date := Views.newDate year month (Some currentDay) in
    (week ++ [ {| day := Some currentDay;
                  isCurrentMonth := true;
                  dateStr := toYYYYMMDD date |} ],
     currentDay + 1).

(** [for (let j = 0; j < 7; j++)], over the values of [j] still to come. *)
Fixpoint weekLoop (i : Z) (js : list Z) (week : list GridCell) (currentDay : Z)
  : list GridCell * Z :=
  match js with
  | [] => (week, currentDay)
  | j :: js' =>
      let '(week', currentDay') := pushCell i j week currentDay in
      weekLoop i js' week' currentDay'
  end.

(** [for (let i = 0; i < 6; i++)], over the values of [i] still to come,
    with its [break]. *)
Fixpoint gridLoop (rows : list Z) (grid : list (list GridCell)) (currentDay : Z)
  : list (list GridCell) * Z :=
  match rows with
  | [] => (grid, currentDay)
  | i :: rows' =>
      let '(week, currentDay') := weekLoop i [0; 1; 2; 3; 4; 5; 6] [] currentDay in
      let grid' := grid ++ [week] in
      if num_lt daysInMonth (Some currentDay')
         && (6 <=? Z.of_nat (List.length grid'))
      then (grid', currentDay')
      else gridLoop rows' grid' currentDay'
  end.

(** The inner loop of the padding: seven cells of the next month. *)
Fixpoint padWeek (js : list Z) (week : list GridCell) (currentDay : Z)
  : list GridCell * Z :=
  match js with
  | [] => (week, currentDay)
  | _ :: js' =>
      let day := num_sub (Some currentDay) daysInMonth in
      padWeek js'
        (week ++ [ {| day := day;
                      isCurrentMonth := false;
                      dateStr :=
                        toYYYYMMDD (Views.newDate year (num_add month (Some 1)) day) |} ])
        (currentDay + 1)
  end.

(** [while (grid.length < 6)] *)
Fixpoint padLoop (fuel : nat) (grid : list (list GridCell)) (currentDay : Z)
  : option (list (list GridCell)) :=
  if Z.of_nat (List.length grid) <? 6 then
    match fuel with
    | O => None
    | S fuel' =>
        let '(week, currentDay') :=
          padWeek [0; 1; 2; 3; 4; 5; 6] [] currentDay in
        padLoop fuel' (grid ++ [week]) currentDay'
    end
  else Some grid.

End Grid.

Definition monthGrid (fuel : nat) (currentDate : Date)
  : option (list (list GridCell)) :=
  let year := getFullYear currentDate in
  let month := getMonth currentDate in
  let firstDayOfMonth := Views.getDay (Views.newDate year month (Some 1)) in
  let daysInMonth :=
    getDate (Views.newDate year (num_add month (Some 1)) (Some 0)) in
  let '(grid, currentDay) :=
    gridLoop year month firstDayOfMonth daysInMonth [0; 1; 2; 3; 4; 5] [] 1 in
  padLoop year month daysInMonth fuel grid currentDay.

End Host.

End MonthView.

(* ================================================================== *)
(** ** Facts about ECMAScript dates *)
(* ================================================================== *)

Import ECMAScript Types CalendarView ServiceWorker.

(** Case analysis on the boolean tests of a goal, keeping the facts. *)
Ltac split_tests :=
  repeat match goal with
  | |- context [?a =? ?b] => destruct (Z.eqb_spec a b)
  | |- context [?a <? ?b] => destruct (Z.ltb_spec a b)
  | |- context [?a <=? ?b] => destruct (Z.leb_spec a b)
  end.

Ltac div_lia := Z.to_euclidean_division_equations; lia.

Section DateFacts.

Lemma TimeClip_valid t : Z.abs t <= maxTime -> TimeClip t = Some t.
Proof.
  intros Ht. unfold TimeClip.
  destruct (Z.leb_spec (Z.abs t) maxTime); [reflexivity | lia].
Qed.

Lemma TimeClip_Some t u : TimeClip t = Some u -> u = t /\ Z.abs t <= maxTime.
Proof.
  unfold TimeClip, NaN.
  destruct (Z.leb_spec (Z.abs t) maxTime); intros E; [|discriminate].
  inversion E; subst; split; [reflexivity | assumption].
Qed.

Lemma DayFromYear_succ y : DayFromYear (y + 1) = DayFromYear y + DaysInYear y.
Proof.
  unfold DayFromYear, DaysInYear. split_tests; cbn [negb]; div_lia.
Qed.

Lemma DaysInYear_cases y : DaysInYear y = 365 \/ DaysInYear y = 366.
Proof. unfold DaysInYear. split_tests; cbn [negb]; auto. Qed.

Lemma DayFromYear_lt y : DayFromYear y < DayFromYear (y + 1).
Proof. rewrite DayFromYear_succ. destruct (DaysInYear_cases y); lia. Qed.

Lemma DayFromYear_mono y y' : y <= y' -> DayFromYear y <= DayFromYear y'.
Proof.
  intros Hle. replace y' with (y + Z.of_nat (Z.to_nat (y' - y))) by lia.
  induction (Z.to_nat (y' - y)) as [|n IH];
    [replace (y + Z.of_nat 0) with y by lia; lia|].
  replace (y + Z.of_nat (S n)) with (y + Z.of_nat n + 1) by lia.
  pose proof (DayFromYear_lt (y + Z.of_nat n)). lia.
Qed.

(** [YearFromTime t] is a year that contains [t] ... *)
Lemma YearFromTime_spec t :
  TimeFromYear (YearFromTime t) <= t < TimeFromYear (YearFromTime t + 1).
Proof.
  assert (Hd : DayFromYear (YearFromTime t) <= Day t
               < DayFromYear (YearFromTime t + 1)).
  { unfold YearFromTime. set (d := Day t). clearbody d.
    set (y := 1970 + d * 400 / 146097).
    assert (Hy : 146097 * (y - 1970) <= 400 * d
                 < 146097 * (y - 1970) + 146097) by (unfold y; div_lia).
    clearbody y.
    destruct (Z.ltb_spec d (DayFromYear y)).
    - replace (y - 1 + 1) with y by lia. split; [|lia].
      clear - Hy. unfold DayFromYear. div_lia.
    - destruct (Z.leb_spec (DayFromYear (y + 1)) d); [|lia].
      split; [lia|]. clear - Hy. unfold DayFromYear. div_lia. }
  unfold TimeFromYear, Day, msPerDay in *. div_lia.
Qed.

(** ... and the only one, hence the largest [y] with [TimeFromYear y <= t]. *)
Lemma YearFromTime_unique t y :
  TimeFromYear y <= t < TimeFromYear (y + 1) -> YearFromTime t = y.
Proof.
  intros Hy. pose proof (YearFromTime_spec t) as Hs.
  unfold TimeFromYear, msPerDay in *.
  destruct (Z.lt_trichotomy (YearFromTime t) y) as [Hlt | [Heq | Hgt]]; auto.
  - pose proof (DayFromYear_mono (YearFromTime t + 1) y ltac:(lia)). lia.
  - pose proof (DayFromYear_mono (y + 1) (YearFromTime t) ltac:(lia)). lia.
Qed.

Lemma YearFromTime_largest t y : TimeFromYear y <= t -> y <= YearFromTime t.
Proof.
  intros Hy. pose proof (YearFromTime_spec t) as Hs.
  unfold TimeFromYear, msPerDay in *.
  destruct (Z.le_gt_cases y (YearFromTime t)) as [Hle | Hgt]; auto.
  pose proof (DayFromYear_mono (YearFromTime t + 1) y ltac:(lia)). lia.
Qed.

Lemma DayWithinYear_bounds t :
  0 <= DayWithinYear t < DaysInYear (YearFromTime t).
Proof.
  pose proof (YearFromTime_spec t) as Hs.
  unfold DayWithinYear.
  pose proof (DayFromYear_succ (YearFromTime t)) as Hn.
  unfold TimeFromYear, Day, msPerDay in *. div_lia.
Qed.

Lemma MonthFromTime_bounds t : 0 <= MonthFromTime t <= 11.
Proof. unfold MonthFromTime. split_tests; lia. Qed.

Lemma InLeapYear_cases t : InLeapYear t = 0 \/ InLeapYear t = 1.
Proof. unfold InLeapYear. split_tests; auto. Qed.

Lemma InLeapYear_days t : DaysInYear (YearFromTime t) = 365 + InLeapYear t.
Proof.
  unfold InLeapYear. destruct (DaysInYear_cases (YearFromTime t)) as [E | E];
    rewrite E; reflexivity.
Qed.

(** The day of the month lies between 1 and 31. *)
Lemma DateFromTime_bounds t : 1 <= DateFromTime t <= 31.
Proof.
  pose proof (DayWithinYear_bounds t) as Hd.
  rewrite InLeapYear_days in Hd.
  pose proof (InLeapYear_cases t) as Hl.
  unfold DateFromTime, MonthFromTime.
  split_tests; cbn [Z.eqb]; lia.
Qed.

(** [MakeDay] puts together again what the three field selectors take
    apart. *)
Lemma MakeDay_of_time t :
  MakeDay (YearFromTime t) (MonthFromTime t) (DateFromTime t) = Day t.
Proof.
  pose proof (MonthFromTime_bounds t) as Hm.
  unfold MakeDay, DateFromTime.
  replace (MonthFromTime t / 12) with 0 by div_lia.
  replace (MonthFromTime t mod 12) with (MonthFromTime t) by div_lia.
  rewrite Z.add_0_r. fold (InLeapYear t).
  unfold DayWithinYear.
  assert (Hc : MonthFromTime t = 0 \/ MonthFromTime t = 1 \/ MonthFromTime t = 2
            \/ MonthFromTime t = 3 \/ MonthFromTime t = 4 \/ MonthFromTime t = 5
            \/ MonthFromTime t = 6 \/ MonthFromTime t = 7 \/ MonthFromTime t = 8
            \/ MonthFromTime t = 9 \/ MonthFromTime t = 10 \/ MonthFromTime t = 11)
    by lia.
  repeat (destruct Hc as [Hc | Hc]; [rewrite Hc; cbn [DayFromMonth]; lia|]).
  rewrite Hc; cbn [DayFromMonth]; lia.
Qed.

Lemma MakeDay_date_add y m d n : MakeDay y m (d + n) = MakeDay y m d + n.
Proof. unfold MakeDay. lia. Qed.

Lemma MakeDate_of_time t : MakeDate (Day t) (TimeWithinDay t) = t.
Proof. unfold MakeDate, Day, TimeWithinDay, msPerDay. div_lia. Qed.

Lemma MakeTime_of_time t :
  MakeTime (HourFromTime t) (MinFromTime t) (SecFromTime t) (msFromTime t)
  = TimeWithinDay t.
Proof.
  unfold MakeTime, HourFromTime, MinFromTime, SecFromTime, msFromTime,
    TimeWithinDay, msPerHour, msPerMinute, msPerSecond, msPerDay,
    HoursPerDay, MinutesPerHour, SecondsPerMinute.
  div_lia.
Qed.

(** Every month has at least 28 days: moving [MakeDay] one month ahead
    moves the day number by at least that much. *)
Lemma MakeDay_next_month y m d : MakeDay y m d + 28 <= MakeDay y (m + 1) d.
Proof.
  unfold MakeDay.
  assert (Hc : 0 <= m mod 12 < 12) by (apply Z.mod_pos_bound; lia).
  destruct (Z.eq_dec (m mod 12) 11) as [E | E].
  - replace ((m + 1) / 12) with (m / 12 + 1) by div_lia.
    replace ((m + 1) mod 12) with 0 by div_lia.
    rewrite E. rewrite Z.add_assoc, DayFromYear_succ.
    cbn [DayFromMonth].
    destruct (DaysInYear_cases (y + m / 12)) as [E' | E']; rewrite E';
      split_tests; lia.
  - replace ((m + 1) / 12) with (m / 12) by div_lia.
    replace ((m + 1) mod 12) with (m mod 12 + 1) by div_lia.
    assert (Hl : 0 <= (if DaysInYear (y + m / 12) =? 366 then 1 else 0) <= 1)
      by (split_tests; lia).
    set (leap := if DaysInYear (y + m / 12) =? 366 then 1 else 0) in *.
    clearbody leap.
    assert (Hk : m mod 12 = 0 \/ m mod 12 = 1 \/ m mod 12 = 2 \/ m mod 12 = 3
              \/ m mod 12 = 4 \/ m mod 12 = 5 \/ m mod 12 = 6 \/ m mod 12 = 7
              \/ m mod 12 = 8 \/ m mod 12 = 9 \/ m mod 12 = 10) by lia.
    assert (Hstep : forall k v, m mod 12 = k -> k + 1 = v ->
              DayFromMonth k leap + 28 <= DayFromMonth v leap ->
              DayFromYear (y + m / 12) + DayFromMonth (m mod 12) leap + d - 1 + 28
              <= DayFromYear (y + m / 12) + DayFromMonth (m mod 12 + 1) leap + d - 1).
    { intros k v Ek Ev Hle. rewrite Ek, Ev. lia. }
    repeat (destruct Hk as [Hk | Hk];
            [eapply (Hstep _ _ Hk);
             [vm_compute; reflexivity | cbn [DayFromMonth]; lia]|]).
    eapply (Hstep _ _ Hk); [vm_compute; reflexivity | cbn [DayFromMonth]; lia].
Qed.

Lemma MakeDay_months_ahead y m d (n : nat) :
  MakeDay y m d + 28 * Z.of_nat n <= MakeDay y (m + Z.of_nat n) d.
Proof.
  induction n as [|n IH]; [replace (m + Z.of_nat 0) with m by lia; lia|].
  replace (m + Z.of_nat (S n)) with (m + Z.of_nat n + 1) by lia.
  pose proof (MakeDay_next_month y (m + Z.of_nat n) d). lia.
Qed.

Lemma DayFromYear_years_ahead y (n : nat) :
  DayFromYear y + 365 * Z.of_nat n <= DayFromYear (y + Z.of_nat n).
Proof.
  induction n as [|n IH]; [replace (y + Z.of_nat 0) with y by lia; lia|].
  replace (y + Z.of_nat (S n)) with (y + Z.of_nat n + 1) by lia.
  rewrite DayFromYear_succ.
  destruct (DaysInYear_cases (y + Z.of_nat n)); lia.
Qed.

(** Moving [MakeDay] whole years ahead, for a month within the year. *)
Lemma MakeDay_years_ahead y m d i :
  0 <= m <= 11 -> 1 <= i -> MakeDay y m d + 364 <= MakeDay (y + i) m d.
Proof.
  intros Hm Hi. unfold MakeDay.
  replace (m / 12) with 0 by div_lia.
  replace (m mod 12) with m by div_lia.
  rewrite !Z.add_0_r.
  pose proof (DayFromYear_years_ahead y (Z.to_nat i)) as Hy.
  rewrite Z2Nat.id in Hy by lia.
  assert (Hd : forall l l', 0 <= l <= 1 -> 0 <= l' <= 1 ->
             DayFromMonth m l - 1 <= DayFromMonth m l').
  { intros l l' Hl Hl'.
    assert (Hk : m = 0 \/ m = 1 \/ m = 2 \/ m = 3 \/ m = 4 \/ m = 5 \/ m = 6
              \/ m = 7 \/ m = 8 \/ m = 9 \/ m = 10 \/ m = 11) by lia.
    repeat (destruct Hk as [Hk | Hk]; [rewrite Hk; cbn [DayFromMonth]; lia|]).
    rewrite Hk; cbn [DayFromMonth]; lia. }
  specialize (Hd (if DaysInYear y =? 366 then 1 else 0)
                 (if DaysInYear (y + i) =? 366 then 1 else 0)).
  assert (0 <= (if DaysInYear y =? 366 then 1 else 0) <= 1) by (split_tests; lia).
  assert (0 <= (if DaysInYear (y + i) =? 366 then 1 else 0) <= 1)
    by (split_tests; lia).
  lia.
Qed.

Lemma YearFromTime_mono t t' : t <= t' -> YearFromTime t <= YearFromTime t'.
Proof.
  intros Hle. apply YearFromTime_largest.
  pose proof (YearFromTime_spec t). lia.
Qed.

(** [MakeDay] meets its definition in ECMAScript: [MakeDay y m 1] is the
    day number of a time in year [y + floor(m / 12)], month [m mod 12],
    on the first of the month. *)
Lemma MakeDay_first_of_month y m :
  let t := MakeDate (MakeDay y m 1) 0 in
  YearFromTime t = y + m / 12
  /\ MonthFromTime t = m mod 12
  /\ DateFromTime t = 1.
Proof.
  cbn zeta. set (t := MakeDate (MakeDay y m 1) 0).
  assert (Hm : 0 <= m mod 12 < 12) by (apply Z.mod_pos_bound; lia).
  assert (Hday : Day t = MakeDay y m 1)
    by (unfold t, Day, MakeDate, msPerDay; div_lia).
  set (ym := y + m / 12) in *.
  set (leap := if DaysInYear ym =? 366 then 1 else 0).
  assert (Hmd : MakeDay y m 1 = DayFromYear ym + DayFromMonth (m mod 12) leap)
    by (unfold MakeDay; fold ym; fold leap; lia).
  assert (Hl : DaysInYear ym = 365 + leap)
    by (unfold leap; destruct (DaysInYear_cases ym) as [E | E]; rewrite E;
        reflexivity).
  assert (Hl01 : 0 <= leap <= 1) by (unfold leap; split_tests; lia).
  assert (Hdm : 0 <= DayFromMonth (m mod 12) leap < 365 + leap).
  { assert (Hk : m mod 12 = 0 \/ m mod 12 = 1 \/ m mod 12 = 2 \/ m mod 12 = 3
              \/ m mod 12 = 4 \/ m mod 12 = 5 \/ m mod 12 = 6 \/ m mod 12 = 7
              \/ m mod 12 = 8 \/ m mod 12 = 9 \/ m mod 12 = 10 \/ m mod 12 = 11)
      by lia.
    repeat (destruct Hk as [Hk | Hk]; [rewrite Hk; cbn [DayFromMonth]; lia|]).
    rewrite Hk; cbn [DayFromMonth]; lia. }
  assert (Hy : YearFromTime t = ym).
  { apply YearFromTime_unique. unfold TimeFromYear.
    rewrite DayFromYear_succ, Hl. unfold t, MakeDate. rewrite Hmd.
    unfold msPerDay. lia. }
  assert (Hdw : DayWithinYear t = DayFromMonth (m mod 12) leap)
    by (unfold DayWithinYear; rewrite Hy, Hday, Hmd; lia).
  assert (Hil : InLeapYear t = leap) by (unfold InLeapYear; now rewrite Hy).
  split; [exact Hy|].
  unfold DateFromTime, MonthFromTime. rewrite Hdw, Hil.
  clear - Hm Hl01.
  assert (Hk : m mod 12 = 0 \/ m mod 12 = 1 \/ m mod 12 = 2 \/ m mod 12 = 3
            \/ m mod 12 = 4 \/ m mod 12 = 5 \/ m mod 12 = 6 \/ m mod 12 = 7
            \/ m mod 12 = 8 \/ m mod 12 = 9 \/ m mod 12 = 10 \/ m mod 12 = 11)
    by lia.
  repeat (destruct Hk as [Hk | Hk];
          [rewrite Hk; cbn [DayFromMonth]; split_tests; try lia;
           cbn [Z.eqb]; lia|]).
  rewrite Hk; cbn [DayFromMonth]; split_tests; try lia; cbn [Z.eqb]; lia.
Qed.

End DateFacts.

(* ================================================================== *)
(** ** Facts about Date objects *)
(* ================================================================== *)

Section DateObjects.
Context `{HostTimeZone}.

Lemma LocalTime_UTC t : LocalTime (UTC t) = t.
Proof. unfold LocalTime, UTC. lia. Qed.

Lemma UTC_LocalTime t : UTC (LocalTime t) = t.
Proof. unfold LocalTime, UTC. lia. Qed.

Lemma UTC_shift t n : UTC (LocalTime t + n) = t + n.
Proof. unfold LocalTime, UTC. lia. Qed.

(** [d.setDate(d.getDate() + n)] moves a valid date by [n] whole days. *)
Lemma setDate_add t n :
  setDate (Some t) (num_add (getDate (Some t)) (Some n))
  = TimeClip (t + n * msPerDay).
Proof.
  cbn [setDate getDate option_map num_add].
  rewrite MakeDay_date_add, MakeDay_of_time. f_equal.
  rewrite <- (UTC_shift t (n * msPerDay)). f_equal.
  pose proof (MakeDate_of_time (LocalTime t)) as E.
  unfold MakeDate in *. lia.
Qed.

Lemma setDate_sub t n :
  setDate (Some t) (num_sub (getDate (Some t)) (Some n))
  = TimeClip (t - n * msPerDay).
Proof.
  pose proof (setDate_add t (- n)) as E.
  cbn [getDate option_map num_add num_sub] in *.
  replace (DateFromTime (LocalTime t) - n)
    with (DateFromTime (LocalTime t) + - n) by lia.
  rewrite E. f_equal. lia.
Qed.

(** [d.setMinutes(d.getMinutes() - n)] moves it back by [n] minutes. *)
Lemma setMinutes_sub t n :
  setMinutes (Some t) (num_sub (getMinutes (Some t)) (Some n))
  = TimeClip (t - n * msPerMinute).
Proof.
  cbn [setMinutes getMinutes option_map num_sub]. f_equal.
  replace (t - n * msPerMinute) with (UTC (LocalTime t + - (n * msPerMinute)))
    by (rewrite UTC_shift; lia).
  f_equal.
  pose proof (MakeDate_of_time (LocalTime t)) as E.
  pose proof (MakeTime_of_time (LocalTime t)) as E'.
  unfold MakeDate, MakeTime in *. lia.
Qed.

(** [d.setHours(d.getHours() - n)] moves it back by [n] hours. *)
Lemma setHours_sub t n :
  setHours (Some t) (num_sub (getHours (Some t)) (Some n))
  = TimeClip (t - n * msPerHour).
Proof.
  cbn [setHours getHours option_map num_sub]. f_equal.
  replace (t - n * msPerHour) with (UTC (LocalTime t + - (n * msPerHour)))
    by (rewrite UTC_shift; lia).
  f_equal.
  pose proof (MakeDate_of_time (LocalTime t)) as E.
  pose proof (MakeTime_of_time (LocalTime t)) as E'.
  unfold MakeDate, MakeTime in *. lia.
Qed.

(** [d.setMonth(d.getMonth() + i)] with [i >= 1] moves it ahead by at
    least four weeks. *)
Lemma setMonth_ahead t i :
  1 <= i ->
  exists t', setMonth (Some t) (num_add (getMonth (Some t)) (Some i)) = TimeClip t'
             /\ t + 28 * msPerDay <= t'.
Proof.
  intros Hi. cbn [setMonth getMonth option_map num_add].
  eexists; split; [reflexivity|].
  set (lt := LocalTime t).
  pose proof (MakeDay_months_ahead (YearFromTime lt) (MonthFromTime lt)
                (DateFromTime lt) (Z.to_nat i)) as Hm.
  rewrite Z2Nat.id in Hm by lia. rewrite MakeDay_of_time in Hm.
  pose proof (MakeDate_of_time lt) as E.
  unfold UTC, MakeDate, msPerDay in *. unfold lt, LocalTime in *. nia.
Qed.

(** [d.setFullYear(d.getFullYear() + i)] with [i >= 1] moves it ahead by
    at least 364 days. *)
Lemma setFullYear_ahead t i :
  1 <= i ->
  exists t', setFullYear (Some t) (num_add (getFullYear (Some t)) (Some i))
             = TimeClip t'
             /\ t + 364 * msPerDay <= t'.
Proof.
  intros Hi. cbn [setFullYear getFullYear option_map num_add].
  eexists; split; [reflexivity|].
  set (lt := LocalTime t).
  pose proof (MakeDay_years_ahead (YearFromTime lt) (MonthFromTime lt)
                (DateFromTime lt) i (MonthFromTime_bounds lt) Hi) as Hm.
  rewrite MakeDay_of_time in Hm.
  pose proof (MakeDate_of_time lt) as E.
  unfold UTC, MakeDate, msPerDay in *. unfold lt, LocalTime in *. nia.
Qed.

Lemma Date_le_Some a b : Date_le (Some a) (Some b) = (a <=? b).
Proof. reflexivity. Qed.

Lemma Date_ge_Some a b : Date_ge (Some a) (Some b) = (b <=? a).
Proof. reflexivity. Qed.

Lemma Date_le_NaN_l b : Date_le NaN b = false.
Proof. reflexivity. Qed.

Lemma Date_le_true a b :
  Date_le a b = true -> exists x y, a = Some x /\ b = Some y /\ x <= y.
Proof.
  destruct a as [x|], b as [y|]; cbn; try discriminate.
  intros E. exists x, y. repeat split. now apply Z.leb_le.
Qed.

Lemma Date_ge_true a b :
  Date_ge a b = true -> exists x y, a = Some x /\ b = Some y /\ y <= x.
Proof.
  destruct a as [x|], b as [y|]; cbn; try discriminate.
  intros E. exists x, y. repeat split. now apply Z.leb_le.
Qed.

End DateObjects.

(* ================================================================== *)
(** ** Facts about the date-time format *)
(* ================================================================== *)

Section FormatFacts.

(** The code always parses a stored date followed by ["T"] and a time.
    A parser of the format [stops at T] when, on such a text, it consumes
    part of the date only and does so whatever follows the ["T"]. *)
Definition stopsAtT {A} (f : string -> option (A * string)) : Prop :=
  forall d x v rest,
    f (d ++ String "T" x)%string = Some (v, rest) ->
    exists d', rest = (d' ++ String "T" x)%string
               /\ forall x', f (d ++ String "T" x')%string
                             = Some (v, (d' ++ String "T" x')%string).

Lemma digits_stopsAtT n : forall acc, stopsAtT (digits n acc).
Proof.
  induction n as [|n IH]; intros acc d x v rest; cbn [digits].
  - intros E; inversion E; subst. exists d. auto.
  - destruct d as [|c d]; cbn [append].
    + cbn. discriminate.
    + destruct (digit c) as [k|]; [|discriminate]. apply IH.
Qed.

Lemma optField_stopsAtT sep n :
  Ascii.eqb "T" sep = false -> stopsAtT (optField sep n).
Proof.
  intros Hsep d x v rest. unfold optField.
  destruct d as [|c d]; cbn [append].
  - rewrite Hsep. intros E; inversion E; subst.
    exists EmptyString. split; reflexivity.
  - destruct (Ascii.eqb c sep).
    + destruct (digits n 0 (d ++ String "T" x)) as [[k r]|] eqn:Ed;
        [|discriminate].
      intros E; inversion E; subst.
      destruct (digits_stopsAtT n 0 d x k rest Ed) as (d' & -> & Hd').
      exists d'. split; [reflexivity|]. intros x'. now rewrite Hd'.
    + intros E; inversion E; subst. exists (String c d). auto.
Qed.

Lemma parseYear_stopsAtT : stopsAtT parseYear.
Proof.
  intros d x v rest. unfold parseYear.
  destruct d as [|c d]; cbn [append].
  - cbn. discriminate.
  - destruct (Ascii.eqb c "+"); [apply digits_stopsAtT|].
    destruct (Ascii.eqb c "-").
    + destruct (digits 6 0 (d ++ String "T" x)) as [[y r]|] eqn:Ed;
        [|discriminate].
      destruct (y =? 0) eqn:Ey0; [discriminate|].
      intros E; inversion E; subst.
      destruct (digits_stopsAtT 6 0 d x y rest Ed) as (d' & -> & Hd').
      exists d'. split; [reflexivity|]. intros x'. rewrite Hd', Ey0.
      reflexivity.
    + intros E.
      destruct (digits_stopsAtT 4 0 (String c d) x v rest E) as (d' & -> & Hd').
      exists d'. auto.
Qed.

Lemma parseDatePart_stopsAtT : stopsAtT parseDatePart.
Proof.
  intros d x v rest. unfold parseDatePart.
  destruct (parseYear (d ++ String "T" x)) as [[y s1]|] eqn:Ey; [|discriminate].
  destruct (parseYear_stopsAtT d x y s1 Ey) as (d1 & -> & Hy).
  destruct (optField "-" 2 (d1 ++ String "T" x)) as [[mo s2]|] eqn:Em;
    [|discriminate].
  destruct (optField_stopsAtT "-" 2 eq_refl d1 x mo s2 Em) as (d2 & -> & Hm).
  destruct mo as [mo|].
  - destruct (optField "-" 2 (d2 ++ String "T" x)) as [[dd s3]|] eqn:Ed;
      [|discriminate].
    destruct (optField_stopsAtT "-" 2 eq_refl d2 x dd s3 Ed) as (d3 & -> & Hd).
    destruct dd as [dd|]; intros E; inversion E; subst;
      exists d3; (split; [reflexivity|]); intros x'; now rewrite Hy, Hm, Hd.
  - intros E; inversion E; subst.
    exists d2. split; [reflexivity|]. intros x'. now rewrite Hy, Hm.
Qed.

Lemma expect_stopsAtT c d x rest :
  Ascii.eqb "T" c = false ->
  expect c (d ++ String "T" x) = Some rest ->
  exists d', rest = (d' ++ String "T" x)%string.
Proof.
  intros Hc. destruct d as [|c' d]; cbn [append expect].
  - rewrite Hc. discriminate.
  - destruct (Ascii.eqb c' c); [|discriminate].
    intros E; inversion E; subst. now exists d.
Qed.

(** What the time parser leaves of such a text still contains the [T]. *)
Lemma parseTimePart_keeps_T d x v rest :
  parseTimePart (d ++ String "T" x) = Some (v, rest) ->
  exists d', rest = (d' ++ String "T" x)%string.
Proof.
  unfold parseTimePart.
  destruct (digits 2 0 (d ++ String "T" x)) as [[hh s0]|] eqn:Eh; [|discriminate].
  destruct (digits_stopsAtT 2 0 d x hh s0 Eh) as (d0 & -> & _).
  destruct (expect ":" (d0 ++ String "T" x)) as [s1|] eqn:Ec; [|discriminate].
  destruct (expect_stopsAtT ":" d0 x s1 eq_refl Ec) as (d1 & ->).
  destruct (digits 2 0 (d1 ++ String "T" x)) as [[mi s2]|] eqn:Em; [|discriminate].
  destruct (digits_stopsAtT 2 0 d1 x mi s2 Em) as (d2 & -> & _).
  destruct (optField ":" 2 (d2 ++ String "T" x)) as [[ss s3]|] eqn:Es;
    [|discriminate].
  destruct (optField_stopsAtT ":" 2 eq_refl d2 x ss s3 Es) as (d3 & -> & _).
  destruct ss as [ss|].
  - destruct (optField "." 3 (d3 ++ String "T" x)) as [[ms s4]|] eqn:Ems;
      [|discriminate].
    destruct (optField_stopsAtT "." 3 eq_refl d3 x ms s4 Ems) as (d4 & -> & _).
    destruct (validTime _ _ _ _); [|discriminate].
    intros E; inversion E; subst. now exists d4.
  - destruct (validTime _ _ _ _); [|discriminate].
    intros E; inversion E; subst. now exists d3.
Qed.

(** An offset ends the text, so nothing with a [T] in it is one. *)
Lemma parseOffset_T d x : parseOffset (d ++ String "T" x) = None.
Proof.
  unfold parseOffset. destruct d as [|c d]; cbn [append].
  - reflexivity.
  - destruct (Ascii.eqb c "Z").
    + destruct d; reflexivity.
    + destruct (Ascii.eqb c "+" || Ascii.eqb c "-"); [|reflexivity].
      destruct (digits 2 0 (d ++ String "T" x)) as [[hh r0]|] eqn:Eh;
        [|reflexivity].
      destruct (digits_stopsAtT 2 0 d x hh r0 Eh) as (d0 & -> & _).
      destruct (expect ":" (d0 ++ String "T" x)) as [r1|] eqn:Ec; [|reflexivity].
      destruct (expect_stopsAtT ":" d0 x r1 eq_refl Ec) as (d1 & ->).
      destruct (digits 2 0 (d1 ++ String "T" x)) as [[mi r2]|] eqn:Em;
        [|reflexivity].
      destruct (digits_stopsAtT 2 0 d1 x mi r2 Em) as (d2 & -> & _).
      destruct d2; reflexivity.
Qed.

(** When [date + "T" + time] parses, [date] is exactly a date of the
    format: the date parser reads all of it, whatever follows the [T]. *)
Lemma parseDateTime_date_part d time r :
  parseDateTime (d ++ String "T" time) = Some r ->
  exists y mo dd,
    (forall x, parseDatePart (d ++ String "T" x) = Some (y, mo, dd, String "T" x))
    /\ (1 <=? mo) && (mo <=? 12) && (1 <=? dd) && (dd <=? 31) = true.
Proof.
  unfold parseDateTime.
  destruct (parseDatePart (d ++ String "T" time)) as [[[[y mo] dd] rest]|] eqn:Ed;
    [|discriminate].
  destruct (parseDatePart_stopsAtT d time (y, mo, dd) rest Ed) as (d' & -> & Hd).
  destruct ((1 <=? mo) && (mo <=? 12) && (1 <=? dd) && (dd <=? 31)) eqn:Er;
    [|discriminate].
  destruct d' as [|c d']; cbn [append].
  - intros _. exists y, mo, dd. split; [exact Hd | exact Er].
  - destruct (Ascii.eqb c "T"); [|discriminate].
    destruct (parseTimePart (d' ++ String "T" time)) as [[t r']|] eqn:Et;
      [|discriminate].
    destruct (parseTimePart_keeps_T d' time t r' Et) as (d'' & ->).
    rewrite parseOffset_T. discriminate.
Qed.

(** So [date + "T00:00:00"] parses too, to the local midnight of a day. *)
Lemma parseDateTime_midnight d time r :
  parseDateTime (d ++ String "T" time) = Some r ->
  exists day, parseDateTime (d ++ "T00:00:00") = Some (true, MakeDate day 0).
Proof.
  intros Hp. destruct (parseDateTime_date_part d time r Hp) as (y & mo & dd & Hd & Hr).
  exists (MakeDay y (mo - 1) dd).
  change "T00:00:00"%string with (String "T" "00:00:00").
  unfold parseDateTime. rewrite Hd, Hr. reflexivity.
Qed.

End FormatFacts.

(* ================================================================== *)
(** ** Writing a day and reading it back *)
(* ================================================================== *)

(** The text of the local calendar day of a local time value, as
    [toYYYYMMDD] writes it. *)
Definition localYMD (L : Z) : string :=
  (Number_toString (Some (YearFromTime L)) ++ "-"
   ++ padStart (Number_toString (Some (MonthFromTime L + 1))) 2 "0" ++ "-"
   ++ padStart (Number_toString (Some (DateFromTime L))) 2 "0")%string.

(** The decimal numerals of the years 1000 .. 9999 are read back by
    [digits 4], and the padded numerals of 0 .. 99 by [digits 2]. *)
Definition readsBack4 (k : nat) : bool :=
  let y := 1000 + Z.of_nat k in
  match digits 4 0 (Number_toString (Some y)) with
  | Some (v, EmptyString) => v =? y
  | _ => false
  end.

Definition readsBack2 (k : nat) : bool :=
  let v := Z.of_nat k in
  match digits 2 0 (padStart (Number_toString (Some v)) 2 "0") with
  | Some (w, EmptyString) => w =? v
  | _ => false
  end.

Section RenderParse.

Lemma append_assoc (a b c : string) : ((a ++ b) ++ c = a ++ (b ++ c))%string.
Proof. induction a as [|x a IH]; cbn; [reflexivity | now rewrite IH]. Qed.

Lemma digits_app n : forall acc s v rest,
  digits n acc s = Some (v, EmptyString) ->
  digits n acc (s ++ rest) = Some (v, rest).
Proof.
  induction n as [|n IH]; intros acc s v rest; cbn [digits].
  - intros E; inversion E; subst. reflexivity.
  - destruct s as [|c s]; [discriminate|]. cbn [append].
    destruct (digit c); [apply IH | discriminate].
Qed.

Lemma digit_not_sign c v :
  digit c = Some v -> Ascii.eqb c "+" = false /\ Ascii.eqb c "-" = false.
Proof.
  intros Hd. split.
  - destruct (Ascii.eqb_spec c "+"); [subst; discriminate | reflexivity].
  - destruct (Ascii.eqb_spec c "-"); [subst; discriminate | reflexivity].
Qed.

Lemma readsBack4_all : forallb readsBack4 (seq 0 (90 * 100)) = true.
Proof. vm_compute. reflexivity. Qed.

Lemma readsBack2_all : forallb readsBack2 (seq 0 100) = true.
Proof. vm_compute. reflexivity. Qed.

Lemma year_reads_back y :
  1000 <= y <= 9999 ->
  digits 4 0 (Number_toString (Some y)) = Some (y, EmptyString).
Proof.
  intros Hy. pose proof readsBack4_all as Hall.
  rewrite forallb_forall in Hall.
  specialize (Hall (Z.to_nat (y - 1000))).
  unfold readsBack4 in Hall. cbn zeta in Hall.
  replace (1000 + Z.of_nat (Z.to_nat (y - 1000))) with y in Hall by lia.
  destruct (digits 4 0 (Number_toString (Some y))) as [[v [|c r]]|];
    try (discriminate Hall; apply in_seq; lia).
  f_equal. f_equal. apply Z.eqb_eq. apply Hall. apply in_seq. lia.
Qed.

Lemma field_reads_back v :
  0 <= v <= 99 ->
  digits 2 0 (padStart (Number_toString (Some v)) 2 "0") = Some (v, EmptyString).
Proof.
  intros Hv. pose proof readsBack2_all as Hall.
  rewrite forallb_forall in Hall.
  specialize (Hall (Z.to_nat v)).
  unfold readsBack2 in Hall. cbn zeta in Hall.
  rewrite Z2Nat.id in Hall by lia.
  destruct (digits 2 0 (padStart (Number_toString (Some v)) 2 "0"))
    as [[w [|c r]]|]; try (discriminate Hall; apply in_seq; lia).
  f_equal. f_equal. apply Z.eqb_eq. apply Hall. apply in_seq. lia.
Qed.

Lemma parseYear_reads_back y rest :
  1000 <= y <= 9999 ->
  parseYear (Number_toString (Some y) ++ rest) = Some (y, rest).
Proof.
  intros Hy. pose proof (year_reads_back y Hy) as Hd.
  pose proof (digits_app 4 0 _ _ rest Hd) as Hr.
  destruct (Number_toString (Some y)) as [|c s]; [discriminate|].
  cbn [append] in *. unfold parseYear.
  cbn [digits] in Hd. destruct (digit c) as [v|] eqn:Ec; [|discriminate].
  destruct (digit_not_sign c v Ec) as [-> ->]. exact Hr.
Qed.

Lemma optField_reads_back v rest :
  0 <= v <= 99 ->
  optField "-" 2 (String "-" (padStart (Number_toString (Some v)) 2 "0" ++ rest))
  = Some (Some v, rest).
Proof.
  intros Hv. unfold optField. cbn [Ascii.eqb Bool.eqb].
  now rewrite (digits_app 2 0 _ _ rest (field_reads_back v Hv)).
Qed.

(** A day written by [toYYYYMMDD] is read back by the date parser. *)
Lemma parseDatePart_localYMD L rest :
  1000 <= YearFromTime L <= 9999 ->
  parseDatePart (localYMD L ++ rest)
  = Some (YearFromTime L, MonthFromTime L + 1, DateFromTime L, rest).
Proof.
  intros Hy. unfold localYMD, parseDatePart.
  pose proof (MonthFromTime_bounds L). pose proof (DateFromTime_bounds L).
  rewrite !append_assoc. rewrite parseYear_reads_back by assumption.
  cbn [append]. rewrite optField_reads_back by lia.
  rewrite optField_reads_back by lia. reflexivity.
Qed.

Lemma parseDateTime_localYMD L :
  1000 <= YearFromTime L <= 9999 ->
  parseDateTime (localYMD L ++ "T00:00:00") = Some (true, MakeDate (Day L) 0).
Proof.
  intros Hy. unfold parseDateTime. rewrite parseDatePart_localYMD by assumption.
  pose proof (MonthFromTime_bounds L). pose proof (DateFromTime_bounds L).
  replace ((1 <=? MonthFromTime L + 1) && (MonthFromTime L + 1 <=? 12)
           && (1 <=? DateFromTime L) && (DateFromTime L <=? 31)) with true
    by (symmetry; rewrite !andb_true_iff, !Z.leb_le; lia).
  replace (MonthFromTime L + 1 - 1) with (MonthFromTime L) by lia.
  rewrite MakeDay_of_time. reflexivity.
Qed.

Context `{HostTimeZone}.

Lemma toYYYYMMDD_localYMD t : toYYYYMMDD (Some t) = localYMD (LocalTime t).
Proof. reflexivity. Qed.

(** The start of a local day between the years 1000 and 9999 is the
    instant that the text of that day, followed by [T00:00:00], denotes. *)
Lemma Date_new_toYYYYMMDD t :
  1000 <= YearFromTime (LocalTime t) <= 9999 ->
  TimeWithinDay (LocalTime t) = 0 ->
  Z.abs t <= maxTime ->
  Date_new (toYYYYMMDD (Some t) ++ "T00:00:00") = Some t.
Proof.
  intros Hy Hm Hv. rewrite toYYYYMMDD_localYMD. unfold Date_new.
  rewrite parseDateTime_localYMD by assumption.
  pose proof (MakeDate_of_time (LocalTime t)) as E. rewrite Hm in E.
  replace (MakeDate (Day (LocalTime t)) 0) with (LocalTime t)
    by (unfold MakeDate in *; lia).
  rewrite UTC_LocalTime. now apply TimeClip_valid.
Qed.

End RenderParse.

(* ================================================================== *)
(** ** The occurrence expander *)
(* ================================================================== *)

Section ExpanderFacts.
Context `{HostTimeZone}.

(** One unfolding of the [while] loop. *)
Lemma expandLoop_eq fuel event repeatRule viewStart viewEnd cursorDate acc :
  expandLoop fuel event repeatRule viewStart viewEnd cursorDate acc =
  if Date_le cursorDate viewEnd then
    match fuel with
    | O => None
    | S fuel' =>
        expandLoop fuel' event repeatRule viewStart viewEnd
          (advance repeatRule cursorDate)
          (if Date_ge cursorDate viewStart
           then acc ++ [occurrence event cursorDate] else acc)
    end
  else Some acc.
Proof. destruct fuel; reflexivity. Qed.

(** The loop only ever appends to the array it is given. *)
Lemma expandLoop_acc fuel event r viewStart viewEnd :
  forall cursorDate acc,
    expandLoop fuel event r viewStart viewEnd cursorDate acc
    = option_map (app acc)
        (expandLoop fuel event r viewStart viewEnd cursorDate []).
Proof.
  induction fuel as [|fuel IH]; intros c acc; rewrite !(expandLoop_eq _ _ _ _ _ c).
  - destruct (Date_le c viewEnd); cbn; [reflexivity | now rewrite app_nil_r].
  - destruct (Date_le c viewEnd); cbn [option_map]; [|now rewrite app_nil_r].
    destruct (Date_ge c viewStart).
    + rewrite (IH _ (acc ++ _)), (IH _ ([] ++ _)).
      destruct (expandLoop fuel event r viewStart viewEnd (advance r c) []);
        cbn; [now rewrite <- app_assoc | reflexivity].
    + apply IH.
Qed.

(** More fuel does not change a result. *)
Lemma expandLoop_fuel_mono fuel fuel' event r viewStart viewEnd :
  (fuel <= fuel')%nat ->
  forall cursorDate acc l,
    expandLoop fuel event r viewStart viewEnd cursorDate acc = Some l ->
    expandLoop fuel' event r viewStart viewEnd cursorDate acc = Some l.
Proof.
  revert fuel'. induction fuel as [|fuel IH]; intros fuel' Hle c acc l;
    rewrite !(expandLoop_eq _ _ _ _ _ c).
  - destruct (Date_le c viewEnd); [discriminate | auto].
  - destruct (Date_le c viewEnd); [|auto].
    destruct fuel' as [|fuel']; [lia|].
    apply IH. lia.
Qed.

(** The instant [t] lies in the window. *)
Definition inWindow (viewStart viewEnd : Date) (t : Z) : Prop :=
  exists ws we, viewStart = Some ws /\ viewEnd = Some we /\ ws <= t <= we.

(** Everything the loop pushes is the occurrence of a cursor position
    inside the window. *)
Lemma expandLoop_window fuel event r viewStart viewEnd :
  forall cursorDate l,
    expandLoop fuel event r viewStart viewEnd cursorDate [] = Some l ->
    forall o, In o l ->
      exists t, inWindow viewStart viewEnd t /\ o = occurrence event (Some t).
Proof.
  induction fuel as [|fuel IH]; intros c l; rewrite expandLoop_eq.
  - destruct (Date_le c viewEnd); [discriminate|].
    intros E; inversion E; subst. intros o [].
  - destruct (Date_le c viewEnd) eqn:Hle;
      [|intros E; inversion E; subst; intros o []].
    destruct (Date_ge c viewStart) eqn:Hge.
    + rewrite expandLoop_acc.
      destruct (expandLoop fuel event r viewStart viewEnd (advance r c) [])
        as [l'|] eqn:El; [|discriminate].
      cbn. intros E; inversion E; subst. intros o [Ho | Ho].
      * apply Date_le_true in Hle. destruct Hle as (x & y & -> & -> & Hxy).
        apply Date_ge_true in Hge. destruct Hge as (x' & y' & Ex & -> & Hyx).
        inversion Ex; subst x'. exists x. split; [|now symmetry].
        exists y', y. auto.
      * eapply IH; eauto.
    + intros E. eapply IH; eauto.
Qed.

(** With an interval of at least 1 every step moves a valid cursor ahead
    by a day or more. *)
Lemma advance_progress r t :
  1 <= interval r ->
  exists t', advance r (Some t) = TimeClip t' /\ t + msPerDay <= t'.
Proof.
  intros Hi. unfold advance. destruct (frequency r).
  - rewrite setDate_add. eexists; split; [reflexivity|]. unfold msPerDay. nia.
  - rewrite setDate_add. eexists; split; [reflexivity|]. unfold msPerDay. nia.
  - destruct (setMonth_ahead t (interval r) Hi) as (t' & E & Ht).
    exists t'. split; [exact E|]. unfold msPerDay in *. lia.
  - destruct (setFullYear_ahead t (interval r) Hi) as (t' & E & Ht).
    exists t'. split; [exact E|]. unfold msPerDay in *. lia.
Qed.

(** Hence the loop ends: one iteration per day between the cursor and the
    end of the window is enough. *)
Lemma expandLoop_terminates event r viewStart we (n : nat) :
  1 <= interval r ->
  forall t acc,
    we - t < Z.of_nat n * msPerDay ->
    exists l, expandLoop n event r viewStart (Some we) (Some t) acc = Some l.
Proof.
  intros Hi. induction n as [|n IH]; intros t acc Hn; rewrite expandLoop_eq;
    rewrite Date_le_Some; destruct (Z.leb_spec t we) as [Hle | Hgt];
    try (eexists; reflexivity).
  - unfold msPerDay in Hn. lia.
  - destruct (advance_progress r t Hi) as (t' & E & Ht). rewrite E.
    unfold TimeClip. destruct (Z.abs t' <=? maxTime).
    + apply IH. unfold msPerDay in *. lia.
    + rewrite expandLoop_eq. cbn. eexists; reflexivity.
Qed.

Lemma expandLoop_total event r viewStart viewEnd cursorDate acc :
  1 <= interval r ->
  exists n l,
    expandLoop n event r viewStart viewEnd cursorDate acc = Some l.
Proof.
  intros Hi. destruct cursorDate as [t|], viewEnd as [we|];
    try (exists O; rewrite expandLoop_eq; cbn; eexists; reflexivity).
  exists (Z.to_nat ((we - t) / msPerDay + 1)).
  apply expandLoop_terminates; [assumption|].
  destruct (Z.leb_spec t we); unfold msPerDay; [|div_lia].
  rewrite Z2Nat.id by div_lia. div_lia.
Qed.

Lemma expandEvent_acc fuel viewStart viewEnd acc event :
  expandEvent fuel viewStart viewEnd acc event
  = option_map (app acc) (expandEvent fuel viewStart viewEnd [] event).
Proof.
  unfold expandEvent. destruct (repeat event) as [r|].
  - apply expandLoop_acc.
  - destruct (_ && _); cbn; [reflexivity | now rewrite app_nil_r].
Qed.

Lemma forEachEvent_acc fuel viewStart viewEnd baseEvents :
  forall acc,
    forEachEvent fuel viewStart viewEnd baseEvents acc
    = option_map (app acc) (forEachEvent fuel viewStart viewEnd baseEvents []).
Proof.
  induction baseEvents as [|e rest IH]; intros acc; cbn [forEachEvent].
  - cbn. now rewrite app_nil_r.
  - rewrite (expandEvent_acc _ _ _ acc).
    destruct (expandEvent fuel viewStart viewEnd [] e) as [l|]; cbn [option_map];
      [|reflexivity].
    rewrite (IH (acc ++ l)), (IH l).
    destruct (forEachEvent fuel viewStart viewEnd rest []); cbn;
      [now rewrite app_assoc | reflexivity].
Qed.

(** The result is the concatenation, in order, of what each event
    contributes. *)
Lemma expandRecurringEvents_cons fuel e rest viewStart viewEnd :
  expandRecurringEvents fuel (e :: rest) viewStart viewEnd =
  match expandEvent fuel viewStart viewEnd [] e,
        expandRecurringEvents fuel rest viewStart viewEnd with
  | Some l, Some l' => Some (l ++ l')
  | _, _ => None
  end.
Proof.
  unfold expandRecurringEvents. cbn [forEachEvent].
  destruct (expandEvent fuel viewStart viewEnd [] e) as [l|]; [|reflexivity].
  rewrite forEachEvent_acc.
  destruct (forEachEvent fuel viewStart viewEnd rest []); reflexivity.
Qed.

Lemma expandRecurringEvents_single fuel e viewStart viewEnd :
  expandRecurringEvents fuel [e] viewStart viewEnd
  = expandEvent fuel viewStart viewEnd [] e.
Proof.
  unfold expandRecurringEvents. cbn [forEachEvent].
  destruct (expandEvent fuel viewStart viewEnd [] e); reflexivity.
Qed.

Lemma expandRecurringEvents_app fuel l1 l2 viewStart viewEnd :
  expandRecurringEvents fuel (l1 ++ l2) viewStart viewEnd =
  match expandRecurringEvents fuel l1 viewStart viewEnd,
        expandRecurringEvents fuel l2 viewStart viewEnd with
  | Some a, Some b => Some (a ++ b)
  | _, _ => None
  end.
Proof.
  induction l1 as [|e l1 IH].
  - cbn [app]. unfold expandRecurringEvents at 2. cbn.
    destruct (expandRecurringEvents fuel l2 viewStart viewEnd); reflexivity.
  - cbn [app]. rewrite !expandRecurringEvents_cons, IH.
    destruct (expandEvent fuel viewStart viewEnd [] e) as [l|]; [|reflexivity].
    destruct (expandRecurringEvents fuel l1 viewStart viewEnd); [|reflexivity].
    destruct (expandRecurringEvents fuel l2 viewStart viewEnd);
      [now rewrite app_assoc | reflexivity].
Qed.

Lemma expandEvent_fuel_mono fuel fuel' viewStart viewEnd acc event l :
  (fuel <= fuel')%nat ->
  expandEvent fuel viewStart viewEnd acc event = Some l ->
  expandEvent fuel' viewStart viewEnd acc event = Some l.
Proof.
  intros Hle. unfold expandEvent. destruct (repeat event); [|auto].
  now apply expandLoop_fuel_mono.
Qed.

Lemma expandRecurringEvents_fuel_mono fuel fuel' baseEvents viewStart viewEnd :
  (fuel <= fuel')%nat ->
  forall l,
    expandRecurringEvents fuel baseEvents viewStart viewEnd = Some l ->
    expandRecurringEvents fuel' baseEvents viewStart viewEnd = Some l.
Proof.
  intros Hle. induction baseEvents as [|e rest IH]; intros l.
  - auto.
  - rewrite !expandRecurringEvents_cons.
    destruct (expandEvent fuel viewStart viewEnd [] e) as [a|] eqn:Ea;
      [|discriminate].
    rewrite (expandEvent_fuel_mono _ _ _ _ _ _ _ Hle Ea).
    destruct (expandRecurringEvents fuel rest viewStart viewEnd) as [b|];
      [|discriminate].
    now rewrite (IH b eq_refl).
Qed.

(** Every repeat rule of the list has an interval of at least 1. *)
Definition intervalsPositive (baseEvents : list AppEvent) : Prop :=
  forall e r, In e baseEvents -> repeat e = Some r -> 1 <= interval r.

(** Then the expander returns. *)
Lemma expandRecurringEvents_total baseEvents viewStart viewEnd :
  intervalsPositive baseEvents ->
  exists fuel l, expandRecurringEvents fuel baseEvents viewStart viewEnd = Some l.
Proof.
  induction baseEvents as [|e rest IH]; intros Hpos.
  - exists O, []. reflexivity.
  - destruct IH as (n2 & l2 & E2).
    { intros e' r Hin. apply Hpos. now right. }
    assert (E1 : exists n1 l1, expandEvent n1 viewStart viewEnd [] e = Some l1).
    { unfold expandEvent. destruct (repeat e) as [r|] eqn:Er.
      - apply expandLoop_total. apply (Hpos e r); [now left | assumption].
      - exists O. destruct (_ && _); eexists; reflexivity. }
    destruct E1 as (n1 & l1 & E1).
    exists (Nat.max n1 n2), (l1 ++ l2).
    rewrite expandRecurringEvents_cons.
    rewrite (expandEvent_fuel_mono n1 _ _ _ _ _ _ (Nat.le_max_l _ _) E1).
    now rewrite (expandRecurringEvents_fuel_mono n2 _ _ _ _ (Nat.le_max_r _ _) _ E2).
Qed.

(** Where an occurrence of the result comes from: a non-repeating event
    passed through as it is, with its date inside the window, or the
    occurrence of a repeating event at a cursor position inside the
    window. *)
Definition occurrenceWithin (baseEvents : list AppEvent)
    (viewStart viewEnd : Date) (o : AppEvent) : Prop :=
  exists t, inWindow viewStart viewEnd t /\
    ((In o baseEvents /\ repeat o = None
      /\ Date_new (date o ++ "T00:00:00") = Some t)
     \/ (exists e r, In e baseEvents /\ repeat e = Some r
                    /\ o = occurrence e (Some t)
                    /\ date o = toYYYYMMDD (Some t))).

Lemma expandEvent_window fuel viewStart viewEnd event l :
  expandEvent fuel viewStart viewEnd [] event = Some l ->
  forall o, In o l -> occurrenceWithin [event] viewStart viewEnd o.
Proof.
  unfold expandEvent. destruct (repeat event) as [r|] eqn:Er.
  - intros E o Ho.
    destruct (expandLoop_window _ _ _ _ _ _ _ E o Ho) as (t & Hw & ->).
    exists t. split; [assumption|]. right.
    exists event, r. repeat split; auto. now left.
  - destruct (Date_ge _ viewStart) eqn:Hge; cbn [andb].
    + destruct (Date_le _ viewEnd) eqn:Hle; intros E; inversion E; subst;
        intros o Ho; [|destruct Ho].
      destruct Ho as [<- | []].
      apply Date_le_true in Hle. destruct Hle as (x & y & Ex & -> & Hxy).
      apply Date_ge_true in Hge. destruct Hge as (x' & y' & Ex' & -> & Hyx).
      rewrite Ex in Ex'. inversion Ex'; subst x'.
      exists x. split; [exists y', y; auto|]. left. repeat split; auto. now left.
    + intros E; inversion E; subst. intros o [].
Qed.

Lemma occurrenceWithin_incl l l' viewStart viewEnd o :
  incl l l' ->
  occurrenceWithin l viewStart viewEnd o -> occurrenceWithin l' viewStart viewEnd o.
Proof.
  intros Hin (t & Hw & [(Ho & Hr & Hd) | (e & r & He & Hr & Ho)]);
    exists t; (split; [assumption|]).
  - left. auto.
  - right. exists e, r. auto.
Qed.

Lemma expandRecurringEvents_window fuel baseEvents viewStart viewEnd :
  forall l,
    expandRecurringEvents fuel baseEvents viewStart viewEnd = Some l ->
    forall o, In o l -> occurrenceWithin baseEvents viewStart viewEnd o.
Proof.
  induction baseEvents as [|e rest IH]; intros l.
  - intros E; inversion E; subst. intros o [].
  - rewrite expandRecurringEvents_cons.
    destruct (expandEvent fuel viewStart viewEnd [] e) as [a|] eqn:Ea;
      [|discriminate].
    destruct (expandRecurringEvents fuel rest viewStart viewEnd) as [b|];
      [|discriminate].
    intros E; inversion E; subst. intros o Ho.
    apply in_app_or in Ho. destruct Ho as [Ho | Ho].
    + apply (occurrenceWithin_incl [e]); [|eapply expandEvent_window; eauto].
      intros x [<- | []]. now left.
    + apply (occurrenceWithin_incl rest); [|eapply IH; eauto].
      intros x Hx. now right.
Qed.

(** *** Dates as texts

    The cursor of the loop is always the first instant of a local day, so
    the text that [toYYYYMMDD] writes into an occurrence denotes the
    cursor itself. *)

Definition startOfLocalDay (t : Z) : Prop :=
  TimeWithinDay (LocalTime t) = 0 /\ Z.abs t <= maxTime.

Lemma TimeWithinDay_MakeDate day : TimeWithinDay (MakeDate day 0) = 0.
Proof. unfold TimeWithinDay, MakeDate, msPerDay. div_lia. Qed.

Lemma Date_new_startOfLocalDay d t :
  Date_new (d ++ "T00:00:00") = Some t -> startOfLocalDay t.
Proof.
  unfold Date_new.
  destruct (parseDateTime (d ++ "T00:00:00")) as [r|] eqn:Ep; [|discriminate].
  destruct (parseDateTime_midnight d "00:00:00" r Ep) as (day & Em).
  rewrite Ep in Em. inversion Em; subst. intros E.
  apply TimeClip_Some in E. destruct E as [-> Hv]. split; [|exact Hv].
  rewrite LocalTime_UTC. apply TimeWithinDay_MakeDate.
Qed.

Lemma setter_startOfLocalDay day lt t' :
  TimeWithinDay lt = 0 ->
  TimeClip (UTC (MakeDate day (TimeWithinDay lt))) = Some t' ->
  startOfLocalDay t'.
Proof.
  intros Hm E. apply TimeClip_Some in E. destruct E as [-> Hv].
  split; [|exact Hv]. rewrite LocalTime_UTC, Hm. apply TimeWithinDay_MakeDate.
Qed.

Lemma advance_startOfLocalDay r t t' :
  startOfLocalDay t -> advance r (Some t) = Some t' -> startOfLocalDay t'.
Proof.
  intros [Hm _]. unfold advance.
  destruct (frequency r);
    cbn [setDate setMonth setFullYear getDate getMonth getFullYear
         option_map num_add];
    now apply setter_startOfLocalDay.
Qed.

Lemma expandLoop_day_starts fuel event r viewStart viewEnd :
  forall cursorDate l,
    (forall c, cursorDate = Some c -> startOfLocalDay c) ->
    expandLoop fuel event r viewStart viewEnd cursorDate [] = Some l ->
    forall o, In o l ->
      exists t, inWindow viewStart viewEnd t /\ startOfLocalDay t
                /\ o = occurrence event (Some t).
Proof.
  induction fuel as [|fuel IH]; intros c l Hc; rewrite expandLoop_eq.
  - destruct (Date_le c viewEnd); [discriminate|].
    intros E; inversion E; subst. intros o [].
  - destruct (Date_le c viewEnd) eqn:Hle;
      [|intros E; inversion E; subst; intros o []].
    assert (Hnext : forall c', advance r c = Some c' -> startOfLocalDay c').
    { intros c' Ea. apply Date_le_true in Hle.
      destruct Hle as (x & y & -> & _ & _).
      eapply advance_startOfLocalDay; [|exact Ea]. now apply Hc. }
    destruct (Date_ge c viewStart) eqn:Hge.
    + rewrite expandLoop_acc.
      destruct (expandLoop fuel event r viewStart viewEnd (advance r c) [])
        as [l'|] eqn:El; [|discriminate].
      cbn. intros E; inversion E; subst. intros o [Ho | Ho].
      * apply Date_le_true in Hle. destruct Hle as (x & y & -> & -> & Hxy).
        apply Date_ge_true in Hge. destruct Hge as (x' & y' & Ex & -> & Hyx).
        inversion Ex; subst x'. exists x.
        split; [exists y', y; auto|]. split; [now apply Hc | now symmetry].
      * eapply IH; eauto.
    + intros E. eapply IH; eauto.
Qed.

(** Between the years 1000 and 9999 the date of every occurrence, read
    the way the expander itself reads dates, is an instant of the
    window. *)
Lemma expandRecurringEvents_dates fuel baseEvents ws we :
  1000 <= YearFromTime (LocalTime ws) ->
  YearFromTime (LocalTime we) <= 9999 ->
  forall l,
    expandRecurringEvents fuel baseEvents (Some ws) (Some we) = Some l ->
    forall o, In o l ->
      exists t, ws <= t <= we /\ Date_new (date o ++ "T00:00:00") = Some t.
Proof.
  intros Hlo Hhi. induction baseEvents as [|e rest IH]; intros l.
  - intros E; inversion E; subst. intros o [].
  - rewrite expandRecurringEvents_cons.
    destruct (expandEvent fuel (Some ws) (Some we) [] e) as [a|] eqn:Ea;
      [|discriminate].
    destruct (expandRecurringEvents fuel rest (Some ws) (Some we)) as [b|];
      [|discriminate].
    intros E; inversion E; subst. intros o Ho.
    apply in_app_or in Ho. destruct Ho as [Ho | Ho]; [|eapply IH; eauto].
    unfold expandEvent in Ea. destruct (repeat e) as [r|].
    + destruct (expandLoop_day_starts _ _ _ _ _ _ _
                  (fun c => Date_new_startOfLocalDay (date e) c) Ea o Ho)
        as (t & (ws' & we' & Es & Ee & Ht) & [Hm Hv] & ->).
      inversion Es; inversion Ee; subst ws' we'.
      exists t. split; [exact Ht|].
      cbn [occurrence date]. apply Date_new_toYYYYMMDD; [|exact Hm|exact Hv].
      assert (H1 : LocalTime ws <= LocalTime t) by (unfold LocalTime; lia).
      assert (H2 : LocalTime t <= LocalTime we) by (unfold LocalTime; lia).
      apply YearFromTime_mono in H1. apply YearFromTime_mono in H2. lia.
    + destruct (Date_ge _ (Some ws)) eqn:Hge; cbn [andb] in Ea.
      * destruct (Date_le _ (Some we)) eqn:Hle; inversion Ea; subst;
          [|destruct Ho].
        destruct Ho as [<- | []].
        apply Date_le_true in Hle. destruct Hle as (x & y & Ex & Ey & Hxy).
        apply Date_ge_true in Hge. destruct Hge as (x' & y' & Ex' & Ey' & Hyx).
        rewrite Ex in Ex'. inversion Ex'; inversion Ey; inversion Ey'; subst.
        exists x'. split; [lia | exact Ex].
      * inversion Ea; subst. destruct Ho.
Qed.

(** C2 (window containment).  Whenever the expander returns, every
    occurrence of the result has its date inside the window
    [viewStart .. viewEnd]: a non-repeating event is passed through only
    if the date it stores lies in the window, and a generated occurrence
    carries the date of a cursor position that lies in the window.  For a
    window between the years 1000 and 9999, where [toYYYYMMDD] writes
    dates of the format, this reads: the date of every occurrence parses
    to an instant [t] with [viewStart <= t <= viewEnd].  The expander does
    return when every repeat interval is at least 1. *)
Theorem expander_window_containment baseEvents viewStart viewEnd :
  (intervalsPositive baseEvents ->
   exists fuel l,
     expandRecurringEvents fuel baseEvents viewStart viewEnd = Some l)
  /\ (forall fuel l,
        expandRecurringEvents fuel baseEvents viewStart viewEnd = Some l ->
        forall o, In o l -> occurrenceWithin baseEvents viewStart viewEnd o)
  /\ (forall fuel l ws we,
        viewStart = Some ws -> viewEnd = Some we ->
        1000 <= YearFromTime (LocalTime ws) ->
        YearFromTime (LocalTime we) <= 9999 ->
        expandRecurringEvents fuel baseEvents viewStart viewEnd = Some l ->
        forall o, In o l ->
          exists t, ws <= t <= we
                    /\ Date_new (date o ++ "T00:00:00") = Some t).
Proof.
  split; [|split].
  - apply expandRecurringEvents_total.
  - intros fuel. apply expandRecurringEvents_window.
  - intros fuel l ws we -> -> Hlo Hhi. now apply expandRecurringEvents_dates.
Qed.


(** *** Unparsable anchors *)

Lemma expandEvent_invalid_date fuel viewStart viewEnd acc event :
  Date_new (date event ++ "T00:00:00") = None ->
  expandEvent fuel viewStart viewEnd acc event = Some acc.
Proof.
  intros Hd. unfold expandEvent. rewrite Hd.
  destruct (repeat event); [|destruct viewStart; reflexivity].
  rewrite expandLoop_eq. reflexivity.
Qed.

Lemma expandRecurringEvents_skip fuel l1 event l2 viewStart viewEnd :
  expandEvent fuel viewStart viewEnd [] event = Some [] ->
  expandRecurringEvents fuel (l1 ++ event :: l2) viewStart viewEnd
  = expandRecurringEvents fuel (l1 ++ l2) viewStart viewEnd.
Proof.
  intros E. rewrite !expandRecurringEvents_app, expandRecurringEvents_cons, E.
  destruct (expandRecurringEvents fuel l2 viewStart viewEnd); reflexivity.
Qed.

(** *** Daily events *)

(** The instants [t], [t + 1 day], ..., [n] of them. *)
Definition dailyFrom (t : Z) (n : nat) : list Z :=
  map (fun k => t + Z.of_nat k * msPerDay) (seq 0 n).

Lemma dailyFrom_succ t n :
  dailyFrom t (S n) = t :: dailyFrom (t + msPerDay) n.
Proof.
  unfold dailyFrom. cbn [seq map]. f_equal; [lia|].
  rewrite <- seq_shift, map_map. apply map_ext. intros k. lia.
Qed.

Lemma dailyFrom_length t n : List.length (dailyFrom t n) = n.
Proof. unfold dailyFrom. now rewrite length_map, length_seq. Qed.

Lemma dailyFrom_lower t n x : In x (dailyFrom t n) -> t <= x.
Proof.
  unfold dailyFrom. rewrite in_map_iff. intros (k & <- & _).
  unfold msPerDay. lia.
Qed.

Lemma dailyFrom_increasing t n : StronglySorted Z.lt (dailyFrom t n).
Proof.
  revert t. induction n as [|n IH]; intros t.
  - constructor.
  - rewrite dailyFrom_succ. constructor; [apply IH|].
    apply Forall_forall. intros x Hx. apply dailyFrom_lower in Hx.
    unfold msPerDay in *. lia.
Qed.

Section Daily.
Variables (event : AppEvent) (r : EventRepeat) (ws we : Z).
Hypothesis Hfreq : frequency r = daily.
Hypothesis Hint : interval r = 1.
Hypothesis Hwe : Z.abs we <= maxTime.

Lemma advance_daily t : advance r (Some t) = TimeClip (t + msPerDay).
Proof.
  unfold advance. rewrite Hfreq, Hint, setDate_add. f_equal; lia.
Qed.

(** From a cursor inside the window: one occurrence per remaining day. *)
Lemma daily_loop_inside (n : nat) : forall fuel c acc,
  (n <= fuel)%nat ->
  ws <= c -> - maxTime <= c ->
  c + (Z.of_nat n - 1) * msPerDay <= we < c + Z.of_nat n * msPerDay ->
  expandLoop fuel event r (Some ws) (Some we) (Some c) acc
  = Some (acc ++ map (fun t => occurrence event (Some t)) (dailyFrom c n)).
Proof using Hfreq Hint Hwe.
  induction n as [|n IH]; intros fuel c acc Hfuel Hws Hc Hn;
    rewrite expandLoop_eq, Date_le_Some.
  - destruct (Z.leb_spec c we); [lia|]. cbn. now rewrite app_nil_r.
  - destruct (Z.leb_spec c we); [|unfold msPerDay in *; lia].
    destruct fuel as [|fuel]; [lia|].
    rewrite Date_ge_Some. destruct (Z.leb_spec ws c); [|lia].
    rewrite advance_daily, dailyFrom_succ. cbn [map].
    unfold TimeClip. destruct (Z.leb_spec (Z.abs (c + msPerDay)) maxTime).
    + rewrite (IH fuel (c + msPerDay)); try (unfold msPerDay in *; lia).
      now rewrite <- app_assoc.
    + assert (n = O) by (unfold msPerDay in *; lia). subst n.
      rewrite expandLoop_eq. reflexivity.
Qed.

(** From a cursor [j] days before the window: skip [j] days first. *)
Lemma daily_loop_before (n j : nat) : forall fuel c acc,
  (j + n <= fuel)%nat ->
  ws <= we -> - maxTime <= c ->
  c + Z.of_nat j * msPerDay = ws ->
  ws + (Z.of_nat n - 1) * msPerDay <= we < ws + Z.of_nat n * msPerDay ->
  expandLoop fuel event r (Some ws) (Some we) (Some c) acc
  = Some (acc ++ map (fun t => occurrence event (Some t)) (dailyFrom ws n)).
Proof using Hfreq Hint Hwe.
  induction j as [|j IH]; intros fuel c acc Hfuel Hle Hc Hj Hn.
  - assert (c = ws) by lia. subst c.
    apply daily_loop_inside; auto; lia.
  - rewrite expandLoop_eq, Date_le_Some.
    destruct (Z.leb_spec c we); [|unfold msPerDay in *; lia].
    destruct fuel as [|fuel]; [lia|].
    rewrite Date_ge_Some. destruct (Z.leb_spec ws c); [unfold msPerDay in *; lia|].
    rewrite advance_daily, TimeClip_valid by (unfold msPerDay in *; lia).
    apply IH; unfold msPerDay in *; lia.
Qed.

End Daily.

(** The date of [a], read the way the expander reads dates, is an earlier
    instant than the date of [b]. *)
Definition dateBefore (a b : AppEvent) : Prop :=
  exists ta tb,
    Date_new (date a ++ "T00:00:00") = Some ta
    /\ Date_new (date b ++ "T00:00:00") = Some tb
    /\ ta < tb.

Lemma dailyFrom_nth t n k :
  (k < n)%nat -> nth_error (dailyFrom t n) k = Some (t + Z.of_nat k * msPerDay).
Proof.
  intros Hk. unfold dailyFrom.
  rewrite nth_error_map, (nth_error_nth' _ 0%nat) by (now rewrite length_seq).
  rewrite seq_nth by exact Hk. reflexivity.
Qed.

Lemma Day_days_later t k :
  Day (LocalTime (t + k * msPerDay)) = Day (LocalTime t) + k.
Proof. unfold Day, LocalTime, msPerDay. div_lia. Qed.

Lemma TimeWithinDay_days_later t k :
  TimeWithinDay (LocalTime (t + k * msPerDay)) = TimeWithinDay (LocalTime t).
Proof. unfold TimeWithinDay, LocalTime, msPerDay. div_lia. Qed.

(** Occurrences made at increasing day starts carry increasing dates. *)
Lemma occurrences_dateBefore event ts :
  StronglySorted Z.lt ts ->
  (forall t, In t ts -> Date_new (toYYYYMMDD (Some t) ++ "T00:00:00") = Some t) ->
  StronglySorted dateBefore (map (fun t => occurrence event (Some t)) ts).
Proof.
  induction 1 as [|t ts Hs IH Hall]; intros Hp; cbn [map]; constructor.
  - apply IH. intros u Hu. apply Hp. now right.
  - apply Forall_forall. intros o Ho. apply in_map_iff in Ho.
    destruct Ho as (u & <- & Hu).
    exists t, u. cbn [date occurrence].
    split; [apply Hp; now left|]. split; [apply Hp; now right|].
    rewrite Forall_forall in Hall. now apply Hall.
Qed.

Lemma dateBefore_NoDup l :
  StronglySorted dateBefore l -> NoDup (map date l).
Proof.
  induction 1 as [|a l Hs IH Hall]; cbn [map]; constructor; [|exact IH].
  intros Hin. apply in_map_iff in Hin. destruct Hin as (b & Eb & Hb).
  rewrite Forall_forall in Hall.
  destruct (Hall b Hb) as (ta & tb & Ea & Eb' & Hlt).
  rewrite Eb in Eb'. rewrite Ea in Eb'. inversion Eb'. lia.
Qed.

(** C7 (recurrence coverage).  A daily event with interval 1 whose first
    day starts at the instant [D], expanded over the [N] consecutive days
    that begin [j] days after [D] (the window runs from the first instant
    of its first day to some instant of its last day), gives exactly [N]
    occurrences, one per day of the window: the occurrence number [k] is
    dated [toYYYYMMDD] of the day [k] days after the start of the window,
    which is local day number [Day (LocalTime ws) + k], and its id ends in
    that date.  Between the years 1000 and 9999 the dates are strictly
    increasing when read the way the expander reads dates, they are
    pairwise different texts, and the date number [k] reads as the start
    of the day [k] days after the day of the window's start. *)
Theorem daily_recurrence_coverage event r D (j N : nat) ws we :
  repeat event = Some r ->
  frequency r = daily ->
  interval r = 1 ->
  Date_new (date event ++ "T00:00:00") = Some D ->
  ws = D + Z.of_nat j * msPerDay ->
  (1 <= N)%nat ->
  ws + (Z.of_nat N - 1) * msPerDay <= we < ws + Z.of_nat N * msPerDay ->
  Z.abs we <= maxTime ->
  (forall fuel, (j + N <= fuel)%nat ->
     expandRecurringEvents fuel [event] (Some ws) (Some we)
     = Some (map (fun t => occurrence event (Some t)) (dailyFrom ws N)))
  /\ List.length (dailyFrom ws N) = N
  /\ StronglySorted Z.lt (dailyFrom ws N)
  /\ (forall t, In t (dailyFrom ws N) -> ws <= t <= we)
  /\ List.length (map (fun t => occurrence event (Some t)) (dailyFrom ws N)) = N
  /\ (forall k, (k < N)%nat ->
        exists o,
          nth_error (map (fun t => occurrence event (Some t)) (dailyFrom ws N)) k
          = Some o
          /\ date o = toYYYYMMDD (Some (ws + Z.of_nat k * msPerDay))
          /\ id o = (id event ++ "_" ++ date o)%string
          /\ Day (LocalTime (ws + Z.of_nat k * msPerDay))
             = Day (LocalTime ws) + Z.of_nat k)
  /\ (1000 <= YearFromTime (LocalTime ws) ->
      YearFromTime (LocalTime we) <= 9999 ->
      StronglySorted dateBefore
        (map (fun t => occurrence event (Some t)) (dailyFrom ws N))
      /\ NoDup (map date
                  (map (fun t => occurrence event (Some t)) (dailyFrom ws N)))
      /\ forall k, (k < N)%nat ->
           exists o,
             nth_error (map (fun t => occurrence event (Some t))
                            (dailyFrom ws N)) k
             = Some o
             /\ Date_new (date o ++ "T00:00:00")
                = Some (ws - TimeWithinDay (LocalTime ws)
                        + Z.of_nat k * msPerDay)).
Proof.
  intros Hr Hf Hi HD Hws HN Hwin Hwe.
  assert (Hin : forall t, In t (dailyFrom ws N) -> ws <= t <= we).
  { intros t Ht. unfold dailyFrom in Ht. rewrite in_map_iff in Ht.
    destruct Ht as (k & <- & Hk). apply in_seq in Hk.
    unfold msPerDay in *. lia. }
  assert (Hnth : forall k, (k < N)%nat ->
            nth_error (map (fun t => occurrence event (Some t)) (dailyFrom ws N)) k
            = Some (occurrence event (Some (ws + Z.of_nat k * msPerDay)))).
  { intros k Hk. now rewrite nth_error_map, dailyFrom_nth. }
  split; [|split; [apply dailyFrom_length|split; [apply dailyFrom_increasing|]]].
  - intros fuel Hfuel.
    rewrite expandRecurringEvents_single. unfold expandEvent. rewrite Hr, HD.
    assert (HDv : Z.abs D <= maxTime)
      by (unfold Date_new in HD; destruct (parseDateTime _) as [[[] t]|];
          try discriminate; apply TimeClip_Some in HD; destruct HD; subst;
          assumption).
    rewrite (daily_loop_before event r ws we Hf Hi Hwe N j);
      try (unfold msPerDay in *; lia).
    reflexivity.
  - split; [exact Hin|]. split; [now rewrite length_map, dailyFrom_length|].
    split.
    + intros k Hk. eexists. split; [apply Hnth; exact Hk|].
      split; [reflexivity|]. split; [reflexivity|]. apply Day_days_later.
    + intros Hlo Hhi.
      destruct (Date_new_startOfLocalDay _ _ HD) as [HDm HDv].
      assert (Hwm : TimeWithinDay (LocalTime ws) = 0)
        by (rewrite Hws, TimeWithinDay_days_later; exact HDm).
      assert (Hback : forall t, In t (dailyFrom ws N) ->
                Date_new (toYYYYMMDD (Some t) ++ "T00:00:00") = Some t).
      { intros t Ht. pose proof (Hin t Ht) as Hb.
        unfold dailyFrom in Ht. rewrite in_map_iff in Ht.
        destruct Ht as (k & Et & Hk).
        apply Date_new_toYYYYMMDD.
        - assert (H1 : LocalTime ws <= LocalTime t) by (unfold LocalTime; lia).
          assert (H2 : LocalTime t <= LocalTime we) by (unfold LocalTime; lia).
          apply YearFromTime_mono in H1. apply YearFromTime_mono in H2. lia.
        - rewrite <- Et, TimeWithinDay_days_later. exact Hwm.
        - unfold msPerDay in *. lia. }
      split; [|split].
      * apply occurrences_dateBefore; [apply dailyFrom_increasing|exact Hback].
      * apply dateBefore_NoDup.
        apply occurrences_dateBefore; [apply dailyFrom_increasing|exact Hback].
      * intros k Hk. eexists. split; [apply Hnth; exact Hk|].
        cbn [date occurrence]. rewrite Hwm, Z.sub_0_r.
        apply Hback. unfold dailyFrom. apply in_map_iff.
        exists k. split; [reflexivity|]. apply in_seq. lia.
Qed.

End ExpanderFacts.

(* ================================================================== *)
(** ** The due-alert scan *)
(* ================================================================== *)

Section ScanFacts.
Context `{HostTimeZone}.

(** The instant at which the event starts, as the scan reads it. *)
Definition eventTimeOf (event : AppEvent) : Date :=
  Date_new (date event ++ "T" ++ startTime event).

(** The three ways in which the scan passes over an event. *)
Lemma checkEvent_no_alerts now event :
  alerts event = None \/ alerts event = Some [] -> checkEvent now event = [].
Proof. unfold checkEvent. intros [-> | ->]; reflexivity. Qed.

Lemma checkEvent_completed now event :
  isCompleted event = Some true -> checkEvent now event = [].
Proof.
  intros Hc. unfold checkEvent. destruct (alerts event); [|reflexivity].
  rewrite Hc. cbn [truthy]. now rewrite orb_true_r.
Qed.

Lemma checkEvent_invalid_date now event :
  eventTimeOf event = None -> checkEvent now event = [].
Proof.
  unfold eventTimeOf. intros Hd. unfold checkEvent.
  destruct (alerts event); [|reflexivity].
  destruct (_ || _); [reflexivity|]. now rewrite Hd.
Qed.

(** Otherwise every alert of the event is tested, in order. *)
Lemma checkEvent_scanned now event eventAlerts T :
  alerts event = Some eventAlerts ->
  truthy (isCompleted event) = false ->
  eventTimeOf event = Some T ->
  checkEvent now event = flat_map (checkAlert now event (Some T)) eventAlerts.
Proof.
  unfold eventTimeOf. intros Ha Hc Hd. unfold checkEvent. rewrite Ha, Hc, Hd.
  destruct eventAlerts; reflexivity.
Qed.

(** The test of one alert, in terms of its notification instant. *)
Lemma alertDue_iff now eventTime alert :
  alertDue now eventTime alert = true <->
  exists N, notificationTimeOf eventTime alert = Some N /\ 0 <= now - N < 60000.
Proof.
  unfold alertDue, getTime.
  destruct (notificationTimeOf eventTime alert) as [N|]; cbn.
  - rewrite andb_true_iff, Z.leb_le, Z.ltb_lt. split.
    + intros Hd. exists N. auto.
    + intros (N' & E & Hd). inversion E; subst. assumption.
  - split; [discriminate | intros (N & E & _); discriminate].
Qed.

Lemma checkAlert_fires now event eventTime alert :
  checkAlert now event eventTime alert = [alertNotification event alert] <->
  alertDue now eventTime alert = true.
Proof.
  unfold checkAlert. destruct (alertDue now eventTime alert); split;
    auto; discriminate.
Qed.

Lemma checkAlert_silent now event eventTime alert :
  checkAlert now event eventTime alert = [] <->
  alertDue now eventTime alert = false.
Proof.
  unfold checkAlert. destruct (alertDue now eventTime alert); split;
    auto; discriminate.
Qed.

(** Every notification of a scan is the notification of one of the
    event's alerts, due with respect to the start instant that the event
    itself stores. *)
Lemma checkEvent_In now event n :
  In n (checkEvent now event) ->
  exists eventAlerts alert T N,
    alerts event = Some eventAlerts /\ In alert eventAlerts
    /\ eventTimeOf event = Some T
    /\ notificationTimeOf (Some T) alert = Some N
    /\ 0 <= now - N < 60000
    /\ n = alertNotification event alert.
Proof.
  unfold checkEvent, eventTimeOf.
  destruct (alerts event) as [l|]; [|intros []].
  destruct (_ || _); [intros []|].
  destruct (Date_new _) as [T|]; cbn [isNaN getTime]; [|intros []].
  rewrite in_flat_map. intros (a & Ha & Hn).
  unfold checkAlert in Hn. destruct (alertDue now (Some T) a) eqn:Hd; [|destruct Hn].
  destruct Hn as [<- | []].
  apply alertDue_iff in Hd. destruct Hd as (N & EN & HN).
  exists l, a, T, N. repeat split; auto; lia.
Qed.

(** The lead of an alert whose unit has a fixed length. *)
Definition fixedLead (alert : AppEventAlert) : option Z :=
  match unit alert with
  | minutes => Some (value alert * msPerMinute)
  | hours => Some (value alert * msPerHour)
  | days => Some (value alert * msPerDay)
  | weeks => Some (value alert * 7 * msPerDay)
  | months | years => None
  end.

Lemma notificationTimeOf_fixed T alert L :
  fixedLead alert = Some L ->
  notificationTimeOf (Some T) alert = TimeClip (T - L).
Proof.
  unfold fixedLead, notificationTimeOf.
  destruct (unit alert); intros E; inversion E; subst.
  - apply setMinutes_sub.
  - apply setHours_sub.
  - apply setDate_sub.
  - now rewrite setDate_sub.
Qed.

(** The same event with another [isAllDay] flag, or another repeat rule. *)
Definition withAllDay (event : AppEvent) (flag : option bool) : AppEvent :=
  {| id := id event;
     calendarId := calendarId event;
     title := title event;
     date := date event;
     startTime := startTime event;
     description := description event;
     alerts := alerts event;
     isCompleted := isCompleted event;
     location := location event;
     isAllDay := flag;
     repeat := repeat event |}.

Definition withRepeat (event : AppEvent) (rule : option EventRepeat) : AppEvent :=
  {| id := id event;
     calendarId := calendarId event;
     title := title event;
     date := date event;
     startTime := startTime event;
     description := description event;
     alerts := alerts event;
     isCompleted := isCompleted event;
     location := location event;
     isAllDay := isAllDay event;
     repeat := rule |}.

Lemma checkEvents_app now l1 l2 :
  checkEvents now (l1 ++ l2) = checkEvents now l1 ++ checkEvents now l2.
Proof. unfold checkEvents. apply flat_map_app. Qed.

Lemma checkEvents_skip now l1 event l2 :
  checkEvent now event = [] ->
  checkEvents now (l1 ++ event :: l2) = checkEvents now (l1 ++ l2).
Proof.
  intros E. rewrite !checkEvents_app. unfold checkEvents at 2.
  cbn [flat_map]. now rewrite E.
Qed.

(** C1, as amended.  The scan does not look at [isAllDay]: an all-day
    event is scanned exactly as the same event with any other value of
    the flag.  When it has alerts, is not completed and its date and start
    time parse to the instant [T], each of its alerts is tested against
    [T]; it is passed over only for the reasons any event is. *)
Theorem allday_event_scanned_like_any now event :
  (forall flag, checkEvent now (withAllDay event flag) = checkEvent now event)
  /\ (forall eventAlerts T,
        isAllDay event = Some true ->
        alerts event = Some eventAlerts ->
        truthy (isCompleted event) = false ->
        eventTimeOf event = Some T ->
        checkEvent now event
        = flat_map (checkAlert now event (Some T)) eventAlerts).
Proof.
  split.
  - reflexivity.
  - intros eventAlerts T _ Ha Hc Hd. eapply checkEvent_scanned; eauto.
Qed.

(** C3 (due window).  For an event that is not completed and starts at
    [T], the scan tests each of its alerts, and an alert fires exactly
    when [now] lies in the half-open minute that starts at the alert's
    notification instant.  For a lead [L] of fixed length (minutes, hours,
    days, weeks) that instant is [T - L], so the alert fires iff
    [0 <= now - (T - L) < 60000]. *)
Theorem alert_due_window now event eventAlerts alert T :
  alerts event = Some eventAlerts ->
  In alert eventAlerts ->
  truthy (isCompleted event) = false ->
  eventTimeOf event = Some T ->
  checkEvent now event = flat_map (checkAlert now event (Some T)) eventAlerts
  /\ (checkAlert now event (Some T) alert = [alertNotification event alert]
      \/ checkAlert now event (Some T) alert = [])
  /\ (checkAlert now event (Some T) alert = [alertNotification event alert]
      <-> exists N, notificationTimeOf (Some T) alert = Some N
                    /\ 0 <= now - N < 60000)
  /\ (forall L, fixedLead alert = Some L -> Z.abs (T - L) <= maxTime ->
        (checkAlert now event (Some T) alert = [alertNotification event alert]
         <-> 0 <= now - (T - L) < 60000)).
Proof.
  intros Ha Hin Hc Hd. split; [|split; [|split]].
  - eapply checkEvent_scanned; eauto.
  - unfold checkAlert. destruct (alertDue now (Some T) alert); auto.
  - rewrite checkAlert_fires. apply alertDue_iff.
  - intros L HL Hv. rewrite checkAlert_fires, alertDue_iff.
    rewrite (notificationTimeOf_fixed _ _ _ HL), (TimeClip_valid _ Hv).
    split.
    + intros (N & E & HN). inversion E; subst. assumption.
    + intros HN. eauto.
Qed.

(** C8 (completed events).  A completed event contributes nothing to a
    pass, whatever its alerts and whatever the time; the pass is the one
    that the list without the event would give. *)
Theorem completed_event_fires_nothing now event :
  isCompleted event = Some true ->
  checkEvent now event = []
  /\ forall l1 l2,
       checkEvents now (l1 ++ event :: l2) = checkEvents now (l1 ++ l2).
Proof.
  intros Hc. pose proof (checkEvent_completed now event Hc) as E.
  split; [exact E|]. intros l1 l2. now apply checkEvents_skip.
Qed.

(** C10 (no recurrence in the scan).  The scan never reads the repeat
    rule: it starts from the date and start time that the event stores.
    Whatever fires is therefore an alert in its minute before that one
    start instant, and at the corresponding minute before any later
    occurrence (one starting at [T' >= T + 60000]) the alert is silent. *)
Theorem scan_ignores_recurrence now event :
  (forall rule, checkEvent now (withRepeat event rule) = checkEvent now event)
  /\ (forall n, In n (checkEvent now event) ->
        exists eventAlerts alert T N,
          alerts event = Some eventAlerts /\ In alert eventAlerts
          /\ eventTimeOf event = Some T
          /\ notificationTimeOf (Some T) alert = Some N
          /\ 0 <= now - N < 60000
          /\ n = alertNotification event alert)
  /\ (forall alert L T T',
        eventTimeOf event = Some T ->
        fixedLead alert = Some L ->
        T + 60000 <= T' ->
        0 <= now - (T' - L) < 60000 ->
        checkAlert now event (Some T) alert = []).
Proof.
  split; [|split].
  - reflexivity.
  - apply checkEvent_In.
  - intros alert L T T' Hd HL HT Hnow.
    apply checkAlert_silent. apply not_true_is_false. intros Hdue.
    apply alertDue_iff in Hdue. destruct Hdue as (N & E & HN).
    rewrite (notificationTimeOf_fixed _ _ _ HL) in E.
    apply TimeClip_Some in E. lia.
Qed.

End ScanFacts.

(* ================================================================== *)
(** ** The scheduler *)
(* ================================================================== *)

Section SchedulerFacts.
Context `{HostTimeZone}.

(** What holds of the worker and the host's timer table at all times:
    handles are positive and below the next one to be handed out, no two
    pending timers share a handle, and a pending timer of the polling loop
    is the one whose handle the worker remembers. *)
Record consistent (w : Worker) : Prop := {
  next_positive : (1 <= nextTimerId w)%nat;
  handles_bounded :
    forall t, In t (timers w) -> (1 <= timer_id t < nextTimerId w)%nat;
  handles_distinct : NoDup (map timer_id (timers w));
  polling_remembered :
    forall t, In t (timers w) -> isCheckTimer t = true ->
              notificationCheckTimeout w = Some (timer_id t)
}.

Lemma In_clearTimeout handle pending t :
  In t (clearTimeout handle pending) <-> In t pending /\ timer_id t <> handle.
Proof.
  unfold clearTimeout. rewrite filter_In, negb_true_iff, Nat.eqb_neq. tauto.
Qed.

Lemma NoDup_clearTimeout handle pending :
  NoDup (map timer_id pending) ->
  NoDup (map timer_id (clearTimeout handle pending)).
Proof.
  induction pending as [|t pending IH]; cbn; intros Hnd; [constructor|].
  inversion Hnd as [|x l Hx Hl]; subst.
  destruct (negb (timer_id t =? handle)%nat); [|auto].
  cbn. constructor; [|auto].
  rewrite in_map_iff in *. intros (t' & E & Ht').
  apply In_clearTimeout in Ht'. apply Hx. exists t'. tauto.
Qed.

Lemma NoDup_map_snoc (pending : list Timer) t :
  NoDup (map timer_id pending) ->
  (forall t', In t' pending -> timer_id t' <> timer_id t) ->
  NoDup (map timer_id (pending ++ [t])).
Proof.
  intros Hnd Hfresh. rewrite map_app. cbn.
  apply NoDup_app; [assumption | repeat constructor; intros [] |].
  intros x Hx [<- | []]. rewrite in_map_iff in Hx.
  destruct Hx as (t' & E & Ht'). now apply (Hfresh t').
Qed.

Lemma consistent_initial : consistent initialWorker.
Proof.
  constructor; cbn; try lia; try constructor; intros t [].
Qed.

(** After a pass the only pending timer of the polling loop is the one
    the pass has just set. *)
Lemma pollingTimers_after_pass now w :
  consistent w ->
  pollingTimers (checkEventsForNotifications now w)
  = [ {| timer_id := nextTimerId w; timer_delay := 60000;
         timer_callback := CheckEvents |} ].
Proof.
  intros [Hpos Hb Hnd Hrem].
  unfold pollingTimers, checkEventsForNotifications. cbn [timers].
  rewrite filter_app. cbn.
  match goal with |- ?l ++ _ = _ => assert (E : l = []); [|now rewrite E] end.
  assert (Hnone : forall (l : list Timer),
             (forall t, In t l -> isCheckTimer t = false) ->
             filter isCheckTimer l = []).
  { induction l as [|t l IH]; cbn; intros Hl; [reflexivity|].
    rewrite (Hl t) by now left. apply IH. intros t' Ht'. apply Hl. now right. }
  apply Hnone. intros t Ht.
  destruct (isCheckTimer t) eqn:Ec; [exfalso | reflexivity].
  destruct (notificationCheckTimeout w) as [[|h]|] eqn:Eh.
  - specialize (Hrem t Ht Ec). specialize (Hb t Ht).
    inversion Hrem as [E0]. lia.
  - apply In_clearTimeout in Ht. destruct Ht as [Ht Hne].
    specialize (Hrem t Ht Ec). inversion Hrem as [E0]. congruence.
  - specialize (Hrem t Ht Ec). congruence.
Qed.

Lemma consistent_pass now w :
  consistent w -> consistent (checkEventsForNotifications now w).
Proof.
  intros Hw. pose proof (pollingTimers_after_pass now w Hw) as Hp.
  destruct Hw as [Hpos Hb Hnd Hrem].
  assert (Hsub : forall t,
             In t (match notificationCheckTimeout w with
                   | Some (S h) => clearTimeout (S h) (timers w)
                   | _ => timers w
                   end) -> In t (timers w)).
  { intros t. destruct (notificationCheckTimeout w) as [[|h]|]; auto.
    rewrite In_clearTimeout. tauto. }
  constructor; cbn [checkEventsForNotifications nextTimerId timers
                    notificationCheckTimeout].
  - lia.
  - intros t Ht. apply in_app_or in Ht. destruct Ht as [Ht | [<- | []]].
    + specialize (Hb t (Hsub t Ht)). lia.
    + cbn. lia.
  - apply NoDup_map_snoc.
    + destruct (notificationCheckTimeout w) as [[|h]|]; auto.
      now apply NoDup_clearTimeout.
    + intros t Ht. specialize (Hb t (Hsub t Ht)). cbn. lia.
  - intros t Ht Hc.
    assert (Hin : In t (pollingTimers (checkEventsForNotifications now w))).
    { unfold pollingTimers. apply filter_In. split; [exact Ht | exact Hc]. }
    rewrite Hp in Hin. destruct Hin as [<- | []]. reflexivity.
Qed.

(** Replacing the stored list does not disturb the timers. *)
Definition withEvents (w : Worker) (events : list AppEvent) : Worker :=
  {| scheduledEvents := events;
     notificationCheckTimeout := notificationCheckTimeout w;
     timers := timers w;
     nextTimerId := nextTimerId w;
     calls := calls w;
     passes := passes w |}.

Lemma consistent_withEvents w events :
  consistent w -> consistent (withEvents w events).
Proof. intros [Hpos Hb Hnd Hrem]. constructor; assumption. Qed.


Lemma consistent_step w i w' :
  consistent w -> step w i = Some w' -> consistent w'.
Proof.
  intros Hw. destruct i as [now msg | now handle | act n clientList]; cbn [step].
  - intros E; inversion E; subst; clear E.
    destruct msg as [[events|]|]; cbn [onMessage]; try assumption.
    apply consistent_pass. now apply consistent_withEvents.
  - unfold onTimer.
    destruct (find _ (timers w)) as [t|] eqn:Ef; [|discriminate].
    intros E; inversion E; subst; clear E.
    assert (Hw1 : consistent
              {| scheduledEvents := scheduledEvents w;
                 notificationCheckTimeout := notificationCheckTimeout w;
                 timers := clearTimeout handle (timers w);
                 nextTimerId := nextTimerId w;
                 calls := calls w;
                 passes := passes w |}).
    { destruct Hw as [Hpos Hb Hnd Hrem]. constructor; cbn.
      - assumption.
      - intros t' Ht'. apply In_clearTimeout in Ht'. apply Hb. tauto.
      - now apply NoDup_clearTimeout.
      - intros t' Ht'. apply In_clearTimeout in Ht'. apply Hrem. tauto. }
    destruct (timer_callback t); cbn [runCallback].
    + now apply consistent_pass.
    + destruct Hw1 as [Hpos Hb Hnd Hrem]. constructor; assumption.
  - intros E; inversion E; subst; clear E.
    destruct Hw as [Hpos Hb Hnd Hrem].
    unfold onNotificationClick.
    destruct (String.eqb act "snooze"); [|constructor; assumption].
    destruct (orZero (snoozeCount (data n)) + 1 <=? 2);
      [|constructor; assumption].
    constructor; cbn.
    + lia.
    + intros t Ht. apply in_app_or in Ht. destruct Ht as [Ht | [<- | []]].
      * specialize (Hb t Ht). lia.
      * cbn. lia.
    + apply NoDup_map_snoc; [assumption|].
      intros t Ht. specialize (Hb t Ht). cbn. lia.
    + intros t Ht Hc. apply in_app_or in Ht. destruct Ht as [Ht | [<- | []]].
      * now apply Hrem.
      * discriminate.
Qed.



(** Inputs that do not replace the stored list. *)
Definition replacesList (i : Input) : bool :=
  match i with
  | Message _ (Some (SYNC_EVENTS _)) => true
  | _ => false
  end.




(** What a click on the snooze action does to the timer table. *)
Lemma snooze_click n clientList w :
  let count := snoozeCount (data n) + 1 in
  let w' := onNotificationClick "snooze" n clientList w in
  (count <= 2 ->
   timers w' = timers w ++ [ {| timer_id := nextTimerId w;
                                timer_delay := 300000;
                                timer_callback := ShowSnoozed n count |} ])
  /\ (2 < count -> timers w' = timers w /\ nextTimerId w' = nextTimerId w).
Proof.
  cbn zeta. unfold onNotificationClick. cbn [String.eqb Ascii.eqb Bool.eqb].
  assert (E : orZero (snoozeCount (data n)) = snoozeCount (data n)).
  { unfold orZero. destruct (Z.eqb_spec (snoozeCount (data n)) 0); congruence. }
  rewrite E. cbn [timers nextTimerId].
  destruct (Z.leb_spec (snoozeCount (data n) + 1) 2); split; intros; try lia; auto.
Qed.

Lemma delivered_not_snoozed now events n :
  In n (checkEvents now events) -> snoozeCount (data n) = 0.
Proof.
  unfold checkEvents. rewrite in_flat_map. intros (e & _ & Hn).
  apply checkEvent_In in Hn.
  destruct Hn as (l & a & T & N & _ & _ & _ & _ & _ & ->). reflexivity.
Qed.

(** C6 (snooze, at most twice).  Let [n0] be a notification delivered by
    a pass.  Snoozing it sets a timer of five minutes that shows [n1]: the
    same notification with snooze count 1 and the tag extended by
    [-snooze-1].  Snoozing [n1] does the same with count 2 and
    [-snooze-2].  Snoozing that one sets no timer at all. *)
Theorem snooze_twice_then_dropped now events n0 :
  In n0 (checkEvents now events) ->
  let n1 := snoozedNotification n0 1 in
  let n2 := snoozedNotification n1 2 in
  (forall w clientList,
     timers (onNotificationClick "snooze" n0 clientList w)
     = timers w ++ [ {| timer_id := nextTimerId w;
                        timer_delay := 5 * 60 * 1000;
                        timer_callback := ShowSnoozed n0 1 |} ])
  /\ (forall w now',
        calls (runCallback now' (ShowSnoozed n0 1) w)
        = calls w ++ [ShowNotification n1])
  /\ snoozeCount (data n1) = 1
  /\ tag n1 = (tag n0 ++ "-snooze-1")%string
  /\ (forall w clientList,
        timers (onNotificationClick "snooze" n1 clientList w)
        = timers w ++ [ {| timer_id := nextTimerId w;
                           timer_delay := 5 * 60 * 1000;
                           timer_callback := ShowSnoozed n1 2 |} ])
  /\ (forall w now',
        calls (runCallback now' (ShowSnoozed n1 2) w)
        = calls w ++ [ShowNotification n2])
  /\ snoozeCount (data n2) = 2
  /\ tag n2 = (tag n1 ++ "-snooze-2")%string
  /\ (forall w clientList,
        timers (onNotificationClick "snooze" n2 clientList w) = timers w).
Proof.
  intros Hd n1 n2. pose proof (delivered_not_snoozed _ _ _ Hd) as E0.
  split; [|repeat split].
  intros w cl. destruct (snooze_click n0 cl w) as [Hs _].
  rewrite E0 in Hs. apply Hs. lia.
Qed.

End SchedulerFacts.

(* ================================================================== *)
(** ** Malformed records *)
(* ================================================================== *)

(** The same event with another start time. *)
Definition withStartTime (event : AppEvent) (time : string) : AppEvent :=
  {| id := id event;
     calendarId := calendarId event;
     title := title event;
     date := date event;
     startTime := time;
     description := description event;
     alerts := alerts event;
     isCompleted := isCompleted event;
     location := location event;
     isAllDay := isAllDay event;
     repeat := repeat event |}.

Section Malformed.
Context `{HostTimeZone}.

(** The loop copies the start time and never reads it. *)
Lemma expandLoop_startTime time fuel event r viewStart viewEnd :
  forall cursorDate acc,
    expandLoop fuel (withStartTime event time) r viewStart viewEnd cursorDate
      (map (fun o => withStartTime o time) acc)
    = option_map (map (fun o => withStartTime o time))
        (expandLoop fuel event r viewStart viewEnd cursorDate acc).
Proof.
  induction fuel as [|fuel IH]; intros c acc;
    rewrite !(expandLoop_eq _ _ _ _ _ c).
  - destruct (Date_le c viewEnd); reflexivity.
  - destruct (Date_le c viewEnd); [|reflexivity].
    rewrite <- IH. f_equal.
    destruct (Date_ge c viewStart); [|reflexivity].
    now rewrite map_app.
Qed.

Lemma expandEvent_startTime time fuel viewStart viewEnd acc event :
  expandEvent fuel viewStart viewEnd (map (fun o => withStartTime o time) acc)
    (withStartTime event time)
  = option_map (map (fun o => withStartTime o time))
      (expandEvent fuel viewStart viewEnd acc event).
Proof.
  unfold expandEvent. cbn [repeat date withStartTime].
  destruct (repeat event) as [r|].
  - apply expandLoop_startTime.
  - destruct (_ && _); cbn [option_map]; [|reflexivity].
    now rewrite map_app.
Qed.

(** C9 (unparsable dates), amended.  The two functions read different
    texts.  The expander reads the date alone: an event whose date does
    not parse contributes no occurrence, and the expander returns what it
    returns for the list without that event.  The scan reads the date and
    the start time together: an event for which they do not parse fires no
    alert, and the pass is the one of the list without that event.
    Neither function can fail.  The expander never reads the start time,
    it only copies it: what it makes of an event is, up to that copy, what
    it makes of the same event with any other start time; so an event with
    a good date is expanded even when its start time is not one. *)
Theorem unparsable_date_produces_nothing event :
  (Date_new (date event ++ "T00:00:00") = None ->
   forall fuel viewStart viewEnd,
     (forall acc, expandEvent fuel viewStart viewEnd acc event = Some acc)
     /\ forall l1 l2,
          expandRecurringEvents fuel (l1 ++ event :: l2) viewStart viewEnd
          = expandRecurringEvents fuel (l1 ++ l2) viewStart viewEnd)
  /\ (Date_new (date event ++ "T" ++ startTime event) = None ->
      forall now,
        checkEvent now event = []
        /\ forall l1 l2,
             checkEvents now (l1 ++ event :: l2) = checkEvents now (l1 ++ l2))
  /\ (forall time fuel viewStart viewEnd,
        expandEvent fuel viewStart viewEnd [] (withStartTime event time)
        = option_map (map (fun o => withStartTime o time))
            (expandEvent fuel viewStart viewEnd [] event)).
Proof.
  split; [|split].
  - intros Hd fuel viewStart viewEnd. split.
    + intros acc. now apply expandEvent_invalid_date.
    + intros l1 l2. apply expandRecurringEvents_skip.
      now apply expandEvent_invalid_date.
  - intros Hd now.
    assert (E : checkEvent now event = [])
      by now apply checkEvent_invalid_date.
    split; [exact E|]. intros l1 l2. now apply checkEvents_skip.
  - intros time fuel viewStart viewEnd.
    apply (expandEvent_startTime time fuel viewStart viewEnd [] event).
Qed.

End Malformed.

(* ================================================================== *)
(** ** Monthly events and the end of the month *)
(* ================================================================== *)

Section Monthly.
Context `{HostTimeZone}.

(** The local time value [i] months later, as the [monthly] step computes
    it. *)
Definition monthsLater (L i : Z) : Z :=
  MakeDate (MakeDay (YearFromTime L) (MonthFromTime L + i) (DateFromTime L))
           (TimeWithinDay L).

(** The occurrence of [event] on the day written [day]. *)
Definition occurrenceOn (event : AppEvent) (day : string) : AppEvent :=
  {| id := (id event ++ "_" ++ day)%string;
     calendarId := calendarId event;
     title := title event;
     date := day;
     startTime := startTime event;
     description := description event;
     alerts := alerts event;
     isCompleted := isCompleted event;
     location := location event;
     isAllDay := isAllDay event;
     repeat := repeat event |}.

Lemma toYYYYMMDD_UTC L : toYYYYMMDD (Some (UTC L)) = localYMD L.
Proof.
  unfold toYYYYMMDD, localYMD, getFullYear, getMonth, getDate.
  cbn [option_map num_add]. now rewrite !LocalTime_UTC.
Qed.

Lemma occurrence_UTC event L :
  occurrence event (Some (UTC L)) = occurrenceOn event (localYMD L).
Proof. unfold occurrence, occurrenceOn. now rewrite toYYYYMMDD_UTC. Qed.

Lemma UTC_leb a b : (UTC a <=? UTC b) = (a <=? b).
Proof.
  unfold UTC. destruct (Z.leb_spec a b), (Z.leb_spec (a - LocalTZA) (b - LocalTZA));
    auto; lia.
Qed.

Section Steps.
Variables (event : AppEvent) (r : EventRepeat) (ws we : Z).
Hypothesis Hfreq : frequency r = monthly.

(** One iteration that pushes an occurrence ... *)
Lemma monthly_step_emit fuel L L' acc :
  ws <= L -> L <= we ->
  monthsLater L (interval r) = L' ->
  Z.abs (UTC L') <= maxTime ->
  expandLoop (S fuel) event r (Some (UTC ws)) (Some (UTC we)) (Some (UTC L)) acc
  = expandLoop fuel event r (Some (UTC ws)) (Some (UTC we)) (Some (UTC L'))
      (acc ++ [occurrenceOn event (localYMD L)]).
Proof using Hfreq.
  intros Hws Hwe HL' Hv.
  rewrite expandLoop_eq, Date_le_Some, Date_ge_Some, !UTC_leb.
  destruct (Z.leb_spec L we); [|lia]. destruct (Z.leb_spec ws L); [|lia].
  rewrite occurrence_UTC. f_equal.
  unfold advance. rewrite Hfreq.
  cbn [setMonth getMonth option_map num_add]. rewrite LocalTime_UTC.
  fold (monthsLater L (interval r)). rewrite HL'. now apply TimeClip_valid.
Qed.

(** ... and the test that ends the loop. *)
Lemma monthly_stop fuel L acc :
  we < L ->
  expandLoop fuel event r (Some (UTC ws)) (Some (UTC we)) (Some (UTC L)) acc
  = Some acc.
Proof.
  intros Hwe. rewrite expandLoop_eq, Date_le_Some, UTC_leb.
  destruct (Z.leb_spec L we); [lia | reflexivity].
Qed.

End Steps.

(** [new Date(y, m, d)] followed by [setHours(h, mi, s, ms)], for a year
    beyond 99 and a host offset of less than a day. *)
Lemma window_bound y m d h mi s ms L :
  - msPerDay < LocalTZA < msPerDay ->
  99 < y ->
  MakeDate (MakeDay y m d) (MakeTime h mi s ms) = L ->
  Z.abs (MakeDate (MakeDay y m d) 0) <= maxTime - msPerDay ->
  Z.abs L <= maxTime - msPerDay ->
  setHours4 (Date_ymd y m d) h mi s ms = Some (UTC L).
Proof.
  intros Hz Hy HL Hv0 Hv.
  unfold Date_ymd.
  destruct (Z.leb_spec 0 y); [|lia]. destruct (Z.leb_spec y 99); [lia|].
  cbn [andb]. replace (MakeTime 0 0 0 0) with 0 by reflexivity.
  rewrite TimeClip_valid by (unfold UTC, msPerDay in *; lia).
  unfold setHours4. rewrite LocalTime_UTC.
  replace (Day (MakeDate (MakeDay y m d) 0)) with (MakeDay y m d)
    by (unfold Day, MakeDate, msPerDay; div_lia).
  rewrite HL. apply TimeClip_valid. unfold UTC, msPerDay in *. lia.
Qed.

(** C4 (monthly rollover).  The event anchored on 2024-01-31 that repeats
    every month, expanded over 2024-01-01 .. 2024-04-30 (from the first
    to the last millisecond of those local days), has exactly three
    occurrences: 2024-01-31, 2024-03-02 (February the 31st, rolled over
    the 29 days of February 2024) and 2024-04-02.  This holds on every
    host whose local time is less than a day away from UTC. *)
Theorem monthly_rollover_scenario event :
  - msPerDay < LocalTZA < msPerDay ->
  date event = "2024-01-31"%string ->
  repeat event = Some {| frequency := monthly; interval := 1 |} ->
  let viewStart := setHours4 (Date_ymd 2024 0 1) 0 0 0 0 in
  let viewEnd := setHours4 (Date_ymd 2024 3 30) 23 59 59 999 in
  forall fuel, (3 <= fuel)%nat ->
    expandRecurringEvents fuel [event] viewStart viewEnd
    = Some [ occurrenceOn event "2024-01-31";
             occurrenceOn event "2024-03-02";
             occurrenceOn event "2024-04-02" ].
Proof.
  intros Hz Hdate Hrep viewStart viewEnd fuel Hfuel.
  assert (Hvs : viewStart = Some (UTC 1704067200000)).
  { apply window_bound; try assumption; try lia;
      try (vm_compute; reflexivity); vm_compute; discriminate. }
  assert (Hve : viewEnd = Some (UTC 1714521599999)).
  { apply window_bound; try assumption; try lia;
      try (vm_compute; reflexivity); vm_compute; discriminate. }
  rewrite Hvs, Hve.
  rewrite expandRecurringEvents_single. unfold expandEvent.
  rewrite Hrep, Hdate.
  assert (Hanchor : Date_new ("2024-01-31" ++ "T00:00:00")
                    = Some (UTC 1706659200000)).
  { unfold Date_new.
    replace (parseDateTime ("2024-01-31" ++ "T00:00:00"))
      with (Some (true, 1706659200000)) by (vm_compute; reflexivity).
    apply TimeClip_valid. unfold UTC, maxTime, msPerDay in *. lia. }
  rewrite Hanchor.
  destruct fuel as [|[|[|fuel]]]; try lia.
  assert (Hbound : forall L, Z.abs L <= 2000000000000 ->
                             Z.abs (UTC L) <= maxTime)
    by (intros L HL; unfold UTC, maxTime, msPerDay in *; lia).
  rewrite (monthly_step_emit event {| frequency := monthly; interval := 1 |}
             _ _ eq_refl _ _ 1709337600000);
    [| lia | lia | vm_compute; reflexivity | apply Hbound; lia].
  rewrite (monthly_step_emit event {| frequency := monthly; interval := 1 |}
             _ _ eq_refl _ _ 1712016000000);
    [| lia | lia | vm_compute; reflexivity | apply Hbound; lia].
  rewrite (monthly_step_emit event {| frequency := monthly; interval := 1 |}
             _ _ eq_refl _ _ 1714608000000);
    [| lia | lia | vm_compute; reflexivity | apply Hbound; lia].
  rewrite monthly_stop by lia.
  reflexivity.
Qed.

End Monthly.

(* ================================================================== *)
(** ** Worked examples *)
(* ================================================================== *)

(** A host three hours behind UTC. *)
Definition saoPaulo : HostTimeZone := {| LocalTZA := -10800000 |}.

Definition quarterHour : AppEventAlert :=
  {| alert_id := "alert-1"; value := 15; unit := minutes |}.

Definition dayBefore : AppEventAlert :=
  {| alert_id := "alert-2"; value := 1; unit := days |}.

(** An appointment on 2024-01-31 at 09:00 with a reminder a quarter of an
    hour before. *)
Definition appointment : AppEvent :=
  {| id := "evt-1";
     calendarId := "cal-1";
     title := "Consulta";
     date := "2024-01-31";
     startTime := "09:00";
     description := "";
     alerts := Some [quarterHour];
     isCompleted := None;
     location := None;
     isAllDay := None;
     repeat := None |}.

Definition completedAppointment : AppEvent :=
  {| id := "evt-1";
     calendarId := "cal-1";
     title := "Consulta";
     date := "2024-01-31";
     startTime := "09:00";
     description := "";
     alerts := Some [quarterHour];
     isCompleted := Some true;
     location := None;
     isAllDay := None;
     repeat := None |}.

(** An all-day event as the event form stores it: start time 00:00. *)
Definition holiday : AppEvent :=
  {| id := "evt-2";
     calendarId := "cal-1";
     title := "Feriado";
     date := "2024-01-31";
     startTime := "00:00";
     description := "";
     alerts := Some [dayBefore];
     isCompleted := None;
     location := None;
     isAllDay := Some true;
     repeat := None |}.

Definition everyDay : AppEvent :=
  withRepeat appointment (Some {| frequency := daily; interval := 1 |}).

Definition everyMonth : AppEvent :=
  withRepeat appointment (Some {| frequency := monthly; interval := 1 |}).

(** A record whose date is not in the format. *)
Definition malformed : AppEvent :=
  {| id := "evt-3";
     calendarId := "cal-1";
     title := "Importado";
     date := "31/01/2024";
     startTime := "09:00";
     description := "";
     alerts := Some [quarterHour];
     isCompleted := None;
     location := None;
     isAllDay := None;
     repeat := Some {| frequency := daily; interval := 1 |} |}.

(** 2024-01-31 09:00 in São Paulo, and a quarter of an hour earlier. *)
Definition nineOClock : Z := 1706702400000.
Definition quarterToNine : Z := 1706701500000.

(** 2024-01-30 00:00 and 2024-01-31 00:00 in São Paulo. *)
Definition midnight30 : Z := 1706583600000.
Definition midnight31 : Z := 1706670000000.

(** C1, counterexample: at midnight of the day before, the pass fires the
    reminder of the all-day event [holiday]. *)
Lemma allday_scan_counterexample :
  ~ (forall (host : HostTimeZone) (now : Z) (event : AppEvent),
       isAllDay event = Some true -> @checkEvent host now event = []).
Proof.
  intros C. specialize (C saoPaulo midnight30 holiday eq_refl).
  vm_compute in C. discriminate.
Qed.

(** C1, instance: the all-day event [holiday] is scanned against its start
    instant, midnight of 2024-01-31, and its reminder fires a day before. *)
Lemma allday_event_scanned_like_any_witness :
  @checkEvent saoPaulo midnight30 holiday
  = [alertNotification holiday dayBefore].
Proof.
  rewrite (proj2 (@allday_event_scanned_like_any saoPaulo midnight30 holiday)
                 [dayBefore] midnight31 eq_refl eq_refl eq_refl
                 ltac:(vm_compute; reflexivity)).
  vm_compute. reflexivity.
Defined.

(** C2, instance: the occurrence of [everyDay] on 2024-01-31 in a window of
    two days. *)
Lemma expander_window_containment_witness :
  @occurrenceWithin saoPaulo [everyDay]
    (Some midnight30) (Some (midnight31 + 86399999))
    (@occurrence saoPaulo everyDay (Some midnight31)).
Proof.
  apply (proj1 (proj2 (@expander_window_containment saoPaulo [everyDay]
                         (Some midnight30) (Some (midnight31 + 86399999))))
               2%nat [@occurrence saoPaulo everyDay (Some midnight31)]).
  - vm_compute. reflexivity.
  - left. reflexivity.
Defined.

(** C3, instance: the last millisecond of the due minute. *)
Lemma alert_due_window_witness :
  @checkAlert saoPaulo (quarterToNine + 59999) appointment (Some nineOClock)
    quarterHour
  = [alertNotification appointment quarterHour].
Proof.
  destruct (@alert_due_window saoPaulo (quarterToNine + 59999) appointment
              [quarterHour] quarterHour nineOClock) as (_ & _ & _ & W).
  - reflexivity.
  - left. reflexivity.
  - reflexivity.
  - vm_compute. reflexivity.
  - apply (W 900000).
    + reflexivity.
    + vm_compute. discriminate.
    + vm_compute. split; [discriminate | reflexivity].
Defined.

(** C4, instance: the scenario on a host three hours behind UTC. *)
Lemma monthly_rollover_scenario_witness :
  @expandRecurringEvents saoPaulo 3 [everyMonth]
    (@setHours4 saoPaulo (@Date_ymd saoPaulo 2024 0 1) 0 0 0 0)
    (@setHours4 saoPaulo (@Date_ymd saoPaulo 2024 3 30) 23 59 59 999)
  = Some [ occurrenceOn everyMonth "2024-01-31";
           occurrenceOn everyMonth "2024-03-02";
           occurrenceOn everyMonth "2024-04-02" ].
Proof.
  apply (@monthly_rollover_scenario saoPaulo everyMonth).
  - vm_compute. split; reflexivity.
  - reflexivity.
  - reflexivity.
  - apply le_n.
Defined.


(** C6, instance: the third snooze of the reminder of [appointment]. *)
Lemma snooze_twice_then_dropped_witness :
  timers (onNotificationClick "snooze"
            (snoozedNotification
               (snoozedNotification
                  (alertNotification appointment quarterHour) 1) 2)
            [] initialWorker)
  = timers initialWorker.
Proof.
  destruct (@snooze_twice_then_dropped saoPaulo quarterToNine [appointment]
              (alertNotification appointment quarterHour))
    as (_ & _ & _ & _ & _ & _ & _ & _ & W).
  - vm_compute. left. reflexivity.
  - exact (W initialWorker []).
Defined.

(** C7, instance: three days starting the day after the anchor. *)
Lemma daily_recurrence_coverage_witness :
  @expandRecurringEvents saoPaulo 4 [everyDay]
    (Some (midnight31 + 86400000)) (Some (midnight31 + 4 * 86400000 - 1))
  = Some (map (fun t => @occurrence saoPaulo everyDay (Some t))
            (dailyFrom (midnight31 + 86400000) 3))
  /\ map date (map (fun t => @occurrence saoPaulo everyDay (Some t))
                 (dailyFrom (midnight31 + 86400000) 3))
     = ["2024-02-01"; "2024-02-02"; "2024-02-03"]%string
  /\ NoDup (map date (map (fun t => @occurrence saoPaulo everyDay (Some t))
                        (dailyFrom (midnight31 + 86400000) 3))).
Proof.
  destruct (@daily_recurrence_coverage saoPaulo everyDay
              {| frequency := daily; interval := 1 |} midnight31 1 3
              (midnight31 + 86400000) (midnight31 + 4 * 86400000 - 1))
    as (W & _ & _ & _ & _ & _ & Wy).
  - reflexivity.
  - reflexivity.
  - reflexivity.
  - vm_compute. reflexivity.
  - reflexivity.
  - apply le_S, le_S, le_n.
  - vm_compute. split; [discriminate | reflexivity].
  - vm_compute. discriminate.
  - split; [apply W; apply le_n|]. split; [vm_compute; reflexivity|].
    apply Wy; vm_compute; discriminate.
Defined.

(** C8, instance: the reminder would be due, but the event is completed. *)
Lemma completed_event_fires_nothing_witness :
  @alertDue saoPaulo quarterToNine (Some nineOClock) quarterHour = true
  /\ @checkEvent saoPaulo quarterToNine completedAppointment = [].
Proof.
  split.
  - vm_compute. reflexivity.
  - apply (proj1 (@completed_event_fires_nothing saoPaulo quarterToNine
                    completedAppointment eq_refl)).
Defined.

(** An all-day entry as the import of a calendar file stores it: the date
    of its [DTSTART], and [:] for the start time it does not have. *)
Definition importedAllDay : AppEvent :=
  {| id := "uid-1";
     calendarId := "cal-1";
     title := "Feriado";
     date := "2024-01-31";
     startTime := ":";
     description := "";
     alerts := None;
     isCompleted := None;
     location := None;
     isAllDay := None;
     repeat := None |}.

(** C9, counterexample: [importedAllDay] has a start time that makes date
    and start time unparsable together, and the expander still returns it
    for the window of its day. *)
Lemma unparsable_start_time_counterexample :
  ~ (forall (host : HostTimeZone) (event : AppEvent),
       @Date_new host (date event ++ "T00:00:00") = None
       \/ @Date_new host (date event ++ "T" ++ startTime event) = None ->
       (forall fuel viewStart viewEnd acc,
          @expandEvent host fuel viewStart viewEnd acc event = Some acc)
       /\ (forall now, @checkEvent host now event = [])).
Proof.
  intros C.
  destruct (C saoPaulo importedAllDay) as [E _].
  - right. vm_compute. reflexivity.
  - specialize (E 1%nat (Some midnight31) (Some (midnight31 + 86399999)) []).
    vm_compute in E. discriminate.
Qed.

(** C9, instance: a record with the date [31/01/2024] next to a good one. *)
Lemma unparsable_date_produces_nothing_witness :
  @expandRecurringEvents saoPaulo 2 [malformed; everyDay]
    (Some midnight31) (Some (midnight31 + 86399999))
  = @expandRecurringEvents saoPaulo 2 [everyDay]
      (Some midnight31) (Some (midnight31 + 86399999))
  /\ @checkEvents saoPaulo quarterToNine [malformed; appointment]
     = @checkEvents saoPaulo quarterToNine [appointment].
Proof.
  destruct (@unparsable_date_produces_nothing saoPaulo malformed)
    as (We & Ws & _).
  split.
  - apply (proj2 (We ltac:(vm_compute; reflexivity) 2%nat
                    (Some midnight31) (Some (midnight31 + 86399999)))
                 [] [everyDay]).
  - apply (proj2 (Ws ltac:(vm_compute; reflexivity) quarterToNine)
                 [] [appointment]).
Defined.

(** C10, instance: a quarter to nine on the second day of a daily event. *)
Lemma scan_ignores_recurrence_witness :
  @checkAlert saoPaulo (quarterToNine + 86400000) everyDay (Some nineOClock)
    quarterHour = [].
Proof.
  destruct (@scan_ignores_recurrence saoPaulo (quarterToNine + 86400000)
              everyDay) as (_ & _ & W).
  apply (W quarterHour 900000 nineOClock (nineOClock + 86400000)).
  - vm_compute. reflexivity.
  - reflexivity.
  - vm_compute. discriminate.
  - vm_compute. split; [discriminate | reflexivity].
Defined.

(* ================================================================== *)
(** ** More about the scan and the scheduler *)
(* ================================================================== *)

Section Cadence.
Context `{HostTimeZone}.

(** The due window is as wide as the polling period.  Two passes a minute
    or more apart never both fire the same alert; an alert whose instant
    falls between two passes at most a minute apart fires at the later
    one; and on a grid of passes exactly a minute apart an alert that is
    not yet past fires at exactly one of them. *)
Theorem alert_fires_once_on_the_minute_grid eventTime alert N :
  notificationTimeOf eventTime alert = Some N ->
  (forall now1 now2,
     now1 + 60000 <= now2 ->
     alertDue now1 eventTime alert = true ->
     alertDue now2 eventTime alert = false)
  /\ (forall now1 now2,
        now1 < N <= now2 -> now2 - now1 <= 60000 ->
        alertDue now2 eventTime alert = true)
  /\ (forall now0,
        now0 <= N ->
        exists k, 0 <= k
          /\ alertDue (now0 + 60000 * k) eventTime alert = true
          /\ forall k', alertDue (now0 + 60000 * k') eventTime alert = true ->
                        k' = k).
Proof.
  intros HN.
  assert (Hiff : forall now, alertDue now eventTime alert = true
                             <-> 0 <= now - N < 60000).
  { intros now. rewrite alertDue_iff, HN. split.
    - intros (N' & E & Hd). inversion E; subst. exact Hd.
    - intros Hd. eauto. }
  split; [|split].
  - intros now1 now2 Hgap H1. apply Hiff in H1.
    apply not_true_is_false. intros H2. apply Hiff in H2. lia.
  - intros now1 now2 Hbetween Hgap. apply Hiff. lia.
  - intros now0 Hle. exists ((N - now0 + 59999) / 60000).
    split; [div_lia|]. split.
    + apply Hiff. div_lia.
    + intros k' Hk'. apply Hiff in Hk'. div_lia.
Qed.

End Cadence.

Lemma alert_fires_once_on_the_minute_grid_witness :
  @alertDue saoPaulo (quarterToNine - 20000 + 60000) (Some nineOClock)
    quarterHour = true.
Proof.
  destruct (@alert_fires_once_on_the_minute_grid saoPaulo (Some nineOClock)
              quarterHour quarterToNine) as (_ & W & _).
  - vm_compute. reflexivity.
  - apply (W (quarterToNine - 20000)).
    + vm_compute. split; [reflexivity | discriminate].
    + vm_compute. discriminate.
Defined.

Section Armed.
Context `{HostTimeZone}.

Lemma pollingTimers_clearTimeout_other handle pending :
  NoDup (map timer_id pending) ->
  (forall t, In t pending -> timer_id t = handle -> isCheckTimer t = false) ->
  filter isCheckTimer (clearTimeout handle pending) = filter isCheckTimer pending.
Proof.
  intros _ Hother. induction pending as [|t pending IH]; [reflexivity|].
  cbn [clearTimeout filter].
  assert (IH' : filter isCheckTimer (clearTimeout handle pending)
                = filter isCheckTimer pending).
  { apply IH. intros t' Ht'. apply Hother. now right. }
  destruct (Nat.eqb_spec (timer_id t) handle) as [E | E]; cbn [negb].
  - rewrite (Hother t (or_introl eq_refl) E). exact IH'.
  - cbn [filter]. fold (clearTimeout handle pending). now rewrite IH'.
Qed.

(** The polling loop is running: exactly one of its timers is pending, set
    for a minute. *)
Definition armed (w : Worker) : Prop :=
  exists handle,
    pollingTimers w = [ {| timer_id := handle; timer_delay := 60000;
                           timer_callback := CheckEvents |} ]
    /\ notificationCheckTimeout w = Some handle.

Lemma armed_after_pass now w :
  consistent w -> armed (checkEventsForNotifications now w).
Proof.
  intros Hw. exists (nextTimerId w). split; [|reflexivity].
  now apply pollingTimers_after_pass.
Qed.

Lemma armed_step w i w' :
  consistent w -> armed w -> step w i = Some w' -> armed w'.
Proof.
  intros Hw Ha. destruct i as [now msg | now handle | act n clientList];
    cbn [step].
  - intros E; inversion E; subst; clear E.
    destruct msg as [[events|]|]; cbn [onMessage]; try assumption.
    apply armed_after_pass. now apply consistent_withEvents.
  - unfold onTimer.
    destruct (find _ (timers w)) as [t|] eqn:Ef; [|discriminate].
    intros E; inversion E; subst; clear E.
    apply find_some in Ef. destruct Ef as [Ht Hid]. apply Nat.eqb_eq in Hid.
    destruct (timer_callback t) as [|n c] eqn:Ecb; cbn [runCallback].
    + apply armed_after_pass.
      destruct Hw as [Hpos Hb Hnd Hrem]. constructor; cbn.
      * assumption.
      * intros t' Ht'. apply In_clearTimeout in Ht'. apply Hb. tauto.
      * now apply NoDup_clearTimeout.
      * intros t' Ht'. apply In_clearTimeout in Ht'. apply Hrem. tauto.
    + destruct Ha as (h & Hp & Hh). exists h. split; [|exact Hh].
      unfold pollingTimers in *. cbn [timers].
      rewrite pollingTimers_clearTimeout_other; [exact Hp | apply Hw |].
      intros t' Ht' Hid'.
      assert (t' = t).
      { destruct Hw as [_ _ Hnd _]. clear - Hnd Ht Ht' Hid Hid'.
        induction (timers w) as [|x l IH]; [destruct Ht|].
        cbn in Hnd. inversion Hnd as [|y l' Hy Hl]; subst.
        destruct Ht as [-> | Ht], Ht' as [-> | Ht']; auto.
        - exfalso. apply Hy. apply in_map_iff. exists t'. split; congruence.
        - exfalso. apply Hy. apply in_map_iff. exists t. split; congruence. }
      subst t'. unfold isCheckTimer. now rewrite Ecb.
  - intros E; inversion E; subst; clear E.
    destruct Ha as (h & Hp & Hh). exists h.
    unfold onNotificationClick, pollingTimers in *.
    destruct (String.eqb act "snooze"); cbn [timers notificationCheckTimeout];
      [|auto].
    split; [|exact Hh].
    destruct (orZero (snoozeCount (data n)) + 1 <=? 2); [|exact Hp].
    rewrite filter_app. cbn. now rewrite app_nil_r.
Qed.

(** Before the first list arrives nothing polls: no pass has run and no
    timer of the polling loop is pending. *)
Lemma idle_run inputs : forall w w',
  forallb (fun i => negb (replacesList i)) inputs = true ->
  pollingTimers w = [] -> passes w = [] ->
  run w inputs = Some w' ->
  pollingTimers w' = [] /\ passes w' = [].
Proof.
  induction inputs as [|i rest IH]; intros w w'; cbn [forallb run].
  - intros _ Hp Hq E; inversion E; subst. auto.
  - rewrite andb_true_iff, negb_true_iff. intros [Hi Hrest] Hp Hq.
    destruct (step w i) as [w1|] eqn:Es; [|discriminate].
    apply IH; try assumption.
    + destruct i as [now msg | now handle | act n clientList]; cbn [step] in Es.
      * inversion Es; subst.
        destruct msg as [[events|]|]; [discriminate | |]; exact Hp.
      * unfold onTimer in Es.
        destruct (find _ (timers w)) as [t|] eqn:Ef; [|discriminate].
        inversion Es; subst; clear Es.
        apply find_some in Ef. destruct Ef as [Ht Hid].
        destruct (timer_callback t) as [|n c] eqn:Ecb.
        -- exfalso. assert (Hin : In t (pollingTimers w)).
           { unfold pollingTimers. apply filter_In. split; [exact Ht|].
             unfold isCheckTimer. now rewrite Ecb. }
           rewrite Hp in Hin. destruct Hin.
        -- cbn [runCallback]. unfold pollingTimers in *. cbn [timers].
           clear - Hp. induction (timers w) as [|x l IHl]; [reflexivity|].
           cbn in Hp |- *. destruct (isCheckTimer x) eqn:Ex; [discriminate|].
           destruct (negb _); cbn; [rewrite Ex|]; auto.
      * inversion Es; subst. unfold onNotificationClick, pollingTimers in *.
        destruct (String.eqb act "snooze"); cbn [timers]; [|exact Hp].
        destruct (_ <=? 2); [|exact Hp].
        rewrite filter_app, Hp. reflexivity.
    + destruct i as [now msg | now handle | act n clientList]; cbn [step] in Es.
      * inversion Es; subst.
        destruct msg as [[events|]|]; [discriminate | |]; exact Hq.
      * unfold onTimer in Es.
        destruct (find _ (timers w)) as [t|] eqn:Ef; [|discriminate].
        inversion Es; subst; clear Es.
        apply find_some in Ef. destruct Ef as [Ht Hid].
        destruct (timer_callback t) as [|n c] eqn:Ecb; [|exact Hq].
        exfalso. assert (Hin : In t (pollingTimers w)).
        { unfold pollingTimers. apply filter_In. split; [exact Ht|].
          unfold isCheckTimer. now rewrite Ecb. }
        rewrite Hp in Hin. destruct Hin.
      * inversion Es; subst. unfold onNotificationClick.
        destruct (String.eqb act "snooze"); exact Hq.
Qed.

Lemma armed_run inputs : forall w w',
  consistent w -> armed w -> run w inputs = Some w' -> armed w'.
Proof.
  induction inputs as [|i rest IH]; intros w w' Hw Ha; cbn [run].
  - intros E; inversion E; subst. assumption.
  - destruct (step w i) as [w1|] eqn:Es; [|discriminate].
    apply IH; [eapply consistent_step | eapply armed_step]; eauto.
Qed.

(** The polling loop starts with the first list and never stops.  Along
    any run from the initial state: as long as no list has arrived, no
    pass has run and no polling timer is pending; once a list has arrived,
    exactly one polling timer is pending, it is set for 60000 ms, and it
    is the one whose handle the worker remembers. *)
Theorem polling_starts_with_first_list_and_never_stops inputs w :
  run initialWorker inputs = Some w ->
  (existsb replacesList inputs = false ->
   pollingTimers w = [] /\ passes w = [])
  /\ (existsb replacesList inputs = true -> armed w).
Proof.
  intros Hrun. split.
  - intros Hno. apply (idle_run inputs initialWorker w); auto.
    clear - Hno. induction inputs as [|i rest IH]; [reflexivity|].
    cbn in *. apply orb_false_iff in Hno. destruct Hno as [-> Hr]. cbn. auto.
  - intros Hsome.
    assert (Hgen : forall w0, consistent w0 -> run w0 inputs = Some w -> armed w).
    { clear Hrun. induction inputs as [|i rest IH]; [discriminate|].
      intros w0 Hw0. cbn [run].
      destruct (step w0 i) as [w1|] eqn:Es; [|discriminate].
      pose proof (consistent_step _ _ _ Hw0 Es) as Hw1.
      cbn [existsb] in Hsome. destruct (replacesList i) eqn:Ei.
      - intros Hr. apply (armed_run rest w1 w Hw1); [|exact Hr].
        destruct i as [now [[events|]|] | |]; try discriminate.
        cbn [step] in Es. inversion Es; subst.
        exact (armed_after_pass now
                 (withEvents w0 (match events with Some l => l | None => [] end))
                 (consistent_withEvents _ _ Hw0)).
      - apply IH; assumption. }
    apply (Hgen initialWorker); [apply consistent_initial | exact Hrun].
Qed.

End Armed.

Section SnoozeCap.
Context `{HostTimeZone}.

(** The states the worker can be in when the host only reports clicks on
    notifications that the worker has shown. *)
Inductive reachable : Worker -> Prop :=
  | reachable_initial : reachable initialWorker
  | reachable_message w now msg :
      reachable w -> reachable (onMessage now msg w)
  | reachable_timer w now handle w' :
      reachable w -> onTimer now handle w = Some w' -> reachable w'
  | reachable_click w act n clientList :
      reachable w -> In (ShowNotification n) (calls w) ->
      reachable (onNotificationClick act n clientList w).

(** What is shown has been snoozed at most twice, and what is waiting to
    be shown is the next snooze of something shown. *)
Definition snoozesBounded (w : Worker) : Prop :=
  (forall n, In (ShowNotification n) (calls w) ->
             0 <= snoozeCount (data n) <= 2)
  /\ (forall t n c, In t (timers w) -> timer_callback t = ShowSnoozed n c ->
                    c = snoozeCount (data n) + 1 /\ 1 <= c <= 2
                    /\ timer_delay t = 300000).

Lemma snoozesBounded_pass now w :
  snoozesBounded w -> snoozesBounded (checkEventsForNotifications now w).
Proof.
  intros [Hs Ht]. split; cbn [checkEventsForNotifications calls timers].
  - intros n Hn. apply in_app_or in Hn. destruct Hn as [Hn | Hn]; [auto|].
    apply in_map_iff in Hn. destruct Hn as (n' & E & Hn'). inversion E; subst.
    rewrite (delivered_not_snoozed _ _ _ Hn'). lia.
  - intros t n c Hin Hcb. apply in_app_or in Hin.
    destruct Hin as [Hin | [<- | []]]; [|discriminate].
    apply (Ht t); [|exact Hcb].
    destruct (notificationCheckTimeout w) as [[|h]|]; auto.
    apply In_clearTimeout in Hin. tauto.
Qed.

Lemma snoozesBounded_reachable w : reachable w -> snoozesBounded w.
Proof.
  induction 1 as [| w now msg Hr IH | w now handle w' Hr IH Ht
                  | w act n clientList Hr IH Hshown].
  - unfold initialWorker. split; cbn; [intros n [] | intros t n c []].
  - destruct msg as [[events|]|]; cbn [onMessage]; try assumption.
    apply snoozesBounded_pass. exact IH.
  - unfold onTimer in Ht.
    destruct (find _ (timers w)) as [t|] eqn:Ef; [|discriminate].
    inversion Ht; subst; clear Ht.
    apply find_some in Ef. destruct Ef as [Hin _].
    destruct IH as [Hs Hp].
    assert (Hcleared : snoozesBounded
              {| scheduledEvents := scheduledEvents w;
                 notificationCheckTimeout := notificationCheckTimeout w;
                 timers := clearTimeout handle (timers w);
                 nextTimerId := nextTimerId w;
                 calls := calls w;
                 passes := passes w |}).
    { split; cbn; [exact Hs|]. intros t' n c Hin'.
      apply In_clearTimeout in Hin'. apply Hp. tauto. }
    destruct (timer_callback t) as [|n c] eqn:Ecb; cbn [runCallback].
    + now apply snoozesBounded_pass.
    + destruct Hcleared as [Hs' Hp']. split; cbn [calls timers]; [|exact Hp'].
      intros n' Hn'. apply in_app_or in Hn'. destruct Hn' as [Hn' | [E | []]];
        [auto|].
      inversion E; subst. cbn. destruct (Hp t n c Hin Ecb) as (_ & Hc & _). lia.
  - destruct IH as [Hs Hp]. pose proof (Hs n Hshown) as Hn.
    unfold onNotificationClick.
    destruct (String.eqb act "snooze").
    + split; cbn [calls timers].
      * intros n' Hn'. apply in_app_or in Hn'.
        destruct Hn' as [Hn' | [E | []]]; [auto | discriminate].
      * assert (Ez : orZero (snoozeCount (data n)) = snoozeCount (data n)).
        { unfold orZero. destruct (Z.eqb_spec (snoozeCount (data n)) 0);
            congruence. }
        rewrite Ez. intros t n' c Hin Hcb.
        destruct (Z.leb_spec (snoozeCount (data n) + 1) 2); [|eauto].
        apply in_app_or in Hin. destruct Hin as [Hin | [<- | []]]; [eauto|].
        cbn in Hcb. inversion Hcb; subst. cbn. repeat split; lia.
    + split; cbn [calls timers]; [|exact Hp].
      intros n' Hn'. apply in_app_or in Hn'. destruct Hn' as [Hn' | Hn']; [auto|].
      cbn in Hn'. destruct Hn' as [E | Hn']; [discriminate|].
      destruct (String.eqb act "mark_as_read"), clientList; cbn in Hn';
        intuition discriminate.
Qed.

(** The snooze limit holds for the worker as a whole: whatever the order
    of lists, ticks and clicks, no notification with a snooze count other
    than 0, 1 or 2 is ever shown, and every pending snooze timer is set
    for five minutes and will show a first or second snooze. *)
Theorem shown_notifications_snoozed_at_most_twice w :
  reachable w ->
  (forall n, In (ShowNotification n) (calls w) ->
             0 <= snoozeCount (data n) <= 2)
  /\ (forall t n c, In t (timers w) -> timer_callback t = ShowSnoozed n c ->
                    c = snoozeCount (data n) + 1 /\ 1 <= c <= 2
                    /\ timer_delay t = 300000).
Proof. apply snoozesBounded_reachable. Qed.

End SnoozeCap.

(* ================================================================== *)
(** ** The application and the worker *)
(* ================================================================== *)

Section Completion.
Context `{HostTimeZone}.

Lemma checkEvent_eventId now event n :
  In n (checkEvent now event) -> eventId (data n) = id event.
Proof.
  intros Hn. apply checkEvent_In in Hn.
  destruct Hn as (l & a & T & N & _ & _ & _ & _ & _ & ->). reflexivity.
Qed.

Lemma filter_all {A} (p : A -> bool) (l : list A) :
  (forall x, In x l -> p x = true) -> filter p l = l.
Proof.
  induction l as [|x l IH]; intros Hp; [reflexivity|]. cbn.
  rewrite (Hp x) by now left. f_equal. apply IH. intros y Hy. apply Hp.
  now right.
Qed.

Lemma filter_none {A} (p : A -> bool) (l : list A) :
  (forall x, In x l -> p x = false) -> filter p l = [].
Proof.
  induction l as [|x l IH]; intros Hp; [reflexivity|]. cbn.
  rewrite (Hp x) by now left. apply IH. intros y Hy. apply Hp. now right.
Qed.

(** The notifications of a pass that do not belong to the event [target]. *)
Definition notOf (target : string) (n : Notification) : bool :=
  negb (String.eqb (eventId (data n)) target).

Lemma checkEvents_updated now target updated l :
  id updated = target ->
  checkEvent now updated = [] ->
  checkEvents now
    (map (fun event => if String.eqb (id event) (id updated) then updated
                       else event) l)
  = filter (notOf target) (checkEvents now l).
Proof.
  intros Hid Hsilent. unfold checkEvents.
  induction l as [|e l IH]; [reflexivity|].
  cbn [map flat_map]. rewrite filter_app, <- IH, Hid.
  destruct (String.eqb_spec (id e) target) as [E | E].
  - rewrite Hsilent. rewrite filter_none; [reflexivity|].
    intros n Hn. unfold notOf. rewrite (checkEvent_eventId _ _ _ Hn), E.
    now rewrite String.eqb_refl.
  - rewrite filter_all; [reflexivity|].
    intros n Hn. unfold notOf. rewrite (checkEvent_eventId _ _ _ Hn).
    apply negb_true_iff. now apply String.eqb_neq.
Qed.

(** Marking an event as done from a notification silences exactly that
    event.  After the application has handled [MARK_EVENT_AS_COMPLETED]
    for the id [target], a pass over its events shows what the pass over
    the old events would show, less the notifications of the events with
    that id; the events with other ids are untouched, and every event
    with that id is completed. *)
Theorem mark_as_completed_silences_the_event st target now :
  let st' := App.handleMessage target st in
  checkEvents now (App.events st')
  = filter (notOf target) (checkEvents now (App.events st))
  /\ List.length (App.events st') = List.length (App.events st)
  /\ (forall e, In e (App.events st') -> id e <> target -> In e (App.events st))
  /\ (forall e, In e (App.events st') -> id e = target ->
                isCompleted e = Some true).
Proof.
  cbn zeta. unfold App.handleMessage.
  destruct (find _ (App.events st)) as [e0|] eqn:Ef.
  - apply find_some in Ef. destruct Ef as [Hin Hid].
    apply String.eqb_eq in Hid.
    unfold App.updateEvent, App.setEvents, App.saveStateToHistory.
    cbn [App.events]. split; [|split; [|split]].
    + apply checkEvents_updated; [exact Hid|].
      apply checkEvent_completed. reflexivity.
    + apply length_map.
    + intros e He Hne. apply in_map_iff in He. destruct He as (x & Ex & Hx).
      cbn [App.completed id] in Ex.
      destruct (String.eqb_spec (id x) (id e0)); subst; [|assumption].
      cbn in Hne. congruence.
    + intros e He Heq. apply in_map_iff in He. destruct He as (x & Ex & Hx).
      cbn [App.completed id] in Ex.
      destruct (String.eqb_spec (id x) (id e0)); subst; [reflexivity|].
      congruence.
  - split; [|split; [|split]]; auto.
    + symmetry. apply filter_all. intros n Hn. unfold checkEvents in Hn.
      apply in_flat_map in Hn. destruct Hn as (e & He & Hn).
      unfold notOf. rewrite (checkEvent_eventId _ _ _ Hn).
      apply negb_true_iff. apply (find_none _ _ Ef e He).
    + intros e He Heq. exfalso.
      pose proof (find_none _ _ Ef e He) as Hf. cbn in Hf.
      rewrite Heq, String.eqb_refl in Hf. discriminate.
Qed.

End Completion.

Section History.

Lemma sliceLast_length {A} n (l : list A) :
  List.length (App.sliceLast n l) = Nat.min (List.length l) n.
Proof. unfold App.sliceLast. rewrite length_skipn. lia. Qed.

Lemma rev_snoc_head {A} (l : list A) x : rev (l ++ [x]) = x :: rev l.
Proof. now rewrite rev_app_distr. Qed.

(** Every edit can be undone, and the undo redone.  For each of the four
    edits (update or delete an event, update or delete a calendar):
    undoing it right away gives back the calendars and events from before
    the edit, redoing it gives back those from after it, and the undo
    stack holds the last 20 states it held before plus the one saved by
    the edit, so never more than 21. *)
Theorem undo_restores_and_redo_reapplies (edit : App.State -> App.State) st :
  (exists u, edit = App.updateEvent u) \/ (exists i, edit = App.deleteEvent i)
  \/ (exists c, edit = App.updateCalendar c)
  \/ (exists i, edit = App.deleteCalendar i) ->
  App.calendars (App.handleUndo (edit st)) = App.calendars st
  /\ App.events (App.handleUndo (edit st)) = App.events st
  /\ App.calendars (App.handleRedo (App.handleUndo (edit st)))
     = App.calendars (edit st)
  /\ App.events (App.handleRedo (App.handleUndo (edit st)))
     = App.events (edit st)
  /\ List.length (App.undoStack (edit st))
     = S (Nat.min (List.length (App.undoStack st)) 20)
  /\ App.redoStack (edit st) = [].
Proof.
  intros Hedit.
  assert (Hstack : App.undoStack (edit st)
                   = App.sliceLast 20 (App.undoStack st)
                     ++ [ {| App.h_calendars := App.calendars st;
                             App.h_events := App.events st |} ]
                   /\ App.redoStack (edit st) = []).
  { destruct Hedit as [[u ->] | [[i ->] | [[c ->] | [i ->]]]]; split;
      reflexivity. }
  destruct Hstack as [Hu Hr].
  unfold App.handleUndo. rewrite Hu, rev_snoc_head, Hr.
  cbn [App.calendars App.events App.redoStack App.undoStack app].
  unfold App.handleRedo. cbn [App.redoStack rev app App.calendars App.events
                              App.h_calendars App.h_events].
  repeat split.
  rewrite length_app, sliceLast_length. cbn. lia.
Qed.

End History.

Section KnownEvents.
Context `{HostTimeZone}.

(** [x] is the id of an event in one of the lists the worker has scanned. *)
Definition scannedEvent (w : Worker) (x : string) : Prop :=
  exists l e, In l (passes w) /\ In e l /\ id e = x.

Definition namesScannedEvents (w : Worker) : Prop :=
  (forall n, In (ShowNotification n) (calls w) ->
             scannedEvent w (eventId (data n)))
  /\ (forall t n c, In t (timers w) -> timer_callback t = ShowSnoozed n c ->
                    scannedEvent w (eventId (data n)))
  /\ (forall client type x, In (PostMessage client type x) (calls w) ->
        type = "MARK_EVENT_AS_COMPLETED"%string /\ scannedEvent w x).

Lemma scannedEvent_mono w w' x :
  (forall l, In l (passes w) -> In l (passes w')) ->
  scannedEvent w x -> scannedEvent w' x.
Proof. intros Hsub (l & e & Hl & He & Hid). exists l, e. auto. Qed.

Lemma namesScannedEvents_mono w w' :
  (forall l, In l (passes w) -> In l (passes w')) ->
  calls w' = calls w ->
  (forall t, In t (timers w') -> In t (timers w)) ->
  namesScannedEvents w -> namesScannedEvents w'.
Proof.
  intros Hsub Hc Ht (Hs & Hp & Hm). unfold namesScannedEvents. rewrite Hc.
  split; [|split].
  - intros n Hn. eapply scannedEvent_mono; eauto.
  - intros t n c Hin Hcb. eapply scannedEvent_mono; eauto.
  - intros client type x Hin. destruct (Hm client type x Hin).
    split; [assumption|]. eapply scannedEvent_mono; eauto.
Qed.

Lemma namesScannedEvents_pass now w :
  namesScannedEvents w -> namesScannedEvents (checkEventsForNotifications now w).
Proof.
  intros (Hs & Hp & Hm).
  assert (Hsub : forall x, scannedEvent w x ->
                           scannedEvent (checkEventsForNotifications now w) x).
  { intros x. apply scannedEvent_mono. intros l Hl. cbn.
    apply in_or_app. now left. }
  split; [|split]; cbn [checkEventsForNotifications calls timers].
  - intros n Hn. apply in_app_or in Hn. destruct Hn as [Hn | Hn]; [auto|].
    apply in_map_iff in Hn. destruct Hn as (n' & E & Hn'). inversion E; subst.
    unfold checkEvents in Hn'. apply in_flat_map in Hn'.
    destruct Hn' as (e & He & Hn').
    exists (scheduledEvents w), e. split; [|split; [exact He|]].
    + cbn. apply in_or_app. right. now left.
    + apply checkEvent_In in Hn'.
      destruct Hn' as (l & a & T & N & _ & _ & _ & _ & _ & ->). reflexivity.
  - intros t n c Hin Hcb. apply in_app_or in Hin.
    destruct Hin as [Hin | [<- | []]]; [|discriminate].
    apply Hsub. apply (Hp t n c); [|exact Hcb].
    destruct (notificationCheckTimeout w) as [[|h]|]; auto.
    apply In_clearTimeout in Hin. tauto.
  - intros client type x Hin. apply in_app_or in Hin.
    destruct Hin as [Hin | Hin].
    + destruct (Hm client type x Hin). auto.
    + apply in_map_iff in Hin. destruct Hin as (n' & E & _). discriminate.
Qed.

Lemma namesScannedEvents_reachable w : reachable w -> namesScannedEvents w.
Proof.
  induction 1 as [| w now msg Hr IH | w now handle w' Hr IH Ht
                  | w act n clientList Hr IH Hshown].
  - unfold initialWorker. split; [|split]; cbn.
    + intros n [].
    + intros t n c [].
    + intros client type x [].
  - destruct msg as [[events|]|]; cbn [onMessage]; try assumption.
    apply namesScannedEvents_pass.
    apply (namesScannedEvents_mono w); auto.
  - unfold onTimer in Ht.
    destruct (find _ (timers w)) as [t|] eqn:Ef; [|discriminate].
    inversion Ht; subst; clear Ht.
    apply find_some in Ef. destruct Ef as [Hin _].
    assert (Hcleared : namesScannedEvents
              {| scheduledEvents := scheduledEvents w;
                 notificationCheckTimeout := notificationCheckTimeout w;
                 timers := clearTimeout handle (timers w);
                 nextTimerId := nextTimerId w;
                 calls := calls w;
                 passes := passes w |}).
    { apply (namesScannedEvents_mono w); auto.
      intros t' Ht'. apply In_clearTimeout in Ht'. tauto. }
    destruct (timer_callback t) as [|n c] eqn:Ecb; cbn [runCallback].
    + now apply namesScannedEvents_pass.
    + destruct IH as (Hs & Hp & Hm). destruct Hcleared as (Hs' & Hp' & Hm').
      split; [|split]; cbn [calls timers].
      * intros n' Hn'. apply in_app_or in Hn'.
        destruct Hn' as [Hn' | [E | []]]; [now apply Hs|].
        inversion E; subst. cbn. apply (Hp t n c Hin Ecb).
      * exact Hp'.
      * intros client type x Hin'. apply in_app_or in Hin'.
        destruct Hin' as [Hin' | [E | []]]; [|discriminate].
        apply (Hm client type x Hin').
  - destruct IH as (Hs & Hp & Hm). pose proof (Hs n Hshown) as Hn.
    unfold onNotificationClick.
    destruct (String.eqb act "snooze").
    + split; [|split]; cbn [calls timers].
      * intros n' Hn'. apply in_app_or in Hn'.
        destruct Hn' as [Hn' | [E | []]]; [now apply Hs | discriminate].
      * intros t n' c Hin Hcb.
        destruct (_ <=? 2); [|eauto].
        apply in_app_or in Hin. destruct Hin as [Hin | [<- | []]]; [eauto|].
        cbn in Hcb. inversion Hcb; subst. exact Hn.
      * intros client type x Hin'. apply in_app_or in Hin'.
        destruct Hin' as [Hin' | [E | []]]; [|discriminate].
        apply (Hm client type x Hin').
    + assert (Hlater : forall client type x,
                In (PostMessage client type x)
                   (calls w ++ [CloseNotification n] ++
                    (if String.eqb act "mark_as_read"
                     then match clientList with
                          | first :: _ =>
                              [PostMessage first "MARK_EVENT_AS_COMPLETED"
                                 (eventId (data n))]
                          | [] => []
                          end
                     else match clientList with
                          | first :: _ => [Focus (pickClient first clientList)]
                          | [] => [OpenWindow "/"]
                          end)) ->
                type = "MARK_EVENT_AS_COMPLETED"%string /\ scannedEvent w x).
      { intros client type x Hin. apply in_app_or in Hin.
        destruct Hin as [Hin | Hin]; [now apply (Hm client)|].
        cbn in Hin. destruct Hin as [E | Hin]; [discriminate|].
        destruct (String.eqb act "mark_as_read"), clientList; cbn in Hin;
          try (intuition discriminate).
        destruct Hin as [E | []]. inversion E; subst. auto. }
      split; [|split]; cbn [calls timers].
      * intros n' Hn'. apply in_app_or in Hn'.
        destruct Hn' as [Hn' | Hn']; [now apply Hs|].
        cbn in Hn'. destruct Hn' as [E | Hn']; [discriminate|].
        destruct (String.eqb act "mark_as_read"), clientList; cbn in Hn';
          intuition discriminate.
      * exact Hp.
      * exact Hlater.
Qed.

(** Completion messages always name an event the worker was given.
    Whatever the order of lists, ticks, snoozes and clicks, every message
    the worker posts to the application is [MARK_EVENT_AS_COMPLETED] for
    the id of an event in one of the lists it has scanned, and every
    notification it shows, snoozed or not, carries such an id. *)
Theorem completion_messages_name_scanned_events w :
  reachable w ->
  (forall client type x, In (PostMessage client type x) (calls w) ->
     type = "MARK_EVENT_AS_COMPLETED"%string /\ scannedEvent w x)
  /\ (forall n, In (ShowNotification n) (calls w) ->
                scannedEvent w (eventId (data n))).
Proof.
  intros Hr. destruct (namesScannedEvents_reachable w Hr) as (Hs & _ & Hm).
  split; assumption.
Qed.

End KnownEvents.

Section SnoozeTexts.
Context `{HostTimeZone}.

Lemma removePrefix_app p s : removePrefix p (p ++ s) = Some s.
Proof.
  induction p as [|c p IH]; cbn; [reflexivity|].
  now rewrite Ascii.eqb_refl.
Qed.

Lemma string_length_app (a b : string) :
  String.length (a ++ b) = (String.length a + String.length b)%nat.
Proof. induction a as [|c a IH]; cbn; [reflexivity | now rewrite IH]. Qed.

Lemma string_app_inv_head (p x y : string) :
  (p ++ x)%string = (p ++ y)%string -> x = y.
Proof.
  induction p as [|c p IH]; cbn; [auto|]. intros E. inversion E. auto.
Qed.

(** Snoozing marks the body once.  The body of a snoozed notification is
    ["(Adiado) "] followed by the body it was made from, less that mark if
    it was there; so snoozing a snoozed notification leaves the body as it
    is, however often. *)
Theorem snoozed_body_is_marked_once n j k :
  body (snoozedNotification n j)
  = ("(Adiado) " ++ replacePrefix "(Adiado) " (body n))%string
  /\ body (snoozedNotification (snoozedNotification n j) k)
     = body (snoozedNotification n j).
Proof.
  split; [reflexivity|].
  cbn [snoozedNotification body]. unfold replacePrefix at 1.
  now rewrite (removePrefix_app "(Adiado) ").
Qed.

(** Tags keep notifications apart.  Two alerts of one event get the same
    tag only if they have the same alert id, and the tag of a snoozed
    notification is longer than, hence different from, the tag of the
    notification it was made from: showing it replaces neither that one
    nor any earlier one of the chain. *)
Theorem tags_keep_notifications_apart event a a' n c c' :
  (tag (alertNotification event a) = tag (alertNotification event a')
   <-> alert_id a = alert_id a')
  /\ (String.length (tag n) < String.length (tag (snoozedNotification n c)))%nat
  /\ tag (snoozedNotification n c) <> tag n
  /\ tag (snoozedNotification (snoozedNotification n c) c') <> tag n
  /\ tag (snoozedNotification (snoozedNotification n c) c')
     <> tag (snoozedNotification n c).
Proof.
  assert (Hlen : forall m d,
             (String.length (tag m)
              < String.length (tag (snoozedNotification m d)))%nat).
  { intros m d. cbn [snoozedNotification tag].
    rewrite !string_length_app. cbn. lia. }
  split; [|split; [apply Hlen|split; [|split]]].
  - cbn [alertNotification tag]. split.
    + intros E. apply string_app_inv_head in E.
      apply (string_app_inv_head "-") in E. exact E.
    + intros ->. reflexivity.
  - intros E. pose proof (Hlen n c) as Hl. rewrite E in Hl. lia.
  - intros E. pose proof (Hlen n c) as Hl.
    pose proof (Hlen (snoozedNotification n c) c') as Hl'.
    rewrite E in Hl'. lia.
  - intros E. pose proof (Hlen (snoozedNotification n c) c') as Hl'.
    rewrite E in Hl'. lia.
Qed.

End SnoozeTexts.

(* ================================================================== *)
(** ** More about the expander *)
(* ================================================================== *)

Section ExpanderMore.
Context `{HostTimeZone}.

Lemma advance_zero r t :
  interval r = 0 -> Z.abs t <= maxTime -> advance r (Some t) = Some t.
Proof.
  intros Hi Hv. unfold advance. rewrite Hi. destruct (frequency r).
  - rewrite setDate_add. replace (t + 0 * msPerDay) with t by lia.
    now apply TimeClip_valid.
  - rewrite setDate_add. replace (t + 0 * 7 * msPerDay) with t by lia.
    now apply TimeClip_valid.
  - cbn [setMonth getMonth option_map num_add]. rewrite Z.add_0_r.
    rewrite MakeDay_of_time, MakeDate_of_time, UTC_LocalTime.
    now apply TimeClip_valid.
  - cbn [setFullYear getFullYear option_map num_add]. rewrite Z.add_0_r.
    rewrite MakeDay_of_time, MakeDate_of_time, UTC_LocalTime.
    now apply TimeClip_valid.
Qed.

(** An interval of 0 hangs the expander.  A repeating event whose
    interval is 0 and whose anchor parses to a date not after the end of
    the window keeps the loop at the anchor for ever: however many
    iterations are allowed, the expansion of a list that contains the
    event does not return. *)
Theorem zero_interval_never_returns event r t l1 l2 viewStart we :
  repeat event = Some r ->
  interval r = 0 ->
  Date_new (date event ++ "T00:00:00") = Some t ->
  t <= we ->
  forall fuel,
    expandRecurringEvents fuel (l1 ++ event :: l2) viewStart (Some we) = None.
Proof.
  intros Hr Hi Hd Hle fuel.
  assert (Hv : Z.abs t <= maxTime)
    by (apply Date_new_startOfLocalDay in Hd; apply Hd).
  assert (Hloop : forall n acc,
             expandLoop n event r viewStart (Some we) (Some t) acc = None).
  { induction n as [|n IH]; intros acc; rewrite expandLoop_eq, Date_le_Some;
      destruct (Z.leb_spec t we); try lia; [reflexivity|].
    rewrite advance_zero by assumption. apply IH. }
  rewrite expandRecurringEvents_app, expandRecurringEvents_cons.
  unfold expandEvent. rewrite Hr, Hd, Hloop.
  destruct (expandRecurringEvents fuel l1 viewStart (Some we)); reflexivity.
Qed.

(** The cursor after [k] steps. *)
Fixpoint advanceN (r : EventRepeat) (k : nat) (cursorDate : Date) : Date :=
  match k with
  | O => cursorDate
  | S k' => advanceN r k' (advance r cursorDate)
  end.

Lemma advance_NaN r : advance r NaN = NaN.
Proof. unfold advance. destruct (frequency r); reflexivity. Qed.

Lemma advanceN_NaN r k : advanceN r k NaN = NaN.
Proof.
  induction k as [|k IH]; [reflexivity|]. cbn [advanceN].
  now rewrite advance_NaN.
Qed.

Lemma advanceN_increasing r k : forall t t',
  1 <= interval r -> advanceN r k (Some t) = Some t' -> t <= t'.
Proof.
  induction k as [|k IH]; intros t t' Hi; cbn [advanceN].
  - intros E; inversion E; lia.
  - destruct (advance_progress r t Hi) as (t1 & E1 & H1). rewrite E1.
    unfold TimeClip. destruct (Z.abs t1 <=? maxTime).
    + intros E. apply IH in E; [|assumption]. unfold msPerDay in *. lia.
    + rewrite advanceN_NaN. discriminate.
Qed.

(** Every cursor position inside the window is pushed. *)
Lemma expandLoop_complete event r viewStart viewEnd k :
  1 <= interval r ->
  forall fuel cursorDate acc l t,
    expandLoop fuel event r viewStart viewEnd cursorDate acc = Some l ->
    advanceN r k cursorDate = Some t ->
    inWindow viewStart viewEnd t ->
    In (occurrence event (Some t)) l.
Proof.
  intros Hi. induction k as [|k IH]; intros fuel c acc l t Hl Hk Hw;
    cbn [advanceN] in Hk; destruct Hw as (ws & we & -> & -> & Hws & Hwe).
  - subst c. rewrite expandLoop_eq, Date_le_Some, Date_ge_Some in Hl.
    destruct (Z.leb_spec t we); [|lia]. destruct (Z.leb_spec ws t); [|lia].
    destruct fuel as [|fuel]; [discriminate|].
    rewrite expandLoop_acc in Hl.
    destruct (expandLoop fuel _ _ _ _ _ []) as [l'|]; [|discriminate].
    cbn in Hl. inversion Hl; subst.
    apply in_or_app. left. apply in_or_app. right. now left.
  - destruct c as [t0|]; [|rewrite advance_NaN, advanceN_NaN in Hk; discriminate].
    assert (Ht0 : t0 <= t).
    { apply (advanceN_increasing r (S k)); assumption. }
    rewrite expandLoop_eq, Date_le_Some in Hl.
    destruct (Z.leb_spec t0 we); [|lia].
    destruct fuel as [|fuel]; [discriminate|].
    eapply IH; [exact Hl | exact Hk |]. exists ws, we. auto.
Qed.

(** The result is exactly what lies in the window.  When the expander
    returns: a non-repeating event of the list is in the result if and
    only if its date parses to an instant of the window; and for a
    repeating event with an interval of at least 1, an occurrence is in
    the result for each position that the cursor reaches from the anchor
    and that lies in the window. *)
Theorem expander_result_is_exactly_the_window
    fuel baseEvents viewStart viewEnd l event :
  expandRecurringEvents fuel baseEvents viewStart viewEnd = Some l ->
  In event baseEvents ->
  (repeat event = None ->
   (In event l <->
    exists t, Date_new (date event ++ "T00:00:00") = Some t
              /\ inWindow viewStart viewEnd t))
  /\ (forall r k t,
        repeat event = Some r -> 1 <= interval r ->
        advanceN r k (Date_new (date event ++ "T00:00:00")) = Some t ->
        inWindow viewStart viewEnd t ->
        In (occurrence event (Some t)) l).
Proof.
  intros Hl Hin.
  apply in_split in Hin. destruct Hin as (l1 & l2 & ->).
  rewrite expandRecurringEvents_app, expandRecurringEvents_cons in Hl.
  destruct (expandRecurringEvents fuel l1 viewStart viewEnd) as [a|] eqn:E1;
    [|discriminate].
  destruct (expandEvent fuel viewStart viewEnd [] event) as [b|] eqn:Eb;
    [|discriminate].
  destruct (expandRecurringEvents fuel l2 viewStart viewEnd) as [c|] eqn:E2;
    [|discriminate].
  inversion Hl; subst l; clear Hl.
  split.
  - intros Hr. split.
    + intros Hine.
      assert (Hall : expandRecurringEvents fuel (l1 ++ event :: l2)
                       viewStart viewEnd = Some (a ++ b ++ c))
        by (now rewrite expandRecurringEvents_app, expandRecurringEvents_cons,
              E1, Eb, E2).
      destruct (expandRecurringEvents_window _ _ _ _ _ Hall event Hine)
        as (t & Hw & [(_ & _ & Hd) | (e & r & _ & Hre & Ho & _)]).
      * eauto.
      * exfalso. rewrite Ho in Hr. cbn in Hr. congruence.
    + intros (t & Hd & (ws & we & -> & -> & Hws & Hwe)).
      unfold expandEvent in Eb. rewrite Hr, Hd in Eb.
      rewrite Date_ge_Some, Date_le_Some in Eb.
      destruct (Z.leb_spec ws t); [|lia]. destruct (Z.leb_spec t we); [|lia].
      cbn in Eb. inversion Eb; subst.
      apply in_or_app. right. now left.
  - intros r k t Hr Hi Hk Hw.
    unfold expandEvent in Eb. rewrite Hr in Eb.
    apply in_or_app. right. apply in_or_app. left.
    eapply expandLoop_complete; eauto.
Qed.

(** Writing a day and reading it back.  For an instant [t] between the
    years 1000 and 9999, the text that [toYYYYMMDD] writes, read back the
    way the application reads dates, is the first instant of the local
    day of [t]; and two such instants are written the same if and only if
    they lie on the same local day. *)
Theorem written_day_reads_back t t' :
  1000 <= YearFromTime (LocalTime t) <= 9999 ->
  1000 <= YearFromTime (LocalTime t') <= 9999 ->
  Z.abs (t - TimeWithinDay (LocalTime t)) <= maxTime ->
  Date_new (toYYYYMMDD (Some t) ++ "T00:00:00")
  = Some (t - TimeWithinDay (LocalTime t))
  /\ (toYYYYMMDD (Some t) = toYYYYMMDD (Some t')
      <-> Day (LocalTime t) = Day (LocalTime t')).
Proof.
  intros Hy Hy' Hv.
  assert (Hparse : forall u, 1000 <= YearFromTime (LocalTime u) <= 9999 ->
             parseDateTime (toYYYYMMDD (Some u) ++ "T00:00:00")
             = Some (true, MakeDate (Day (LocalTime u)) 0)).
  { intros u Hu. rewrite toYYYYMMDD_localYMD.
    now apply parseDateTime_localYMD. }
  split.
  - unfold Date_new. rewrite (Hparse t Hy).
    replace (UTC (MakeDate (Day (LocalTime t)) 0))
      with (t - TimeWithinDay (LocalTime t)).
    + now apply TimeClip_valid.
    + pose proof (MakeDate_of_time (LocalTime t)) as E.
      unfold UTC, MakeDate, LocalTime in *. lia.
  - split.
    + intros E. pose proof (Hparse t Hy) as P. rewrite E, (Hparse t' Hy') in P.
      inversion P as [P']. unfold MakeDate, msPerDay in P'. lia.
    + intros E. rewrite !toYYYYMMDD_localYMD.
      unfold localYMD, DateFromTime, MonthFromTime, InLeapYear, DayWithinYear,
        YearFromTime.
      rewrite E. reflexivity.
Qed.

End ExpanderMore.

(* ================================================================== *)
(** ** The views of the calendar *)
(* ================================================================== *)

Import Views.

Section ViewFacts.
Context `{HostTimeZone}.

(** The first instant of the local day of [t]. *)
Definition dayStart (t : Z) : Z := t - TimeWithinDay (LocalTime t).

Lemma dayStart_le t : dayStart t <= t < dayStart t + msPerDay.
Proof. unfold dayStart, TimeWithinDay, msPerDay. div_lia. Qed.

Lemma LocalTime_dayStart t : LocalTime (dayStart t) = Day (LocalTime t) * msPerDay.
Proof.
  unfold dayStart. pose proof (MakeDate_of_time (LocalTime t)) as E.
  unfold MakeDate, LocalTime in *. lia.
Qed.

Lemma Day_shift L k : Day (L + k * msPerDay) = Day L + k.
Proof. unfold Day, msPerDay. div_lia. Qed.

Lemma TimeWithinDay_shift L k : TimeWithinDay (L + k * msPerDay) = TimeWithinDay L.
Proof. unfold TimeWithinDay, msPerDay. div_lia. Qed.

Lemma WeekDay_bounds t : 0 <= WeekDay t <= 6.
Proof. unfold WeekDay. div_lia. Qed.

Lemma WeekDay_shift L k : WeekDay (L + k * msPerDay) = (WeekDay L + k) mod 7.
Proof. unfold WeekDay. rewrite Day_shift. div_lia. Qed.

Lemma isToday_fields a b :
  isToday (Some a) (Some b) = true <-> Day (LocalTime a) = Day (LocalTime b).
Proof.
  unfold isToday. cbn [getDate getMonth getFullYear option_map strictEquals].
  rewrite !andb_true_iff, !Z.eqb_eq. split.
  - intros [[Hd Hm] Hy].
    rewrite <- (MakeDay_of_time (LocalTime a)), <- (MakeDay_of_time (LocalTime b)).
    congruence.
  - intros E.
    unfold DateFromTime, MonthFromTime, InLeapYear, DayWithinYear, YearFromTime.
    rewrite E. auto.
Qed.

(** [isToday] compares local calendar days.  It holds of two valid dates
    exactly when they lie on the same local day, whatever their times of
    day, and of no pair with an invalid date. *)
Theorem isToday_same_local_day date today :
  isToday date today = true
  <-> exists a b, date = Some a /\ today = Some b
                  /\ Day (LocalTime a) = Day (LocalTime b).
Proof.
  destruct date as [a|], today as [b|]; try (split; [discriminate|];
    intros (x & y & E1 & E2 & _); discriminate).
  rewrite isToday_fields. split.
  - intros E. exists a, b. auto.
  - intros (x & y & E1 & E2 & E). inversion E1; inversion E2; subst. exact E.
Qed.

End ViewFacts.

(* ================================================================== *)
(** ** Months *)
(* ================================================================== *)

(** Number of days of month [mn] (0-based) of a year that is a leap year
    ([leap = 1]) or not ([leap = 0]). *)
Definition DaysInMonth (mn leap : Z) : Z :=
  match mn with
  | 1 => 28 + leap
  | 3 | 5 | 8 | 10 => 30
  | _ => 31
  end.

Definition leapOf (y : Z) : Z := if DaysInYear y =? 366 then 1 else 0.

Section MonthFacts.

Ltac month_cases m H :=
  assert (H : m = 0 \/ m = 1 \/ m = 2 \/ m = 3 \/ m = 4 \/ m = 5 \/ m = 6
              \/ m = 7 \/ m = 8 \/ m = 9 \/ m = 10 \/ m = 11) by lia.

Lemma leapOf_cases y : leapOf y = 0 \/ leapOf y = 1.
Proof. unfold leapOf. split_tests; auto. Qed.

Lemma DaysInYear_leapOf y : DaysInYear y = 365 + leapOf y.
Proof.
  unfold leapOf. destruct (DaysInYear_cases y) as [E | E]; rewrite E; reflexivity.
Qed.

Lemma DaysInMonth_bounds mn leap : 0 <= leap <= 1 -> 28 <= DaysInMonth mn leap <= 31.
Proof.
  intros Hl. unfold DaysInMonth.
  destruct mn as [|p|p]; try lia.
  do 4 (destruct p as [p|p|]; try lia).
Qed.

(** [MakeDay] meets its definition in ECMAScript for every day of the
    month: the time it yields has the year, month and day asked for. *)
Lemma MakeDay_fields y m d tod :
  1 <= d <= DaysInMonth (m mod 12) (leapOf (y + m / 12)) ->
  0 <= tod < msPerDay ->
  let t := MakeDate (MakeDay y m d) tod in
  Day t = MakeDay y m d
  /\ TimeWithinDay t = tod
  /\ YearFromTime t = y + m / 12
  /\ MonthFromTime t = m mod 12
  /\ DateFromTime t = d.
Proof.
  intros Hd Htod. cbn zeta. set (t := MakeDate (MakeDay y m d) tod).
  assert (Hm : 0 <= m mod 12 < 12) by (apply Z.mod_pos_bound; lia).
  assert (Hday : Day t = MakeDay y m d)
    by (unfold t, Day, MakeDate, msPerDay in *; div_lia).
  assert (Htw : TimeWithinDay t = tod)
    by (unfold t, TimeWithinDay, MakeDate, msPerDay in *; div_lia).
  set (ym := y + m / 12) in *.
  pose proof (leapOf_cases ym) as Hl01.
  pose proof (DaysInYear_leapOf ym) as Hl.
  set (leap := leapOf ym) in *.
  assert (Hmd : MakeDay y m d = DayFromYear ym + DayFromMonth (m mod 12) leap + d - 1)
    by (unfold MakeDay; fold ym; fold (leapOf ym); fold leap; lia).
  assert (Hdm : 0 <= DayFromMonth (m mod 12) leap + d - 1 < 365 + leap).
  { month_cases (m mod 12) Hk.
    repeat (destruct Hk as [Hk | Hk];
            [rewrite Hk in *; cbn [DayFromMonth DaysInMonth] in *; lia|]).
    rewrite Hk in *; cbn [DayFromMonth DaysInMonth] in *; lia. }
  assert (Hy : YearFromTime t = ym).
  { apply YearFromTime_unique. unfold TimeFromYear.
    rewrite DayFromYear_succ, Hl. unfold t, MakeDate. rewrite Hmd.
    unfold msPerDay in *. lia. }
  assert (Hdw : DayWithinYear t = DayFromMonth (m mod 12) leap + d - 1)
    by (unfold DayWithinYear; rewrite Hy, Hday, Hmd; lia).
  assert (Hil : InLeapYear t = leap) by (unfold InLeapYear; now rewrite Hy).
  split; [exact Hday|]. split; [exact Htw|]. split; [exact Hy|].
  unfold DateFromTime, MonthFromTime. rewrite Hdw, Hil.
  clear - Hm Hl01 Hd.
  month_cases (m mod 12) Hk.
  repeat (destruct Hk as [Hk | Hk];
          [rewrite Hk in *; cbn [DayFromMonth DaysInMonth] in *;
           split_tests; try lia; cbn [Z.eqb]; lia|]).
  rewrite Hk in *; cbn [DayFromMonth DaysInMonth] in *;
    split_tests; try lia; cbn [Z.eqb]; lia.
Qed.

(** The first of the next month comes [DaysInMonth] days after the first
    of this one; after December it is the first of January. *)
Lemma MakeDay_next_first y m :
  0 <= m <= 11 ->
  MakeDay y (m + 1) 1 = MakeDay y m 1 + DaysInMonth m (leapOf y).
Proof.
  intros Hm. unfold MakeDay. fold (leapOf (y + m / 12)).
  fold (leapOf (y + (m + 1) / 12)).
  replace (m / 12) with 0 by div_lia.
  replace (m mod 12) with m by div_lia.
  rewrite Z.add_0_r.
  pose proof (leapOf_cases y) as Hl.
  month_cases m Hk.
  repeat (destruct Hk as [Hk | Hk];
          [subst m; cbn [Z.add Pos.add Pos.succ Z.div Z.modulo Z.div_eucl
                         Z.pos_div_eucl Z.leb Z.ltb Z.compare Pos.compare
                         Pos.compare_cont Z.sub Z.opp Z.mul Pos.mul fst snd
                         Z.pos_sub Z.double Z.succ_double Z.pred_double
                         Pos.pred_double Z.eqb Pos.eqb];
           rewrite ?Z.add_0_r; cbn [DayFromMonth DaysInMonth]; lia|]).
  subst m. change ((11 + 1) / 12) with 1. change ((11 + 1) mod 12) with 0.
  cbn [DayFromMonth DaysInMonth]. rewrite DayFromYear_succ, DaysInYear_leapOf. lia.
Qed.

(** The day of the month never exceeds the length of the month. *)
Lemma DateFromTime_le_DaysInMonth t :
  DateFromTime t <= DaysInMonth (MonthFromTime t) (InLeapYear t).
Proof.
  pose proof (DayWithinYear_bounds t) as Hd.
  rewrite InLeapYear_days in Hd.
  pose proof (InLeapYear_cases t) as Hl.
  unfold DateFromTime, MonthFromTime.
  split_tests; cbn [Z.eqb DaysInMonth]; lia.
Qed.

Lemma InLeapYear_leapOf t : InLeapYear t = leapOf (YearFromTime t).
Proof. reflexivity. Qed.

End MonthFacts.

Section WindowFacts.
Context `{HostTimeZone}.

Lemma LocalTime_shift x n : LocalTime (x + n) = LocalTime x + n.
Proof. unfold LocalTime. lia. Qed.

Lemma dayStart_shift x k : dayStart (x + k * msPerDay) = dayStart x + k * msPerDay.
Proof. unfold dayStart. rewrite LocalTime_shift, TimeWithinDay_shift. lia. Qed.

Lemma dayStart_startOfLocalDay x :
  Z.abs (dayStart x) <= maxTime -> startOfLocalDay (dayStart x).
Proof.
  intros Hx. split; [|exact Hx]. rewrite LocalTime_dayStart.
  unfold TimeWithinDay, msPerDay. div_lia.
Qed.

Lemma dayStart_idem x : dayStart (dayStart x) = dayStart x.
Proof.
  unfold dayStart at 1. rewrite LocalTime_dayStart.
  replace (TimeWithinDay (Day (LocalTime x) * msPerDay)) with 0; [lia|].
  unfold TimeWithinDay, msPerDay. div_lia.
Qed.

Lemma UTC_Day x : UTC (Day (LocalTime x) * msPerDay) = dayStart x.
Proof. rewrite <- LocalTime_dayStart. apply UTC_LocalTime. Qed.

(** [d.setHours(0, 0, 0, 0)] and [d.setHours(23, 59, 59, 999)] *)
Lemma setHours4_first x :
  Z.abs (dayStart x) <= maxTime ->
  setHours4 (Some x) 0 0 0 0 = Some (dayStart x).
Proof.
  intros Hx. cbn [setHours4]. change (MakeTime 0 0 0 0) with 0.
  unfold MakeDate. rewrite Z.add_0_r, UTC_Day. now apply TimeClip_valid.
Qed.

Lemma setHours4_last x :
  Z.abs (dayStart x + msPerDay - 1) <= maxTime ->
  setHours4 (Some x) 23 59 59 999 = Some (dayStart x + msPerDay - 1).
Proof.
  intros Hx. cbn [setHours4]. change (MakeTime 23 59 59 999) with (msPerDay - 1).
  unfold MakeDate.
  replace (UTC (Day (LocalTime x) * msPerDay + (msPerDay - 1)))
    with (dayStart x + msPerDay - 1)
    by (rewrite <- UTC_Day; unfold UTC; lia).
  now apply TimeClip_valid.
Qed.

Lemma nth_map_seq {A} (f : nat -> A) n i d :
  (i < n)%nat -> nth i (map f (seq 0 n)) d = f i.
Proof.
  intros Hi.
  rewrite (nth_indep _ d (f 0%nat)) by (rewrite length_map, length_seq; exact Hi).
  rewrite map_nth, seq_nth by exact Hi. reflexivity.
Qed.

Lemma getWeekDays_eq t :
  Z.abs t + 7 * msPerDay <= maxTime ->
  getWeekDays (Some t)
  = map (fun i => Some (t - WeekDay (LocalTime t) * msPerDay
                        + Z.of_nat i * msPerDay))
        (seq 0 7).
Proof.
  intros Ht. pose proof (WeekDay_bounds (LocalTime t)) as Hw.
  unfold getWeekDays. cbn [getDay option_map].
  rewrite setDate_sub.
  rewrite TimeClip_valid by (unfold msPerDay in *; lia).
  apply map_ext_in. intros i Hi. apply in_seq in Hi.
  rewrite setDate_add. apply TimeClip_valid. unfold msPerDay in *. lia.
Qed.

(** [getWeekDays] returns the seven days of the week of its argument, from
    Sunday to Saturday, each at the argument's time of day; the argument
    itself is the entry of its own day of the week. *)
Theorem week_days_run_from_sunday_to_saturday t :
  Z.abs t + 7 * msPerDay <= maxTime ->
  List.length (getWeekDays (Some t)) = 7%nat
  /\ (forall i, 0 <= i <= 6 ->
        exists u, nth (Z.to_nat i) (getWeekDays (Some t)) NaN = Some u
                  /\ getDay (Some u) = Some i
                  /\ Day (LocalTime u)
                     = Day (LocalTime t) - WeekDay (LocalTime t) + i
                  /\ TimeWithinDay (LocalTime u) = TimeWithinDay (LocalTime t))
  /\ nth (Z.to_nat (WeekDay (LocalTime t))) (getWeekDays (Some t)) NaN = Some t.
Proof.
  intros Ht. rewrite (getWeekDays_eq t Ht).
  pose proof (WeekDay_bounds (LocalTime t)) as Hw.
  split; [reflexivity|]. split.
  - intros i Hi.
    assert (Hn : (Z.to_nat i < 7)%nat) by lia.
    eexists. split.
    + rewrite nth_map_seq by exact Hn. rewrite Z2Nat.id by lia. reflexivity.
    + replace (t - WeekDay (LocalTime t) * msPerDay + i * msPerDay)
        with (t + (i - WeekDay (LocalTime t)) * msPerDay) by lia.
      cbn [getDay option_map].
      rewrite LocalTime_shift, WeekDay_shift, Day_shift, TimeWithinDay_shift.
      split; [f_equal; div_lia|]. split; [lia|reflexivity].
  - assert (Hn : (Z.to_nat (WeekDay (LocalTime t)) < 7)%nat) by lia.
    rewrite nth_map_seq by exact Hn. rewrite Z2Nat.id by lia.
    f_equal. lia.
Qed.

Lemma viewWindow_day t :
  Z.abs t + msPerDay <= maxTime ->
  viewWindow day (Some t) = (Some (dayStart t), Some (dayStart t + msPerDay - 1)).
Proof.
  intros Ht. pose proof (dayStart_le t) as Hd.
  unfold viewWindow.
  rewrite setHours4_first, setHours4_last by (unfold msPerDay in *; lia).
  reflexivity.
Qed.

Lemma viewWindow_week t :
  Z.abs t + 8 * msPerDay <= maxTime ->
  let vs := dayStart t - WeekDay (LocalTime t) * msPerDay in
  viewWindow week (Some t) = (Some vs, Some (vs + 7 * msPerDay - 1)).
Proof.
  intros Ht. cbn zeta. pose proof (dayStart_le t) as Hd.
  pose proof (WeekDay_bounds (LocalTime t)) as Hw.
  unfold viewWindow. rewrite getWeekDays_eq by (unfold msPerDay in *; lia).
  cbn [seq map nth Z.of_nat Pos.of_succ_nat Pos.succ].
  replace (t - WeekDay (LocalTime t) * msPerDay + 0 * msPerDay)
    with (t + (- WeekDay (LocalTime t)) * msPerDay) by lia.
  replace (t - WeekDay (LocalTime t) * msPerDay + 6 * msPerDay)
    with (t + (6 - WeekDay (LocalTime t)) * msPerDay) by lia.
  rewrite setHours4_first, setHours4_last;
    rewrite ?dayStart_shift; try (unfold msPerDay in *; lia).
  f_equal; f_equal; lia.
Qed.

(** In the day view the window is the local day of the current date; in
    the week view it is the seven local days from the Sunday on or before
    the current date.  Both run from the first to the last millisecond of a
    local day and contain the current date. *)
Theorem day_and_week_windows_are_whole_days t :
  Z.abs t + 8 * msPerDay <= maxTime ->
  exists vd vw,
    viewWindow day (Some t) = (Some vd, Some (vd + msPerDay - 1))
    /\ viewWindow week (Some t) = (Some vw, Some (vw + 7 * msPerDay - 1))
    /\ startOfLocalDay vd /\ startOfLocalDay vw
    /\ vd <= t <= vd + msPerDay - 1
    /\ getDay (Some vw) = Some 0
    /\ vw <= vd /\ vd + msPerDay <= vw + 7 * msPerDay.
Proof.
  intros Ht. pose proof (dayStart_le t) as Hd.
  pose proof (WeekDay_bounds (LocalTime t)) as Hw.
  exists (dayStart t), (dayStart t - WeekDay (LocalTime t) * msPerDay).
  split; [apply viewWindow_day; unfold msPerDay in *; lia|].
  split; [apply viewWindow_week; exact Ht|].
  split; [apply dayStart_startOfLocalDay; unfold msPerDay in *; lia|].
  split.
  { replace (dayStart t - WeekDay (LocalTime t) * msPerDay)
      with (dayStart (t + (- WeekDay (LocalTime t)) * msPerDay))
      by (rewrite dayStart_shift; lia).
    apply dayStart_startOfLocalDay. rewrite dayStart_shift.
    unfold msPerDay in *. lia. }
  split; [lia|]. split.
  { cbn [getDay option_map]. f_equal.
    replace (dayStart t - WeekDay (LocalTime t) * msPerDay)
      with (dayStart t + (- WeekDay (LocalTime t)) * msPerDay) by lia.
    rewrite LocalTime_shift, WeekDay_shift.
    unfold WeekDay at 1. rewrite LocalTime_dayStart.
    replace (Day (Day (LocalTime t) * msPerDay)) with (Day (LocalTime t))
      by (unfold Day, msPerDay; div_lia).
    unfold WeekDay. div_lia. }
  unfold msPerDay in *. lia.
Qed.

End WindowFacts.

Section MonthWindow.
Context `{HostTimeZone}.

(** Two instants in the same local month of the same local year. *)
Definition sameMonth (u t : Z) : Prop :=
  YearFromTime (LocalTime u) = YearFromTime (LocalTime t)
  /\ MonthFromTime (LocalTime u) = MonthFromTime (LocalTime t).

Lemma Date_ymd_eq y m d :
  ~ (0 <= y <= 99) ->
  Date_ymd y m d = TimeClip (UTC (MakeDay y m d * msPerDay)).
Proof.
  intros Hy. unfold Date_ymd.
  replace ((0 <=? y) && (y <=? 99)) with false
    by (symmetry; apply andb_false_iff; rewrite Z.leb_gt, Z.leb_gt; lia).
  change (MakeTime 0 0 0 0) with 0. unfold MakeDate. now rewrite Z.add_0_r.
Qed.

Lemma Day_days n : Day (n * msPerDay) = n.
Proof. unfold Day, msPerDay. div_lia. Qed.

Lemma TimeWithinDay_days n : TimeWithinDay (n * msPerDay) = 0.
Proof. unfold TimeWithinDay, msPerDay. div_lia. Qed.

Lemma dayStart_UTC_days n : dayStart (UTC (n * msPerDay)) = UTC (n * msPerDay).
Proof. unfold dayStart. rewrite LocalTime_UTC, TimeWithinDay_days. lia. Qed.

(** The day number of the first of the local month of [t]. *)
Definition firstOfMonth (t : Z) : Z :=
  Day (LocalTime t) - (DateFromTime (LocalTime t) - 1).

Lemma MakeDay_firstOfMonth t :
  MakeDay (YearFromTime (LocalTime t)) (MonthFromTime (LocalTime t)) 1
  = firstOfMonth t.
Proof.
  unfold firstOfMonth.
  rewrite <- (MakeDay_of_time (LocalTime t)) at 1.
  unfold MakeDay. lia.
Qed.

Lemma MakeDay_lastOfMonth t :
  MakeDay (YearFromTime (LocalTime t)) (MonthFromTime (LocalTime t) + 1) 0
  = firstOfMonth t
    + DaysInMonth (MonthFromTime (LocalTime t)) (InLeapYear (LocalTime t)) - 1.
Proof.
  rewrite <- MakeDay_firstOfMonth, InLeapYear_leapOf.
  rewrite <- MakeDay_next_first by apply MonthFromTime_bounds.
  unfold MakeDay. lia.
Qed.

Lemma sameMonth_Day u t :
  sameMonth u t ->
  firstOfMonth t <= Day (LocalTime u)
  < firstOfMonth t
    + DaysInMonth (MonthFromTime (LocalTime t)) (InLeapYear (LocalTime t)).
Proof.
  intros [Ey Em].
  pose proof (DateFromTime_bounds (LocalTime u)) as Hb.
  pose proof (DateFromTime_le_DaysInMonth (LocalTime u)) as Hd.
  assert (E : firstOfMonth u = firstOfMonth t)
    by (rewrite <- !MakeDay_firstOfMonth, Ey, Em; reflexivity).
  assert (El : InLeapYear (LocalTime u) = InLeapYear (LocalTime t))
    by (unfold InLeapYear; now rewrite Ey).
  rewrite <- E, <- El, <- Em. unfold firstOfMonth. lia.
Qed.

Lemma Day_sameMonth u t :
  firstOfMonth t <= Day (LocalTime u)
  < firstOfMonth t
    + DaysInMonth (MonthFromTime (LocalTime t)) (InLeapYear (LocalTime t)) ->
  sameMonth u t.
Proof.
  intros Hd. set (L := LocalTime t) in *.
  pose proof (MonthFromTime_bounds L) as Hm.
  pose proof (MakeDay_fields (YearFromTime L) (MonthFromTime L)
                (Day (LocalTime u) - firstOfMonth t + 1)
                (TimeWithinDay (LocalTime u))) as F.
  replace (MonthFromTime L / 12) with 0 in F by div_lia.
  replace (MonthFromTime L mod 12) with (MonthFromTime L) in F by div_lia.
  rewrite Z.add_0_r in F.
  change (leapOf (YearFromTime L)) with (InLeapYear L) in F.
  assert (Htw : 0 <= TimeWithinDay (LocalTime u) < msPerDay)
    by (unfold TimeWithinDay, msPerDay; div_lia).
  specialize (F ltac:(lia) Htw). cbn zeta in F.
  replace (MakeDay (YearFromTime L) (MonthFromTime L)
             (Day (LocalTime u) - firstOfMonth t + 1))
    with (Day (LocalTime u)) in F
    by (pose proof (MakeDay_firstOfMonth t) as E; fold L in E;
        unfold MakeDay in *; lia).
  rewrite MakeDate_of_time in F.
  destruct F as (_ & _ & Fy & Fm & _). split; assumption.
Qed.

Lemma Day_le_time a b : a <= b -> Day a <= Day b.
Proof. unfold Day, msPerDay. intros. div_lia. Qed.

(** The month view's window, worked out: it starts on the Sunday on or
    before the first of the month and lasts [weeks] whole weeks. *)
Lemma viewWindow_month t :
  ~ (0 <= YearFromTime (LocalTime t) <= 99) ->
  Z.abs t + 45 * msPerDay <= maxTime ->
  let F := firstOfMonth t in
  let dim := DaysInMonth (MonthFromTime (LocalTime t)) (InLeapYear (LocalTime t)) in
  let w := (F + 4) mod 7 in
  let w' := (F + dim - 1 + 4) mod 7 in
  exists weeks,
    dim + 6 - w' + w = 7 * weeks /\ 4 <= weeks <= 6
    /\ viewWindow month (Some t)
       = (Some (UTC ((F - w) * msPerDay)),
          Some (UTC ((F - w) * msPerDay) + weeks * (7 * msPerDay) - 1)).
Proof.
  intros Hy Ht. cbn zeta.
  set (L := LocalTime t). set (F := firstOfMonth t).
  set (dim := DaysInMonth (MonthFromTime L) (InLeapYear L)).
  pose proof (DateFromTime_bounds L) as HD.
  pose proof (DateFromTime_le_DaysInMonth L) as HDd. fold dim in HDd.
  assert (Hdim : 28 <= dim <= 31)
    by (apply DaysInMonth_bounds; destruct (InLeapYear_cases L); lia).
  set (w := (F + 4) mod 7). set (w' := (F + dim - 1 + 4) mod 7).
  assert (Hw : 0 <= w <= 6) by (unfold w; div_lia).
  assert (Hw' : 0 <= w' <= 6) by (unfold w'; div_lia).
  assert (HF : F * msPerDay <= L < (F + 31) * msPerDay).
  { unfold F, firstOfMonth. fold L. unfold Day, msPerDay. div_lia. }
  assert (Hweeks : exists weeks, dim + 6 - w' + w = 7 * weeks /\ 4 <= weeks <= 6).
  { exists ((dim + 6 - w' + w) / 7). unfold w, w' in *. div_lia. }
  destruct Hweeks as (weeks & Ew & Hweeks).
  exists weeks. split; [exact Ew|]. split; [exact Hweeks|].
  unfold viewWindow.
  cbn [getFullYear getMonth option_map newDate num_add]. fold L.
  rewrite !Date_ymd_eq by exact Hy.
  unfold L. rewrite MakeDay_firstOfMonth, MakeDay_lastOfMonth. fold L F dim.
  rewrite !TimeClip_valid
    by (unfold UTC, L, LocalTime, msPerDay in *; lia).
  cbn [getDay option_map num_sub].
  rewrite setDate_sub, setDate_add, !LocalTime_UTC.
  unfold WeekDay. rewrite !Day_days. fold w w'.
  rewrite !TimeClip_valid
    by (unfold UTC, L, LocalTime, msPerDay in *; lia).
  replace (UTC (F * msPerDay) - w * msPerDay) with (UTC ((F - w) * msPerDay))
    by (unfold UTC; lia).
  replace (UTC ((F + dim - 1) * msPerDay) + (6 - w') * msPerDay)
    with (UTC ((F + dim - 1 + 6 - w') * msPerDay)) by (unfold UTC; lia).
  rewrite setHours4_first, setHours4_last; rewrite ?dayStart_UTC_days;
    try (unfold UTC, L, LocalTime, msPerDay in *; lia).
  f_equal. f_equal. unfold UTC. lia.
Qed.

(** The month view's window.  It is made of whole weeks, four to six of
    them, from a Sunday's first millisecond to a Saturday's last; it
    contains every instant of the local month of the current date; and its
    first and its last week each contain a day of that month.  Years 0 to
    99 are left out: [new Date(year, month, 1)] reads them as 1900 to
    1999. *)
Theorem month_window_is_whole_weeks_around_the_month t :
  ~ (0 <= YearFromTime (LocalTime t) <= 99) ->
  Z.abs t + 45 * msPerDay <= maxTime ->
  exists vs weeks,
    viewWindow month (Some t) = (Some vs, Some (vs + weeks * (7 * msPerDay) - 1))
    /\ startOfLocalDay vs
    /\ getDay (Some vs) = Some 0
    /\ 4 <= weeks <= 6
    /\ (forall u, sameMonth u t -> vs <= u <= vs + weeks * (7 * msPerDay) - 1)
    /\ sameMonth (vs + 6 * msPerDay) t
    /\ sameMonth (vs + (weeks - 1) * (7 * msPerDay)) t.
Proof.
  intros Hy Ht.
  destruct (viewWindow_month t Hy Ht) as (weeks & Ew & Hweeks & Hvs).
  set (L := LocalTime t) in *. set (F := firstOfMonth t) in *.
  set (dim := DaysInMonth (MonthFromTime L) (InLeapYear L)) in *.
  set (w := (F + 4) mod 7) in *. set (w' := (F + dim - 1 + 4) mod 7) in *.
  assert (Hdim : 28 <= dim <= 31)
    by (apply DaysInMonth_bounds; destruct (InLeapYear_cases L); lia).
  assert (Hw : 0 <= w <= 6) by (unfold w; div_lia).
  assert (Hw' : 0 <= w' <= 6) by (unfold w'; div_lia).
  assert (HF : F * msPerDay <= L < (F + 31) * msPerDay).
  { pose proof (DateFromTime_bounds L) as HD.
    unfold F, firstOfMonth. fold L. unfold Day, msPerDay. div_lia. }
  exists (UTC ((F - w) * msPerDay)), weeks.
  split; [exact Hvs|]. split.
  { split; [rewrite LocalTime_UTC; apply TimeWithinDay_days|].
    unfold UTC, L, LocalTime, msPerDay in *. lia. }
  split.
  { cbn [getDay option_map]. rewrite LocalTime_UTC. unfold WeekDay.
    rewrite Day_days. f_equal. unfold w. div_lia. }
  split; [exact Hweeks|]. split.
  { intros u Hu. apply sameMonth_Day in Hu. fold F L dim in Hu.
    assert (Hu' : Day (LocalTime u) * msPerDay <= LocalTime u
                  < (Day (LocalTime u) + 1) * msPerDay)
      by (unfold Day, msPerDay; div_lia).
    clear - Hu Hu' Ew Hw Hw'.
    unfold UTC, LocalTime, msPerDay in *. lia. }
  split.
  - apply Day_sameMonth. fold F L dim.
    replace (LocalTime (UTC ((F - w) * msPerDay) + 6 * msPerDay))
      with ((F - w + 6) * msPerDay) by (unfold UTC, LocalTime; lia).
    rewrite Day_days. lia.
  - apply Day_sameMonth. fold F L dim.
    replace (LocalTime (UTC ((F - w) * msPerDay) + (weeks - 1) * (7 * msPerDay)))
      with ((F - w + 7 * weeks - 7) * msPerDay) by (unfold UTC, LocalTime; lia).
    rewrite Day_days. lia.
Qed.

End MonthWindow.

(** Number of days of month [m] of year [y], for any month number: months
    outside 0..11 belong to an earlier or a later year. *)
Definition monthLength (y m : Z) : Z :=
  DaysInMonth (m mod 12) (leapOf (y + m / 12)).

Section Navigation.
Context `{HostTimeZone}.

Lemma MakeDay_carry y m j d :
  MakeDay (y + m / 12) (m mod 12 + j) d = MakeDay y (m + j) d.
Proof.
  unfold MakeDay.
  replace (y + m / 12 + (m mod 12 + j) / 12) with (y + (m + j) / 12) by div_lia.
  replace ((m mod 12 + j) mod 12) with ((m + j) mod 12) by div_lia.
  reflexivity.
Qed.

Lemma monthLength_carry y m j :
  monthLength (y + m / 12) (m mod 12 + j) = monthLength y (m + j).
Proof.
  unfold monthLength.
  replace (y + m / 12 + (m mod 12 + j) / 12) with (y + (m + j) / 12) by div_lia.
  replace ((m mod 12 + j) mod 12) with ((m + j) mod 12) by div_lia.
  reflexivity.
Qed.

Lemma monthLength_bounds y m : 28 <= monthLength y m <= 31.
Proof. apply DaysInMonth_bounds. destruct (leapOf_cases (y + m / 12)); lia. Qed.

(** One month later is [monthLength] days later. *)
Lemma MakeDay_month_add y m d :
  MakeDay y (m + 1) d = MakeDay y m d + monthLength y m.
Proof.
  assert (Hm : 0 <= m mod 12 <= 11) by div_lia.
  pose proof (MakeDay_next_first (y + m / 12) (m mod 12) Hm) as E.
  rewrite MakeDay_carry in E.
  pose proof (MakeDay_carry y m 0 1) as E0. rewrite !Z.add_0_r in E0.
  rewrite E0 in E. fold (monthLength y m) in E.
  unfold MakeDay in *. lia.
Qed.

Lemma handleNext_month t :
  handleNext month (Some t)
  = TimeClip (t + monthLength (YearFromTime (LocalTime t))
                              (MonthFromTime (LocalTime t)) * msPerDay).
Proof.
  cbn [handleNext setMonth getMonth option_map num_add]. f_equal.
  rewrite MakeDay_month_add, MakeDay_of_time.
  pose proof (MakeDate_of_time (LocalTime t)) as E.
  unfold UTC, MakeDate, LocalTime in *. lia.
Qed.

Lemma handlePrev_month t :
  handlePrev month (Some t)
  = TimeClip (t - monthLength (YearFromTime (LocalTime t))
                              (MonthFromTime (LocalTime t) - 1) * msPerDay).
Proof.
  cbn [handlePrev setMonth getMonth option_map num_sub]. f_equal.
  pose proof (MakeDay_month_add (YearFromTime (LocalTime t))
                (MonthFromTime (LocalTime t) - 1)
                (DateFromTime (LocalTime t))) as E.
  replace (MonthFromTime (LocalTime t) - 1 + 1)
    with (MonthFromTime (LocalTime t)) in E by lia.
  rewrite MakeDay_of_time in E.
  pose proof (MakeDate_of_time (LocalTime t)) as E'.
  unfold UTC, MakeDate, LocalTime in *. lia.
Qed.

(** The fields of the date that [setMonth] builds, when the day exists in
    the month asked for. *)
Lemma setMonth_fields t m :
  DateFromTime (LocalTime t) <= monthLength (YearFromTime (LocalTime t)) m ->
  let t' := UTC (MakeDate (MakeDay (YearFromTime (LocalTime t)) m
                                   (DateFromTime (LocalTime t)))
                          (TimeWithinDay (LocalTime t))) in
  YearFromTime (LocalTime t') = YearFromTime (LocalTime t) + m / 12
  /\ MonthFromTime (LocalTime t') = m mod 12
  /\ DateFromTime (LocalTime t') = DateFromTime (LocalTime t)
  /\ TimeWithinDay (LocalTime t') = TimeWithinDay (LocalTime t).
Proof.
  intros Hd. cbn zeta. rewrite LocalTime_UTC.
  pose proof (DateFromTime_bounds (LocalTime t)) as Hb.
  assert (Htw : 0 <= TimeWithinDay (LocalTime t) < msPerDay)
    by (unfold TimeWithinDay, msPerDay; div_lia).
  destruct (MakeDay_fields (YearFromTime (LocalTime t)) m
              (DateFromTime (LocalTime t)) (TimeWithinDay (LocalTime t)))
    as (_ & Ftw & Fy & Fm & Fd); [unfold monthLength in Hd; lia|exact Htw|].
  auto.
Qed.

(** In the month view, Next moves the current date ahead by the length of
    its month.  The day of the month is kept when the next month has such
    a day; otherwise the date runs over into the month after the next one,
    which the view then shows. *)
Theorem month_step_keeps_the_day_or_skips_a_month t :
  Z.abs t + 31 * msPerDay <= maxTime ->
  let Y := YearFromTime (LocalTime t) in
  let M := MonthFromTime (LocalTime t) in
  let D := DateFromTime (LocalTime t) in
  exists t',
    handleNext month (Some t) = Some t'
    /\ t' = t + monthLength Y M * msPerDay
    /\ (D <= monthLength Y (M + 1) ->
        getFullYear (Some t') = Some (Y + (M + 1) / 12)
        /\ getMonth (Some t') = Some ((M + 1) mod 12)
        /\ getDate (Some t') = Some D)
    /\ (monthLength Y (M + 1) < D ->
        getFullYear (Some t') = Some (Y + (M + 2) / 12)
        /\ getMonth (Some t') = Some ((M + 2) mod 12)
        /\ getDate (Some t') = Some (D - monthLength Y (M + 1))).
Proof.
  intros Ht Y M D.
  pose proof (monthLength_bounds Y M) as Hl.
  pose proof (monthLength_bounds Y (M + 1)) as Hl1.
  pose proof (monthLength_bounds Y (M + 1 + 1)) as Hl2.
  pose proof (DateFromTime_bounds (LocalTime t)) as Hb. fold D in Hb.
  exists (t + monthLength Y M * msPerDay).
  split; [rewrite handleNext_month; apply TimeClip_valid;
          fold Y M; unfold msPerDay in *; lia|].
  split; [reflexivity|].
  assert (Et : t + monthLength Y M * msPerDay
               = UTC (MakeDate (MakeDay Y (M + 1) D) (TimeWithinDay (LocalTime t)))).
  { unfold Y, M, D. rewrite MakeDay_month_add, MakeDay_of_time.
    pose proof (MakeDate_of_time (LocalTime t)) as E.
    unfold UTC, MakeDate, LocalTime in *. lia. }
  assert (Htw : 0 <= TimeWithinDay (LocalTime t) < msPerDay)
    by (unfold TimeWithinDay, msPerDay; div_lia).
  split.
  - intros Hd. rewrite Et. cbn [getFullYear getMonth getDate option_map].
    destruct (setMonth_fields t (M + 1) Hd) as (Fy & Fm & Fd & _).
    fold Y D in Fy, Fm, Fd. rewrite Fy, Fm, Fd. auto.
  - intros Hd. rewrite Et. cbn [getFullYear getMonth getDate option_map].
    rewrite LocalTime_UTC.
    replace (MakeDay Y (M + 1) D)
      with (MakeDay Y (M + 2) (D - monthLength Y (M + 1)))
      by (replace (M + 2) with (M + 1 + 1) by lia;
          rewrite MakeDay_month_add; unfold MakeDay; lia).
    replace (M + 1 + 1) with (M + 2) in Hl2 by lia.
    destruct (MakeDay_fields Y (M + 2) (D - monthLength Y (M + 1))
                (TimeWithinDay (LocalTime t)))
      as (_ & _ & Fy & Fm & Fd); [unfold monthLength in *; lia|exact Htw|].
    rewrite Fy, Fm, Fd. auto.
Qed.

(** Previous undoes Next and Next undoes Previous: always in the day and
    week views, and in the month view on the days 1 to 28, which every
    month has. *)
Theorem next_then_previous_returns viewMode t :
  Z.abs t + 31 * msPerDay <= maxTime ->
  (viewMode = month -> DateFromTime (LocalTime t) <= 28) ->
  handlePrev viewMode (handleNext viewMode (Some t)) = Some t
  /\ handleNext viewMode (handlePrev viewMode (Some t)) = Some t.
Proof.
  intros Ht Hd. destruct viewMode.
  - specialize (Hd eq_refl).
    set (Y := YearFromTime (LocalTime t)) in *.
    set (M := MonthFromTime (LocalTime t)) in *.
    pose proof (monthLength_bounds Y M) as Hl.
    pose proof (monthLength_bounds Y (M + 1)) as Hl1.
    pose proof (monthLength_bounds Y (M - 1)) as Hl2.
    split.
    + rewrite handleNext_month. fold Y M.
      rewrite TimeClip_valid by (unfold msPerDay in *; lia).
      rewrite handlePrev_month.
      assert (Et : t + monthLength Y M * msPerDay
                   = UTC (MakeDate (MakeDay Y (M + 1) (DateFromTime (LocalTime t)))
                                   (TimeWithinDay (LocalTime t)))).
      { unfold Y, M. rewrite MakeDay_month_add, MakeDay_of_time.
        pose proof (MakeDate_of_time (LocalTime t)) as E.
        unfold UTC, MakeDate, LocalTime in *. lia. }
      destruct (setMonth_fields t (M + 1)) as (Fy & Fm & _); [fold Y; lia|].
      fold Y in Fy, Fm. rewrite <- Et in Fy, Fm. rewrite Fy, Fm.
      replace ((M + 1) mod 12 - 1) with ((M + 1) mod 12 + -1) by lia.
      rewrite monthLength_carry.
      replace (M + 1 + -1) with M by lia.
      rewrite TimeClip_valid by (unfold msPerDay in *; lia).
      f_equal. lia.
    + rewrite handlePrev_month. fold Y M.
      rewrite TimeClip_valid by (unfold msPerDay in *; lia).
      rewrite handleNext_month.
      assert (Et : t - monthLength Y (M - 1) * msPerDay
                   = UTC (MakeDate (MakeDay Y (M - 1) (DateFromTime (LocalTime t)))
                                   (TimeWithinDay (LocalTime t)))).
      { pose proof (MakeDay_month_add Y (M - 1) (DateFromTime (LocalTime t))) as E.
        replace (M - 1 + 1) with M in E by lia.
        pose proof (MakeDay_of_time (LocalTime t)) as E2. fold Y M in E2.
        rewrite E2 in E.
        pose proof (MakeDate_of_time (LocalTime t)) as E'.
        unfold UTC, MakeDate, LocalTime in *. lia. }
      destruct (setMonth_fields t (M - 1)) as (Fy & Fm & _); [fold Y; lia|].
      fold Y in Fy, Fm. rewrite <- Et in Fy, Fm. rewrite Fy, Fm.
      pose proof (monthLength_carry Y (M - 1) 0) as Ec.
      rewrite !Z.add_0_r in Ec. rewrite Ec.
      rewrite TimeClip_valid by (unfold msPerDay in *; lia).
      f_equal. lia.
  - unfold handleNext, handlePrev. rewrite setDate_add, setDate_sub.
    rewrite !TimeClip_valid by (unfold msPerDay in *; lia).
    rewrite setDate_add, setDate_sub.
    rewrite !TimeClip_valid by (unfold msPerDay in *; lia).
    split; f_equal; lia.
  - unfold handleNext, handlePrev. rewrite setDate_add, setDate_sub.
    rewrite !TimeClip_valid by (unfold msPerDay in *; lia).
    rewrite setDate_add, setDate_sub.
    rewrite !TimeClip_valid by (unfold msPerDay in *; lia).
    split; f_equal; lia.
Qed.

End Navigation.

(* ================================================================== *)
(** ** What the views display *)
(* ================================================================== *)

Section DisplayedEvents.
Context `{HostTimeZone}.

Lemma visibleEvents_In calendars events e :
  In e (visibleEvents calendars events)
  <-> In e events
      /\ exists c, In c calendars /\ App.isVisible c = true
                   /\ App.cal_id c = calendarId e.
Proof.
  unfold visibleEvents. rewrite filter_In, existsb_exists.
  split; intros [He Hc]; (split; [exact He|]).
  - destruct Hc as (x & Hx & Ex). apply String.eqb_eq in Ex.
    apply in_map_iff in Hx. destruct Hx as (c & <- & Hc).
    apply filter_In in Hc. destruct Hc as [Hc Hv]. exists c. auto.
  - destruct Hc as (c & Hc & Hv & Ec). exists (App.cal_id c). split.
    + apply in_map. apply filter_In. auto.
    + apply String.eqb_eq. now symmetry.
Qed.

(** Whatever the view and the current date, every displayed event or
    occurrence comes from an event of the list whose calendar is switched
    on: it has that event's calendar, title and start time.  Events of
    hidden calendars, and of calendars that do not exist, are not
    displayed, nor are their occurrences. *)
Theorem hidden_calendars_show_nothing
    fuel calendars events viewMode currentDate l :
  displayedEvents fuel calendars events viewMode currentDate = Some l ->
  forall o, In o l ->
    exists e c,
      In e events /\ In c calendars /\ App.isVisible c = true
      /\ App.cal_id c = calendarId e
      /\ calendarId o = calendarId e /\ title o = title e
      /\ startTime o = startTime e.
Proof.
  unfold displayedEvents.
  destruct (viewWindow viewMode currentDate) as [viewStart viewEnd].
  intros E o Ho.
  destruct (expandRecurringEvents_window _ _ _ _ _ E o Ho) as (t & _ & Hc).
  destruct Hc as [(Hin & _) | (e & r & Hin & _ & -> & _)];
    apply visibleEvents_In in Hin; destruct Hin as (Hin & c & Hc & Hv & Ec).
  - exists o, c. repeat split; auto.
  - exists e, c. repeat split; auto.
Qed.

Lemma toYYYYMMDD_same_day a b :
  Day (LocalTime a) = Day (LocalTime b) ->
  toYYYYMMDD (Some a) = toYYYYMMDD (Some b).
Proof.
  intros E. unfold toYYYYMMDD.
  cbn [getFullYear getMonth getDate option_map].
  unfold DateFromTime, MonthFromTime, InLeapYear, DayWithinYear, YearFromTime.
  rewrite E. reflexivity.
Qed.

Lemma occurrence_same_day event a b :
  Day (LocalTime a) = Day (LocalTime b) ->
  occurrence event (Some a) = occurrence event (Some b).
Proof. intros E. unfold occurrence. now rewrite (toYYYYMMDD_same_day a b E). Qed.

Lemma Day_in_day d u :
  dayStart d <= u < dayStart d + msPerDay ->
  Day (LocalTime u) = Day (LocalTime d).
Proof.
  unfold dayStart, TimeWithinDay, Day, LocalTime, msPerDay. intros Hu. div_lia.
Qed.

(** The event or occurrence [o] of a displayed list belongs to the local
    day of [d]: it is a non-repeating event of [events] whose date, read
    the way the expander reads it, is an instant of that day, or it is the
    occurrence that the expander makes of a repeating event of [events]
    for that day, dated [toYYYYMMDD d]. *)
Definition shownOnDayOf (events : list AppEvent) (o : AppEvent) (d : Z) : Prop :=
  (In o events /\ repeat o = None
   /\ exists u, Date_new (date o ++ "T00:00:00") = Some u
                /\ Day (LocalTime u) = Day (LocalTime d))
  \/ (exists e r, In e events /\ repeat e = Some r
                  /\ o = occurrence e (Some d)
                  /\ date o = toYYYYMMDD (Some d)).

Lemma occurrenceWithin_shownOnDayOf calendars events ws we o d :
  occurrenceWithin (visibleEvents calendars events) (Some ws) (Some we) o ->
  (forall u, ws <= u <= we -> Day (LocalTime u) = Day (LocalTime d)) ->
  shownOnDayOf events o d.
Proof.
  intros (u & (ws' & we' & Ews & Ewe & Hu) & Hc) Hday.
  inversion Ews; inversion Ewe; subst ws' we'.
  pose proof (Hday u Hu) as Ed.
  destruct Hc as [(Hin & Hr & Eu) | (e & r & Hin & Hr & Eo & _)];
    apply visibleEvents_In in Hin; destruct Hin as [Hin _].
  - left. split; [exact Hin|]. split; [exact Hr|]. exists u. auto.
  - right. exists e, r. split; [exact Hin|]. split; [exact Hr|].
    rewrite Eo. split; [now apply occurrence_same_day|].
    cbn [date occurrence]. now apply toYYYYMMDD_same_day.
Qed.

(** What the day view and the week view display lies on their days.
    Everything displayed in the day view belongs to the local day of the
    current date, and everything displayed in the week view to the local
    day of one of the seven days of [getWeekDays]: a non-repeating event
    because its date reads as an instant of that day, an occurrence
    because it is the one the expander makes for that day, dated
    [toYYYYMMDD] of it. *)
Theorem displayed_events_fall_on_the_days_of_the_view
    fuel calendars events t l :
  Z.abs t + 8 * msPerDay <= maxTime ->
  (displayedEvents fuel calendars events day (Some t) = Some l ->
   forall o, In o l -> shownOnDayOf events o t)
  /\ (displayedEvents fuel calendars events week (Some t) = Some l ->
      forall o, In o l ->
        exists i d,
          0 <= i <= 6
          /\ nth (Z.to_nat i) (getWeekDays (Some t)) NaN = Some d
          /\ shownOnDayOf events o d).
Proof.
  intros Ht. pose proof (dayStart_le t) as Hd.
  pose proof (WeekDay_bounds (LocalTime t)) as Hw.
  split.
  - unfold displayedEvents.
    rewrite viewWindow_day by (unfold msPerDay in *; lia).
    intros E o Ho.
    apply (occurrenceWithin_shownOnDayOf calendars events
             (dayStart t) (dayStart t + msPerDay - 1)).
    + exact (expandRecurringEvents_window _ _ _ _ _ E o Ho).
    + intros u Hu. apply Day_in_day. lia.
  - unfold displayedEvents.
    rewrite viewWindow_week by exact Ht.
    intros E o Ho.
    set (vs := dayStart t - WeekDay (LocalTime t) * msPerDay) in *.
    pose proof (expandRecurringEvents_window _ _ _ _ _ E o Ho) as Hocc.
    assert (Hu : exists u, vs <= u <= vs + 7 * msPerDay - 1
                   /\ occurrenceWithin (visibleEvents calendars events)
                        (Some u) (Some u) o).
    { destruct Hocc as (u & (ws' & we' & Ews & Ewe & Hu) & Hc).
      inversion Ews; inversion Ewe; subst ws' we'.
      exists u. split; [exact Hu|]. exists u. split; [|exact Hc].
      exists u, u. split; [reflexivity|]. split; [reflexivity|]. lia. }
    destruct Hu as (u & Hu & Hocc').
    set (i := Day (LocalTime u) - (Day (LocalTime t) - WeekDay (LocalTime t))).
    assert (Hi : 0 <= i <= 6).
    { unfold i, vs, dayStart, TimeWithinDay, Day, LocalTime, msPerDay in *.
      clear - Hu Hw. div_lia. }
    exists i, (t - WeekDay (LocalTime t) * msPerDay + i * msPerDay).
    split; [exact Hi|]. split.
    + rewrite getWeekDays_eq by (unfold msPerDay in *; lia).
      rewrite nth_map_seq by lia. rewrite Z2Nat.id by lia. reflexivity.
    + apply (occurrenceWithin_shownOnDayOf calendars events u u);
        [exact Hocc'|].
      intros u' Hu'. assert (u' = u) by lia. subst u'.
      replace (t - WeekDay (LocalTime t) * msPerDay + i * msPerDay)
        with (t + (i - WeekDay (LocalTime t)) * msPerDay) by lia.
      rewrite LocalTime_shift, Day_shift. unfold i. lia.
Qed.

(** The week view of an event that repeats every day and was first held on
    or before the Sunday of the week: seven occurrences are displayed, one
    for each day of the week, from Sunday to Saturday, provided the event's
    calendar is switched on.  The loop needs one round for every day from
    the event's first day to the end of the week. *)
Theorem week_view_shows_a_daily_event_on_every_day
    fuel calendars event r D t c :
  repeat event = Some r ->
  frequency r = daily ->
  interval r = 1 ->
  Date_new (date event ++ "T00:00:00") = Some D ->
  In c calendars -> App.isVisible c = true -> App.cal_id c = calendarId event ->
  Z.abs t + 8 * msPerDay <= maxTime ->
  D <= dayStart t - WeekDay (LocalTime t) * msPerDay ->
  (Z.to_nat ((dayStart t - WeekDay (LocalTime t) * msPerDay - D) / msPerDay) + 7
   <= fuel)%nat ->
  displayedEvents fuel calendars [event] week (Some t)
  = Some (map (fun i =>
                 occurrence event
                   (Some (dayStart t - WeekDay (LocalTime t) * msPerDay
                          + Z.of_nat i * msPerDay)))
              (seq 0 7)).
Proof.
  intros Hr Hf Hi HD Hc Hv Ec Ht HDle Hfuel.
  pose proof (dayStart_le t) as Hd.
  pose proof (WeekDay_bounds (LocalTime t)) as Hw.
  set (vs := dayStart t - WeekDay (LocalTime t) * msPerDay) in *.
  assert (Hs0 : startOfLocalDay vs).
  { unfold vs.
    replace (dayStart t - WeekDay (LocalTime t) * msPerDay)
      with (dayStart (t + (- WeekDay (LocalTime t)) * msPerDay))
      by (rewrite dayStart_shift; lia).
    apply dayStart_startOfLocalDay. rewrite dayStart_shift.
    unfold msPerDay in *. lia. }
  pose proof (Date_new_startOfLocalDay _ _ HD) as HsD.
  assert (Hj : D + Z.of_nat (Z.to_nat ((vs - D) / msPerDay)) * msPerDay = vs).
  { destruct Hs0 as [E0 _], HsD as [E1 _]. clear - E0 E1 HDle.
    rewrite Z2Nat.id by (unfold msPerDay; div_lia).
    unfold TimeWithinDay, LocalTime, msPerDay in *. div_lia. }
  unfold displayedEvents. rewrite viewWindow_week by exact Ht. fold vs.
  assert (Ev : visibleEvents calendars [event] = [event]).
  { unfold visibleEvents. cbn [filter].
    replace (existsb _ _) with true; [reflexivity|].
    symmetry. apply existsb_exists. exists (App.cal_id c). split.
    - apply in_map. apply filter_In. auto.
    - apply String.eqb_eq. now symmetry. }
  rewrite Ev, expandRecurringEvents_single. unfold expandEvent. rewrite Hr, HD.
  rewrite (daily_loop_before event r vs (vs + 7 * msPerDay - 1) Hf Hi
             ltac:(unfold vs, msPerDay in *; lia) 7
             (Z.to_nat ((vs - D) / msPerDay)));
    try (destruct HsD; unfold msPerDay in *; lia).
  cbn [app]. unfold dailyFrom. rewrite map_map. reflexivity.
Qed.

End DisplayedEvents.

(* ================================================================== *)
(** ** The grid of the month view *)
(* ================================================================== *)

Section GridShape.
Context `{HostTimeZone}.
Variables (year month firstDayOfMonth daysInMonth : Number).

Lemma pushCell_length i j week currentDay :
  List.length (fst (MonthView.pushCell year month firstDayOfMonth daysInMonth
                      i j week currentDay))
  = S (List.length week).
Proof.
  unfold MonthView.pushCell.
  destruct ((i =? 0) && num_lt (Some j) firstDayOfMonth);
    [|destruct (num_lt daysInMonth (Some currentDay))];
    cbn [fst]; rewrite length_app; cbn [List.length]; lia.
Qed.

Lemma weekLoop_length i js : forall week currentDay,
  List.length (fst (MonthView.weekLoop year month firstDayOfMonth daysInMonth
                      i js week currentDay))
  = (List.length week + List.length js)%nat.
Proof.
  induction js as [|j js IH]; intros week currentDay; cbn [MonthView.weekLoop].
  - cbn [fst List.length]. lia.
  - pose proof (pushCell_length i j week currentDay) as E.
    destruct (MonthView.pushCell _ _ _ _ i j week currentDay) as [week' cd'].
    cbn [fst] in E. rewrite IH, E. cbn [List.length]. lia.
Qed.

Lemma gridLoop_shape rows : forall grid currentDay,
  (List.length grid + List.length rows = 6)%nat ->
  Forall (fun week => List.length week = 7%nat) grid ->
  let grid' := fst (MonthView.gridLoop year month firstDayOfMonth daysInMonth
                      rows grid currentDay) in
  List.length grid' = 6%nat
  /\ Forall (fun week => List.length week = 7%nat) grid'.
Proof.
  induction rows as [|i rows IH]; intros grid currentDay Hl Hw;
    cbn [MonthView.gridLoop].
  - cbn [fst List.length] in *. split; [lia|exact Hw].
  - pose proof (weekLoop_length i [0; 1; 2; 3; 4; 5; 6] [] currentDay) as E.
    destruct (MonthView.weekLoop _ _ _ _ i _ [] currentDay) as [week cd'].
    cbn [fst List.length] in E.
    assert (Hw' : Forall (fun week => List.length week = 7%nat) (grid ++ [week]))
      by (apply Forall_app; split; [exact Hw|repeat constructor; exact E]).
    assert (Hl' : (List.length (grid ++ [week]) + List.length rows = 6)%nat)
      by (rewrite length_app; cbn [List.length] in *; lia).
    destruct (num_lt daysInMonth (Some cd')
              && (6 <=? Z.of_nat (List.length (grid ++ [week])))) eqn:Eb.
    + cbn [fst]. split; [|exact Hw'].
      apply andb_true_iff in Eb. destruct Eb as [_ Eb]. apply Z.leb_le in Eb. lia.
    + apply IH; assumption.
Qed.

End GridShape.

Section GridFacts.
Context `{HostTimeZone}.

(** The grid of the month view always has six weeks of seven cells,
    whatever the current date, an invalid one included.  The loop that
    fills it up to six weeks never runs: no fuel is needed. *)
Theorem month_grid_always_has_six_full_weeks fuel currentDate :
  exists grid,
    MonthView.monthGrid fuel currentDate = Some grid
    /\ List.length grid = 6%nat
    /\ Forall (fun week => List.length week = 7%nat) grid.
Proof.
  unfold MonthView.monthGrid.
  set (year := getFullYear currentDate). set (month := getMonth currentDate).
  set (fd := getDay _). set (dim := getDate _).
  pose proof (gridLoop_shape year month fd dim [0; 1; 2; 3; 4; 5] [] 1
                eq_refl (Forall_nil _)) as Hs.
  destruct (MonthView.gridLoop year month fd dim _ [] 1) as [grid cd].
  cbn [fst] in Hs. destruct Hs as [Hl Hw].
  exists grid. split; [|split; assumption].
  destruct fuel; cbn [MonthView.padLoop]; rewrite Hl; reflexivity.
Qed.

End GridFacts.

(** *** The days of the grid *)

(** The day of the week of the first of the local month of [t], the length
    of that month, and the day number of the grid's cell [k]. *)
Definition firstWeekDay `{HostTimeZone} (t : Z) : Z := (firstOfMonth t + 4) mod 7.

Definition monthDays `{HostTimeZone} (t : Z) : Z :=
  DaysInMonth (MonthFromTime (LocalTime t)) (InLeapYear (LocalTime t)).

Definition gridDay `{HostTimeZone} (t k : Z) : Z :=
  firstOfMonth t - firstWeekDay t + k.

Definition cellAt `{HostTimeZone} (t k : Z) : MonthView.GridCell :=
  {| MonthView.day := Some (DateFromTime (gridDay t k * msPerDay));
     MonthView.isCurrentMonth :=
       (firstWeekDay t <=? k) && (k <? firstWeekDay t + monthDays t);
     MonthView.dateStr := toYYYYMMDD (Some (UTC (gridDay t k * msPerDay))) |}.

(** The value of [currentDay] when the loop reaches cell [k]. *)
Definition nextDay `{HostTimeZone} (t k : Z) : Z :=
  if k <? firstWeekDay t then 1 else k - firstWeekDay t + 1.

Section GridDays.
Context `{HostTimeZone}.
Variable t : Z.
Hypothesis Hy : ~ (0 <= YearFromTime (LocalTime t) <= 99).
Hypothesis Ht : Z.abs t + 45 * msPerDay <= maxTime.

Lemma firstWeekDay_bounds : 0 <= firstWeekDay t <= 6.
Proof. unfold firstWeekDay. div_lia. Qed.

Lemma monthDays_bounds : 28 <= monthDays t <= 31.
Proof.
  apply DaysInMonth_bounds. destruct (InLeapYear_cases (LocalTime t)); lia.
Qed.

Lemma monthLength_monthDays :
  monthLength (YearFromTime (LocalTime t)) (MonthFromTime (LocalTime t))
  = monthDays t.
Proof.
  pose proof (MonthFromTime_bounds (LocalTime t)) as Hm.
  unfold monthLength, monthDays.
  replace (MonthFromTime (LocalTime t) / 12) with 0 by div_lia.
  replace (MonthFromTime (LocalTime t) mod 12) with (MonthFromTime (LocalTime t))
    by div_lia.
  rewrite Z.add_0_r. reflexivity.
Qed.

Lemma firstOfMonth_near :
  firstOfMonth t * msPerDay <= LocalTime t < (firstOfMonth t + 31) * msPerDay.
Proof.
  pose proof (DateFromTime_bounds (LocalTime t)) as HD.
  unfold firstOfMonth, Day, msPerDay. div_lia.
Qed.

Lemma grid_day_valid N :
  firstOfMonth t - 6 <= N <= firstOfMonth t + 41 ->
  Z.abs (UTC (N * msPerDay)) <= maxTime.
Proof.
  intros HN. pose proof firstOfMonth_near as HF.
  unfold UTC, LocalTime, msPerDay in *. lia.
Qed.

Lemma newDate_day y m d N :
  y = YearFromTime (LocalTime t) ->
  MakeDay y m d = N ->
  firstOfMonth t - 6 <= N <= firstOfMonth t + 41 ->
  newDate (Some y) (Some m) (Some d) = Some (UTC (N * msPerDay)).
Proof.
  intros -> <- HN. cbn [newDate]. rewrite Date_ymd_eq by exact Hy.
  apply TimeClip_valid. now apply grid_day_valid.
Qed.

Lemma MakeDay_this_month d :
  MakeDay (YearFromTime (LocalTime t)) (MonthFromTime (LocalTime t)) d
  = firstOfMonth t + d - 1.
Proof. rewrite <- MakeDay_firstOfMonth. unfold MakeDay. lia. Qed.

Lemma MakeDay_month_before d :
  MakeDay (YearFromTime (LocalTime t)) (MonthFromTime (LocalTime t) - 1) d
  = firstOfMonth t
    - monthLength (YearFromTime (LocalTime t)) (MonthFromTime (LocalTime t) - 1)
    + d - 1.
Proof.
  pose proof (MakeDay_month_add (YearFromTime (LocalTime t))
                (MonthFromTime (LocalTime t) - 1) d) as E.
  replace (MonthFromTime (LocalTime t) - 1 + 1)
    with (MonthFromTime (LocalTime t)) in E by lia.
  rewrite MakeDay_this_month in E. lia.
Qed.

Lemma MakeDay_month_after d :
  MakeDay (YearFromTime (LocalTime t)) (MonthFromTime (LocalTime t) + 1) d
  = firstOfMonth t + monthDays t + d - 1.
Proof.
  rewrite MakeDay_month_add, MakeDay_this_month, monthLength_monthDays. lia.
Qed.

(** Day [d] of month [m]: what [getDate] reads from it. *)
Lemma DateFromTime_MakeDay y m d :
  1 <= d <= monthLength y m ->
  DateFromTime (MakeDay y m d * msPerDay) = d.
Proof.
  intros Hd.
  destruct (MakeDay_fields y m d 0) as (_ & _ & _ & _ & E);
    [exact Hd|unfold msPerDay; lia|].
  unfold MakeDate in E. now rewrite Z.add_0_r in E.
Qed.

Lemma grid_firstDayOfMonth :
  getDay (newDate (getFullYear (Some t)) (getMonth (Some t)) (Some 1))
  = Some (firstWeekDay t).
Proof.
  cbn [getFullYear getMonth option_map].
  rewrite (newDate_day _ _ 1 (firstOfMonth t) eq_refl);
    [|apply MakeDay_firstOfMonth|lia].
  cbn [getDay option_map]. rewrite LocalTime_UTC. unfold WeekDay.
  now rewrite Day_days.
Qed.

Lemma grid_daysInMonth :
  getDate (newDate (getFullYear (Some t))
                   (num_add (getMonth (Some t)) (Some 1)) (Some 0))
  = Some (monthDays t).
Proof.
  pose proof monthDays_bounds as Hd.
  cbn [getFullYear getMonth option_map num_add].
  rewrite (newDate_day _ _ 0 (firstOfMonth t + monthDays t - 1) eq_refl);
    [|rewrite MakeDay_month_after; lia|lia].
  cbn [getDate option_map]. rewrite LocalTime_UTC. f_equal.
  rewrite <- (MakeDay_this_month (monthDays t)).
  apply DateFromTime_MakeDay. rewrite monthLength_monthDays. lia.
Qed.

Lemma pushCell_eq i j week :
  0 <= i <= 5 -> 0 <= j <= 6 ->
  MonthView.pushCell (getFullYear (Some t)) (getMonth (Some t))
    (Some (firstWeekDay t)) (Some (monthDays t)) i j week
    (nextDay t (7 * i + j))
  = (week ++ [cellAt t (7 * i + j)], nextDay t (7 * i + j + 1)).
Proof.
  intros Hi Hj.
  pose proof firstWeekDay_bounds as Hf. pose proof monthDays_bounds as Hd.
  set (Y := YearFromTime (LocalTime t)).
  set (M := MonthFromTime (LocalTime t)).
  pose proof (monthLength_bounds Y (M - 1)) as Hp.
  pose proof (monthLength_bounds Y (M + 1)) as Hn.
  unfold MonthView.pushCell, nextDay, cellAt, gridDay.
  cbn [getFullYear getMonth option_map num_lt num_add num_sub]. fold Y M.
  destruct (Z.eqb_spec i 0) as [-> | Hi0]; cbn [andb].
  - replace (7 * 0 + j) with j by lia.
    destruct (Z.ltb_spec j (firstWeekDay t)) as [Hlt | Hge].
    + (* a day of the previous month *)
      cbv beta iota zeta.
      rewrite (newDate_day Y M 0 (firstOfMonth t - 1) eq_refl);
        [|unfold Y, M; rewrite MakeDay_this_month; lia|lia].
      cbn [getDate option_map num_sub num_add]. rewrite LocalTime_UTC.
      assert (Ep : DateFromTime ((firstOfMonth t - 1) * msPerDay)
                   = monthLength Y (M - 1)).
      { replace (firstOfMonth t - 1)
          with (MakeDay Y (M - 1) (monthLength Y (M - 1)))
          by (unfold Y, M; rewrite MakeDay_month_before; lia).
        apply DateFromTime_MakeDay. lia. }
      rewrite Ep.
      set (d := monthLength Y (M - 1) - firstWeekDay t + j + 1).
      assert (EN : MakeDay Y (M - 1) d = firstOfMonth t - firstWeekDay t + j)
        by (unfold d, Y, M; rewrite MakeDay_month_before; lia).
      rewrite (newDate_day Y (M - 1) d _ eq_refl EN) by lia.
      rewrite <- EN, DateFromTime_MakeDay by (unfold d; lia).
      destruct (Z.leb_spec (firstWeekDay t) j); [lia|]. cbn [andb].
      destruct (Z.ltb_spec (j + 1) (firstWeekDay t)); [reflexivity|].
      do 2 f_equal. lia.
    + destruct (Z.ltb_spec (monthDays t) (j - firstWeekDay t + 1)); [lia|].
      (* a day of the first week of the month *)
      set (d := j - firstWeekDay t + 1).
      assert (EN : MakeDay Y M d = firstOfMonth t - firstWeekDay t + j)
        by (unfold d, Y, M; rewrite MakeDay_this_month; lia).
      cbv beta iota zeta.
      rewrite (newDate_day Y M d _ eq_refl EN) by lia.
      rewrite <- EN, DateFromTime_MakeDay
        by (unfold Y, M; rewrite monthLength_monthDays; unfold d; lia).
      destruct (Z.leb_spec (firstWeekDay t) j); [|lia].
      destruct (Z.ltb_spec j (firstWeekDay t + monthDays t)); [|lia].
      destruct (Z.ltb_spec (j + 1) (firstWeekDay t)); [lia|].
      cbn [andb]. do 2 f_equal. unfold d. lia.
  - destruct (Z.ltb_spec (7 * i + j) (firstWeekDay t)); [lia|].
    destruct (Z.ltb_spec (7 * i + j + 1) (firstWeekDay t)); [lia|].
    destruct (Z.leb_spec (firstWeekDay t) (7 * i + j)); [|lia]. cbn [andb].
    destruct (Z.ltb_spec (monthDays t) (7 * i + j - firstWeekDay t + 1))
      as [Hlt | Hge].
    + (* a day of the next month *)
      set (d := 7 * i + j - firstWeekDay t + 1 - monthDays t).
      assert (EN : MakeDay Y (M + 1) d = firstOfMonth t - firstWeekDay t + (7 * i + j))
        by (unfold d, Y, M; rewrite MakeDay_month_after; lia).
      cbv beta iota zeta.
      rewrite (newDate_day Y (M + 1) d _ eq_refl EN) by lia.
      rewrite <- EN, DateFromTime_MakeDay by (unfold d; lia).
      destruct (Z.ltb_spec (7 * i + j) (firstWeekDay t + monthDays t)); [lia|].
      do 2 f_equal. lia.
    + set (d := 7 * i + j - firstWeekDay t + 1).
      assert (EN : MakeDay Y M d = firstOfMonth t - firstWeekDay t + (7 * i + j))
        by (unfold d, Y, M; rewrite MakeDay_this_month; lia).
      cbv beta iota zeta.
      rewrite (newDate_day Y M d _ eq_refl EN) by lia.
      rewrite <- EN, DateFromTime_MakeDay
        by (unfold Y, M; rewrite monthLength_monthDays; unfold d; lia).
      destruct (Z.ltb_spec (7 * i + j) (firstWeekDay t + monthDays t)); [|lia].
      do 2 f_equal. unfold d. lia.
Qed.

End GridDays.

Section GridWeeks.
Context `{HostTimeZone}.
Variable t : Z.
Hypothesis Hy : ~ (0 <= YearFromTime (LocalTime t) <= 99).
Hypothesis Ht : Z.abs t + 45 * msPerDay <= maxTime.

Lemma weekLoop_eq i :
  0 <= i <= 5 ->
  forall (n a : nat) week,
    (a + n <= 7)%nat ->
    MonthView.weekLoop (getFullYear (Some t)) (getMonth (Some t))
      (Some (firstWeekDay t)) (Some (monthDays t)) i
      (map Z.of_nat (seq a n)) week (nextDay t (7 * i + Z.of_nat a))
    = (week ++ map (fun j => cellAt t (7 * i + Z.of_nat j)) (seq a n),
       nextDay t (7 * i + Z.of_nat (a + n))).
Proof using Hy Ht.
  intros Hi. induction n as [|n IH]; intros a week Han.
  - cbn [seq map MonthView.weekLoop]. now rewrite app_nil_r, Nat.add_0_r.
  - cbn [seq map MonthView.weekLoop].
    rewrite (pushCell_eq t Hy Ht) by lia.
    replace (7 * i + Z.of_nat a + 1) with (7 * i + Z.of_nat (S a)) by lia.
    rewrite IH by lia. rewrite <- app_assoc. cbn [app].
    do 3 f_equal. lia.
Qed.

Lemma gridLoop_eq :
  forall (n a : nat) grid currentDay,
    (a + n = 6)%nat -> List.length grid = a ->
    currentDay = nextDay t (7 * Z.of_nat a) ->
    fst (MonthView.gridLoop (getFullYear (Some t)) (getMonth (Some t))
           (Some (firstWeekDay t)) (Some (monthDays t))
           (map Z.of_nat (seq a n)) grid currentDay)
    = grid ++ map (fun i => map (fun j => cellAt t (7 * Z.of_nat i + Z.of_nat j))
                                (seq 0 7))
                  (seq a n).
Proof using Hy Ht.
  induction n as [|n IH]; intros a grid currentDay Han Hl ->.
  - cbn [seq map MonthView.gridLoop fst]. now rewrite app_nil_r.
  - cbn [seq map MonthView.gridLoop].
    change [0; 1; 2; 3; 4; 5; 6] with (map Z.of_nat (seq 0 7)).
    replace (nextDay t (7 * Z.of_nat a))
      with (nextDay t (7 * Z.of_nat a + Z.of_nat 0)) by (f_equal; lia).
    rewrite weekLoop_eq by lia. cbv beta iota zeta. cbn [app].
    destruct n as [|n].
    + cbn [seq map MonthView.gridLoop].
      destruct (_ && _); reflexivity.
    + replace (6 <=? _) with false
        by (symmetry; apply Z.leb_gt; rewrite length_app; cbn [List.length]; lia).
      rewrite andb_false_r.
      rewrite IH; [|lia|rewrite length_app; cbn [List.length]; lia|f_equal; lia].
      rewrite <- app_assoc. reflexivity.
Qed.

Lemma monthGrid_eq fuel :
  exists grid,
    MonthView.monthGrid fuel (Some t) = Some grid
    /\ List.concat grid = map (fun k => cellAt t (Z.of_nat k)) (seq 0 42).
Proof using Hy Ht.
  pose proof (gridLoop_eq 6 0 [] 1 eq_refl eq_refl) as E.
  assert (E1 : 1 = nextDay t (7 * Z.of_nat 0)).
  { pose proof (firstWeekDay_bounds t) as Hf. unfold nextDay.
    cbn [Z.of_nat Z.mul]. destruct (Z.ltb_spec 0 (firstWeekDay t)); lia. }
  specialize (E E1). clear E1.
  unfold MonthView.monthGrid.
  rewrite (grid_firstDayOfMonth t Hy Ht), (grid_daysInMonth t Hy Ht).
  change [0; 1; 2; 3; 4; 5] with (map Z.of_nat (seq 0 6)).
  destruct (MonthView.gridLoop _ _ _ _ _ [] 1) as [grid cd].
  cbn [fst app] in E. subst grid.
  eexists. split.
  - destruct fuel; cbn [MonthView.padLoop]; reflexivity.
  - generalize (cellAt t). intros f. reflexivity.
Qed.

End GridWeeks.

Section GridMeaning.
Context `{HostTimeZone}.

(** The cells of the month view's grid, read row by row, are the 42 local
    days that begin with the first day of the month view's window: cell
    [k] carries the date and the day of the month of the day [k] days
    after the window's start, and it is marked as belonging to the current
    month exactly when that day lies in the local month of the current
    date. *)
Theorem month_grid_shows_six_weeks_from_the_window_start fuel t :
  ~ (0 <= YearFromTime (LocalTime t) <= 99) ->
  Z.abs t + 45 * msPerDay <= maxTime ->
  exists grid vs,
    MonthView.monthGrid fuel (Some t) = Some grid
    /\ fst (viewWindow month (Some t)) = Some vs
    /\ forall k, (k < 42)%nat ->
         exists cell,
           nth_error (List.concat grid) k = Some cell
           /\ MonthView.dateStr cell
              = toYYYYMMDD (Some (vs + Z.of_nat k * msPerDay))
           /\ MonthView.day cell = getDate (Some (vs + Z.of_nat k * msPerDay))
           /\ (MonthView.isCurrentMonth cell = true
               <-> sameMonth (vs + Z.of_nat k * msPerDay) t).
Proof.
  intros Hy Ht.
  destruct (monthGrid_eq t Hy Ht fuel) as (grid & Eg & Ec).
  destruct (viewWindow_month t Hy Ht) as (weeks & _ & _ & Ev).
  exists grid, (UTC ((firstOfMonth t - firstWeekDay t) * msPerDay)).
  split; [exact Eg|]. split; [rewrite Ev; reflexivity|].
  intros k Hk. exists (cellAt t (Z.of_nat k)).
  assert (Eu : UTC ((firstOfMonth t - firstWeekDay t) * msPerDay)
               + Z.of_nat k * msPerDay
               = UTC (gridDay t (Z.of_nat k) * msPerDay))
    by (unfold gridDay, UTC; lia).
  rewrite Eu. split.
  { rewrite Ec.
    rewrite (nth_error_nth' _ (cellAt t 0))
      by (rewrite length_map, length_seq; exact Hk).
    change (cellAt t 0) with ((fun k => cellAt t (Z.of_nat k)) 0%nat).
    rewrite map_nth, seq_nth by exact Hk. reflexivity. }
  split; [reflexivity|]. split.
  { cbn [MonthView.day cellAt getDate option_map]. now rewrite LocalTime_UTC. }
  cbn [MonthView.isCurrentMonth cellAt].
  rewrite andb_true_iff, Z.leb_le, Z.ltb_lt. split.
  - intros Hin. apply Day_sameMonth. rewrite LocalTime_UTC, Day_days.
    unfold gridDay. fold (monthDays t). lia.
  - intros Hs. apply sameMonth_Day in Hs.
    rewrite LocalTime_UTC, Day_days in Hs.
    unfold gridDay in Hs. fold (monthDays t) in Hs. lia.
Qed.

End GridMeaning.

(* ================================================================== *)
(** ** Further worked examples *)
(* ================================================================== *)

(** The worker after it was given [appointment] at a quarter to nine: the
    pass has shown the reminder. *)
Definition remindedWorker : Worker :=
  @onMessage saoPaulo quarterToNine (Some (SYNC_EVENTS (Some [appointment])))
    initialWorker.

(** An event that is to repeat every 0 days. *)
Definition everyZeroDays : AppEvent :=
  withRepeat appointment (Some {| frequency := daily; interval := 0 |}).

Definition workCalendar : App.Calendar :=
  {| App.cal_id := "cal-1"; App.name := "Trabalho"; App.color := "#0078d4";
     App.isVisible := true |}.

Definition oneAppointment : App.State :=
  {| App.calendars := [workCalendar];
     App.events := [appointment];
     App.undoStack := [];
     App.redoStack := [] |}.

(** Sunday 2024-01-28 00:00 in São Paulo. *)
Definition sunday28 : Z := 1706410800000.

(** The loop is running after the first list. *)
Lemma polling_starts_with_first_list_and_never_stops_witness :
  armed remindedWorker.
Proof.
  apply (proj2 (@polling_starts_with_first_list_and_never_stops saoPaulo
                  [Message quarterToNine (Some (SYNC_EVENTS (Some [appointment])))]
                  remindedWorker eq_refl)).
  reflexivity.
Defined.

(** The reminder that was shown has not been snoozed. *)
Lemma shown_notifications_snoozed_at_most_twice_witness :
  0 <= snoozeCount (data (alertNotification appointment quarterHour)) <= 2.
Proof.
  apply (proj1 (@shown_notifications_snoozed_at_most_twice saoPaulo
                  remindedWorker
                  (reachable_message _ _ _ reachable_initial))).
  vm_compute. left. reflexivity.
Defined.

(** Deleting the appointment and undoing it. *)
Lemma undo_restores_and_redo_reapplies_witness :
  App.events (App.handleUndo (App.deleteEvent "evt-1" oneAppointment))
  = [appointment]
  /\ App.events (App.handleRedo
                   (App.handleUndo (App.deleteEvent "evt-1" oneAppointment)))
     = [].
Proof.
  destruct (undo_restores_and_redo_reapplies (App.deleteEvent "evt-1")
              oneAppointment) as (_ & Eu & _ & Er & _).
  - right. left. exists "evt-1"%string. reflexivity.
  - split; [exact Eu | exact Er].
Defined.

(** The reminder names the appointment, which the worker has scanned. *)
Lemma completion_messages_name_scanned_events_witness :
  scannedEvent remindedWorker "evt-1".
Proof.
  apply (proj2 (@completion_messages_name_scanned_events saoPaulo
                  remindedWorker
                  (reachable_message _ _ _ reachable_initial))
               (alertNotification appointment quarterHour)).
  vm_compute. left. reflexivity.
Defined.

(** A thousand rounds do not get past the anchor. *)
Lemma zero_interval_never_returns_witness :
  @expandRecurringEvents saoPaulo 1000 [everyZeroDays]
    (Some midnight30) (Some (midnight31 + 86399999))
  = None.
Proof.
  apply (@zero_interval_never_returns saoPaulo everyZeroDays
           {| frequency := daily; interval := 0 |} midnight31 [] []
           (Some midnight30) (midnight31 + 86399999)).
  - reflexivity.
  - reflexivity.
  - vm_compute. reflexivity.
  - vm_compute. discriminate.
Defined.

(** The occurrence of the anchor day is in the result. *)
Lemma expander_result_is_exactly_the_window_witness :
  In (@occurrence saoPaulo everyDay (Some midnight31))
     [@occurrence saoPaulo everyDay (Some midnight31)].
Proof.
  apply (proj2 (@expander_result_is_exactly_the_window saoPaulo 2 [everyDay]
                  (Some midnight30) (Some (midnight31 + 86399999))
                  [@occurrence saoPaulo everyDay (Some midnight31)] everyDay
                  ltac:(vm_compute; reflexivity) (or_introl eq_refl))
               {| frequency := daily; interval := 1 |} 0%nat midnight31).
  - reflexivity.
  - vm_compute. discriminate.
  - vm_compute. reflexivity.
  - exists midnight30, (midnight31 + 86399999).
    split; [reflexivity|]. split; [reflexivity|].
    vm_compute. split; discriminate.
Defined.

(** Nine o'clock and a quarter to nine are written as the same day, which
    reads back as midnight. *)
Lemma written_day_reads_back_witness :
  @Date_new saoPaulo (@toYYYYMMDD saoPaulo (Some nineOClock) ++ "T00:00:00")
  = Some midnight31
  /\ @toYYYYMMDD saoPaulo (Some nineOClock)
     = @toYYYYMMDD saoPaulo (Some quarterToNine).
Proof.
  destruct (@written_day_reads_back saoPaulo nineOClock quarterToNine)
    as [Er Es].
  - vm_compute. split; discriminate.
  - vm_compute. split; discriminate.
  - vm_compute. discriminate.
  - split; [exact Er | apply Es; reflexivity].
Defined.

(** Monday 2024-01-15 09:00 in São Paulo. *)
Definition midJanuary : Z := 1705320000000.

(** Wednesday 2024-01-31 is the fourth day of its week. *)
Lemma week_days_run_from_sunday_to_saturday_witness :
  nth 3 (@getWeekDays saoPaulo (Some nineOClock)) NaN = Some nineOClock.
Proof.
  exact (proj2 (proj2 (@week_days_run_from_sunday_to_saturday saoPaulo
                         nineOClock ltac:(vm_compute; discriminate)))).
Defined.

(** The day and the week of 2024-01-31. *)
Lemma day_and_week_windows_are_whole_days_witness :
  exists vd vw,
    @viewWindow saoPaulo day (Some nineOClock)
    = (Some vd, Some (vd + msPerDay - 1))
    /\ @viewWindow saoPaulo week (Some nineOClock)
       = (Some vw, Some (vw + 7 * msPerDay - 1))
    /\ vw <= vd.
Proof.
  destruct (@day_and_week_windows_are_whole_days saoPaulo nineOClock
              ltac:(vm_compute; discriminate))
    as (vd & vw & Ed & Ew & _ & _ & _ & _ & Hle & _).
  exists vd, vw. auto.
Defined.

(** The month view of January 2024. *)
Lemma month_window_is_whole_weeks_around_the_month_witness :
  exists vs weeks,
    @viewWindow saoPaulo month (Some nineOClock)
    = (Some vs, Some (vs + weeks * (7 * msPerDay) - 1))
    /\ 4 <= weeks <= 6.
Proof.
  destruct (@month_window_is_whole_weeks_around_the_month saoPaulo nineOClock)
    as (vs & weeks & Ev & _ & _ & Hw & _).
  - intros [_ Hc]. vm_compute in Hc. apply Hc. reflexivity.
  - vm_compute. discriminate.
  - exists vs, weeks. auto.
Defined.

(** Next on 2024-01-31 in the month view: February has no 31st, and the
    date becomes 2024-03-02. *)
Lemma month_step_keeps_the_day_or_skips_a_month_witness :
  @getMonth saoPaulo (@handleNext saoPaulo month (Some nineOClock)) = Some 2
  /\ @getDate saoPaulo (@handleNext saoPaulo month (Some nineOClock)) = Some 2.
Proof.
  destruct (@month_step_keeps_the_day_or_skips_a_month saoPaulo nineOClock)
    as (t' & En & _ & _ & Hover).
  - vm_compute. discriminate.
  - rewrite En. destruct Hover as (_ & Em & Ed).
    + vm_compute. reflexivity.
    + split; [exact Em | exact Ed].
Defined.

(** Next and then Previous on 2024-01-15 in the month view. *)
Lemma next_then_previous_returns_witness :
  @handlePrev saoPaulo month (@handleNext saoPaulo month (Some midJanuary))
  = Some midJanuary.
Proof.
  apply (proj1 (@next_then_previous_returns saoPaulo month midJanuary
                  ltac:(vm_compute; discriminate)
                  ltac:(intros _; vm_compute; discriminate))).
Defined.

(** The appointment shown in the day view of 2024-01-31 is on a calendar
    that is switched on. *)
Lemma hidden_calendars_show_nothing_witness :
  exists e c,
    In e [appointment] /\ In c [workCalendar] /\ App.isVisible c = true
    /\ App.cal_id c = calendarId e
    /\ calendarId appointment = calendarId e /\ title appointment = title e
    /\ startTime appointment = startTime e.
Proof.
  apply (@hidden_calendars_show_nothing saoPaulo 1 [workCalendar] [appointment]
           day (Some nineOClock) [appointment]).
  - vm_compute. reflexivity.
  - left. reflexivity.
Defined.

(** And it belongs to the day of the view. *)
Lemma displayed_events_fall_on_the_days_of_the_view_witness :
  @shownOnDayOf saoPaulo [appointment] appointment nineOClock.
Proof.
  apply (proj1 (@displayed_events_fall_on_the_days_of_the_view saoPaulo 1
                  [workCalendar] [appointment] nineOClock [appointment]
                  ltac:(vm_compute; discriminate))).
  - vm_compute. reflexivity.
  - left. reflexivity.
Defined.

(** The week of 2024-02-07, a week after the first day of [everyDay]:
    seven occurrences, from Sunday 2024-02-04 on. *)
Lemma week_view_shows_a_daily_event_on_every_day_witness :
  @displayedEvents saoPaulo 11 [workCalendar] [everyDay] week
    (Some (nineOClock + 7 * msPerDay))
  = Some (map (fun i =>
                 @occurrence saoPaulo everyDay
                   (Some (sunday28 + 7 * msPerDay + Z.of_nat i * msPerDay)))
              (seq 0 7)).
Proof.
  exact (@week_view_shows_a_daily_event_on_every_day saoPaulo 11
           [workCalendar] everyDay {| frequency := daily; interval := 1 |}
           midnight31 (nineOClock + 7 * msPerDay) workCalendar
           eq_refl eq_refl eq_refl ltac:(vm_compute; reflexivity)
           (or_introl eq_refl) eq_refl eq_refl
           ltac:(vm_compute; discriminate) ltac:(vm_compute; discriminate)
           ltac:(vm_compute; repeat constructor)).
Defined.

(** The grid of January 2024 begins where the month view's window begins. *)
Lemma month_grid_shows_six_weeks_from_the_window_start_witness :
  exists grid vs,
    @MonthView.monthGrid saoPaulo 0 (Some nineOClock) = Some grid
    /\ fst (@viewWindow saoPaulo month (Some nineOClock)) = Some vs
    /\ exists cell,
         nth_error (List.concat grid) 3 = Some cell
         /\ MonthView.dateStr cell
            = @toYYYYMMDD saoPaulo (Some (vs + 3 * msPerDay)).
Proof.
  destruct (@month_grid_shows_six_weeks_from_the_window_start saoPaulo 0
              nineOClock) as (grid & vs & Eg & Ev & Hc).
  - intros [_ Hc]. vm_compute in Hc. apply Hc. reflexivity.
  - vm_compute. discriminate.
  - exists grid, vs. split; [exact Eg|]. split; [exact Ev|].
    destruct (Hc 3%nat ltac:(repeat constructor)) as (cell & En & Es & _).
    exists cell. split; [exact En | exact Es].
Defined.
